(** * Grid slicing, coordinate mapping, mask painting and compositing

    A shallow embedding of the image pipeline of the storyboard tool:
    [sliceImageGrid] (services/geminiService.ts), [generateAndAddImage]
    (App.tsx), the painting lightbox of the [Gallery] component and the
    [MaskEditor] of DirectorDeck.tsx.

    Conventions.  Pixel dimensions are natural numbers.  In the embedding
    of the components, JavaScript numbers that carry fractions (pointer
    coordinates, layout rectangles, the line width) are exact rationals
    [Q]; the statements made on it use a computed number only as a value
    that is passed on (a path point, a start position, a line width), and a
    division by a zero layout width gives 0 there.  Where a statement
    depends on how a quotient or a product is rounded (the coordinate
    mapping, the closest aspect ratio), the code is embedded in IEEE 754
    binary64 arithmetic ([Doubles]), with its infinities and NaN.  The 2D
    canvas and the DOM are platform APIs; [Canvas2D] and [Dom] describe the
    part of them that the program calls.  React state is updated in place:
    every handler runs on the state left by the previous event. *)

From Stdlib Require Import List Arith Lia ZArith QArith Qround Bool
  Ascii String DecimalString SpecFloat.
Import ListNotations.

Set Implicit Arguments.
Local Open Scope nat_scope.

(* ================================================================== *)
(** ** The canvas platform *)
(* ================================================================== *)

Module Canvas2D.

(** A pixel of a canvas backing store: premultiplied 8-bit RGBA. *)
Record Pixel : Type := mkPixel { red : Z; green : Z; blue : Z; alpha : Z }.

(** Transparent black, the content of a fresh or cleared canvas. *)
Definition transparent : Pixel := mkPixel 0 0 0 0.

(** A fully opaque pixel. *)
Definition opaque (p : Pixel) : Prop := alpha p = 255%Z.

(** One channel of the source-over operator on premultiplied 8-bit values:
    [s + d * (255 - sa) / 255], rounded to the nearest integer as the
    browser does.  255 is odd, so the quotient is never half way between
    two integers. *)
Definition overChannel (s d sa : Z) : Z :=
  (s + (d * (255 - sa) + 127) / 255)%Z.

(** [over s d]: pixel [s] drawn on top of [d] with the default
    [globalCompositeOperation], "source-over". *)
Definition over (s d : Pixel) : Pixel :=
  mkPixel (overChannel (red s) (red d) (alpha s))
          (overChannel (green s) (green d) (alpha s))
          (overChannel (blue s) (blue d) (alpha s))
          (overChannel (alpha s) (alpha d) (alpha s)).

(** Pixel rows, top to bottom; each row left to right. *)
Definition Bitmap : Type := list (list Pixel).

(** Reading outside the stored rows gives transparent black. *)
Definition pixelAt (b : Bitmap) (x y : nat) : Pixel :=
  match nth_error b y with
  | Some row => match nth_error row x with
                | Some p => p
                | None => transparent
                end
  | None => transparent
  end.

(** The [w] by [h] bitmap whose pixel at [(x, y)] is [f x y]. *)
Definition tabulate (w h : nat) (f : nat -> nat -> Pixel) : Bitmap :=
  map (fun y => map (fun x => f x y) (seq 0 w)) (seq 0 h).

Definition blank (w h : nat) : Bitmap := tabulate w h (fun _ _ => transparent).

(** A decoded raster: what an [Image] element holds once loaded, what
    [getImageData] returns and what a PNG data URL encodes. *)
Record Raster : Type := mkRaster
  { r_width : nat; r_height : nat; r_data : Bitmap }.

(** Path commands recorded by a context between [beginPath] and [stroke]. *)
Inductive PathCmd : Type :=
| MoveTo (x y : Q)
| LineTo (x y : Q)
| RectTo (x y w h : Q).

(** The drawing state of a 2D context that the program sets. *)
Record Context2D : Type := mkContext
  { strokeStyle : string;
    lineWidth : Q;
    lineCap : string;
    lineJoin : string;
    path : list PathCmd }.

Definition defaultContext : Context2D :=
  mkContext "#000000"%string 1%Q "butt"%string "miter"%string [].

(** A canvas element.  [context] is what [getContext('2d')] returns;
    [None] stands for [null]. *)
Record Canvas : Type := mkCanvas
  { width : nat; height : nat; bitmap : Bitmap; context : option Context2D }.

(** [document.createElement('canvas')], or a canvas element freshly mounted:
    300 by 150, transparent. *)
Definition createCanvas (ctxAvailable : bool) : Canvas :=
  mkCanvas 300 150 (blank 300 150)
           (if ctxAvailable then Some defaultContext else None).

Definition getContext (c : Canvas) : option Context2D := context c.

Definition resetContext (c : option Context2D) : option Context2D :=
  match c with Some _ => Some defaultContext | None => None end.

(** Assigning [canvas.width] or [canvas.height] clears the bitmap and resets
    the context state, also when the value does not change. *)
Definition setWidth (w : nat) (c : Canvas) : Canvas :=
  mkCanvas w (height c) (blank w (height c)) (resetContext (context c)).

Definition setHeight (h : nat) (c : Canvas) : Canvas :=
  mkCanvas (width c) h (blank (width c) h) (resetContext (context c)).

Definition inRect (x0 y0 w h x y : nat) : bool :=
  (x0 <=? x) && (x <? x0 + w) && (y0 <=? y) && (y <? y0 + h).

(** [ctx.clearRect(x0, y0, w, h)] with whole-pixel arguments. *)
Definition clearRect (x0 y0 w h : nat) (c : Canvas) : Canvas :=
  mkCanvas (width c) (height c)
    (tabulate (width c) (height c)
       (fun x y => if inRect x0 y0 w h x y then transparent
                   else pixelAt (bitmap c) x y))
    (context c).

(** [ctx.drawImage(src, sx, sy, sw, sh, dx, dy, dw, dh)].  The destination
    pixel at offset [(i, j)] of the destination rectangle takes the source
    pixel at offset [(i * sw / dw, j * sh / dh)] of the source rectangle,
    composited source-over.  With [dw = sw] and [dh = sh] this copies pixel
    for pixel ([sampleOffset_same]); for other sizes a browser interpolates,
    and the formula stands for its sampling. *)
Definition sampleOffset (i s d : nat) : nat := i * s / d.

Definition drawImage9 (src : Raster) (sx sy sw sh dx dy dw dh : nat)
    (c : Canvas) : Canvas :=
  mkCanvas (width c) (height c)
    (tabulate (width c) (height c)
       (fun x y =>
          if inRect dx dy dw dh x y
          then over (pixelAt (r_data src)
                             (sx + sampleOffset (x - dx) sw dw)
                             (sy + sampleOffset (y - dy) sh dh))
                    (pixelAt (bitmap c) x y)
          else pixelAt (bitmap c) x y))
    (context c).

(** [ctx.drawImage(src, dx, dy)]: the whole source at its own size. *)
Definition drawImage (src : Raster) (dx dy : nat) (c : Canvas) : Canvas :=
  drawImage9 src 0 0 (r_width src) (r_height src)
             dx dy (r_width src) (r_height src) c.

(** [canvas.toDataURL('image/png')]: a lossless copy of the bitmap. *)
Definition toDataURL (c : Canvas) : Raster :=
  mkRaster (width c) (height c) (bitmap c).

(** A canvas used as an image source. *)
Definition canvasSource (c : Canvas) : Raster := toDataURL c.

(** The rectangle of [src] at [(x0, y0)] of size [w] by [h], as a raster. *)
Definition crop (src : Raster) (x0 y0 w h : nat) : Raster :=
  mkRaster w h (tabulate w h (fun x y => pixelAt (r_data src) (x0 + x) (y0 + y))).

End Canvas2D.

Import Canvas2D.

(* ================================================================== *)
(** ** services/geminiService.ts *)
(* ================================================================== *)

Module GeminiService.

(** The two rejections of [sliceImageGrid]. *)
Inductive SliceError : Type :=
| NoCanvasContext   (* reject(new Error(...)) when getContext('2d') is null *)
| ImageLoadFailed.  (* img.onerror *)

Inductive Promise (A : Type) : Type :=
| Resolved (a : A)
| Rejected (e : SliceError).
Arguments Rejected {A} e.

(** One pass of the inner loop body: clear the shared canvas, draw the cell
    [(r, c)] of the grid into it and push its PNG. *)
Definition sliceCell (img : Raster) (pieceWidth pieceHeight r c : nat)
    (st : Canvas * list Raster) : Canvas * list Raster :=
  let cv := clearRect 0 0 pieceWidth pieceHeight (fst st) in
  let cv := drawImage9 img (c * pieceWidth) (r * pieceHeight)
                       pieceWidth pieceHeight 0 0 pieceWidth pieceHeight cv in
  (cv, snd st ++ [toDataURL cv]).

(** The crop of the composite at the offset of cell [(r, c)]. *)
Definition tileOf (img : Raster) (pieceWidth pieceHeight r c : nat) : Raster :=
  crop img (c * pieceWidth) (r * pieceHeight) pieceWidth pieceHeight.

(** [sliceImageGrid(base64Data, rows, cols)].  [loaded] is the outcome of
    decoding [base64Data] ([None]: [onerror] fires); [ctxAvailable] tells
    whether the scratch canvas yields a 2D context. *)
Definition sliceImageGrid (loaded : option Raster) (ctxAvailable : bool)
    (rows cols : nat) : Promise (list Raster) :=
  match loaded with
  | None => Rejected ImageLoadFailed
  | Some img =>
      let w := r_width img in
      let h := r_height img in
      let pieceWidth := w / cols in
      let pieceHeight := h / rows in
      let pieces : list Raster := [] in
      let canvas := createCanvas ctxAvailable in
      let canvas := setWidth pieceWidth canvas in
      let canvas := setHeight pieceHeight canvas in
      match getContext canvas with
      | None => Rejected NoCanvasContext
      | Some _ =>
          Resolved
            (snd (fold_left
                    (fun st r =>
                       fold_left
                         (fun st c => sliceCell img pieceWidth pieceHeight r c st)
                         (seq 0 cols) st)
                    (seq 0 rows) (canvas, pieces)))
      end
  end.

(** The part of [generateMultiViewGrid] after the model call: [generated] is
    the composite the service returned, if any. *)
Inductive GridError : Type :=
| NoGridImage                   (* throw new Error(...) when no inlineData *)
| SliceFailed (e : SliceError).

Record GridResult : Type := mkGridResult
  { fullImage : Raster; slices : list Raster }.

Definition generateMultiViewGrid (generated : option Raster)
    (decodes ctxAvailable : bool) (gridRows gridCols : nat)
    : GridResult + GridError :=
  match generated with
  | None => inr NoGridImage
  | Some fullImageBase64 =>
      match sliceImageGrid (if decodes then Some fullImageBase64 else None)
                           ctxAvailable gridRows gridCols with
      | Resolved panels => inl (mkGridResult fullImageBase64 panels)
      | Rejected e => inr (SliceFailed e)
      end
  end.

End GeminiService.

(* ================================================================== *)
(** ** More of the canvas platform: pixels in and out, paths, the DOM *)
(* ================================================================== *)

Module Dom.

Definition ofNat (n : nat) : Q := inject_Z (Z.of_nat n).

(** Exceptions of the canvas API that the calls of the program can raise. *)
Inductive DOMException : Type :=
| IndexSizeError      (* getImageData with a zero width or height *)
| InvalidStateError.  (* drawImage from a canvas of zero width or height *)

(** [ctx.getImageData(sx, sy, sw, sh)]. *)
Definition getImageData (sx sy sw sh : nat) (c : Canvas)
    : Raster + DOMException :=
  if (sw =? 0) || (sh =? 0) then inr IndexSizeError
  else inl (mkRaster sw sh
              (tabulate sw sh
                 (fun x y => pixelAt (bitmap c) (sx + x) (sy + y)))).

(** [ctx.putImageData(d, dx, dy)]: the pixels of [d] replace those of the
    canvas, without compositing. *)
Definition putImageData (d : Raster) (dx dy : nat) (c : Canvas) : Canvas :=
  mkCanvas (width c) (height c)
    (tabulate (width c) (height c)
       (fun x y =>
          if inRect dx dy (r_width d) (r_height d) x y
          then pixelAt (r_data d) (x - dx) (y - dy)
          else pixelAt (bitmap c) x y))
    (context c).

Definition updContext (f : Context2D -> Context2D) (c : Canvas) : Canvas :=
  mkCanvas (width c) (height c) (bitmap c) (option_map f (context c)).

Definition setStrokeStyle (s : string) : Canvas -> Canvas :=
  updContext (fun k => mkContext s (lineWidth k) (lineCap k) (lineJoin k) (path k)).

(** Assigning [ctx.lineWidth]: zero and negative values are ignored. *)
Definition setLineWidth (v : Q) : Canvas -> Canvas :=
  updContext (fun k =>
    if Qle_bool v 0 then k
    else mkContext (strokeStyle k) v (lineCap k) (lineJoin k) (path k)).

Definition setLineCap (s : string) : Canvas -> Canvas :=
  updContext (fun k => mkContext (strokeStyle k) (lineWidth k) s (lineJoin k) (path k)).

Definition setLineJoin (s : string) : Canvas -> Canvas :=
  updContext (fun k => mkContext (strokeStyle k) (lineWidth k) (lineCap k) s (path k)).

Definition setPath (p : list PathCmd) (k : Context2D) : Context2D :=
  mkContext (strokeStyle k) (lineWidth k) (lineCap k) (lineJoin k) p.

Definition beginPath : Canvas -> Canvas := updContext (setPath []).

Definition moveTo (x y : Q) : Canvas -> Canvas :=
  updContext (fun k => setPath (path k ++ [MoveTo x y]) k).

Definition lineTo (x y : Q) : Canvas -> Canvas :=
  updContext (fun k => setPath (path k ++ [LineTo x y]) k).

Definition ctxRect (x y w h : Q) : Canvas -> Canvas :=
  updContext (fun k => setPath (path k ++ [RectTo x y w h]) k).

(** How the browser turns the current path and stroke state into pixels. *)
Definition Rasterizer : Type := Context2D -> nat -> nat -> Bitmap -> Bitmap.

(** [ctx.stroke()]. *)
Definition stroke (rasterize : Rasterizer) (c : Canvas) : Canvas :=
  match context c with
  | Some k => mkCanvas (width c) (height c)
                       (rasterize k (width c) (height c) (bitmap c))
                       (context c)
  | None => c
  end.

(** An [<img>] element.  Until the image is decoded its natural size is 0
    and drawing it draws nothing. *)
Record ImgElement : Type := mkImg { decoded : bool; content : Raster }.

Definition naturalWidth (i : ImgElement) : nat :=
  if decoded i then r_width (content i) else 0.

Definition naturalHeight (i : ImgElement) : nat :=
  if decoded i then r_height (content i) else 0.

(** [ctx.drawImage(img, 0, 0)] with an [<img>] element as source. *)
Definition drawImageElement (i : ImgElement) (dx dy : nat) (c : Canvas) : Canvas :=
  if decoded i then drawImage (content i) dx dy c else c.

(** [ctx.drawImage(canvas, 0, 0)] with a canvas as source. *)
Definition drawImageCanvas (src : Canvas) (dx dy : nat) (c : Canvas)
    : Canvas + DOMException :=
  if (width src =? 0) || (height src =? 0) then inr InvalidStateError
  else inl (drawImage (canvasSource src) dx dy c).

(** The pointer position of a mouse event and the rectangle that
    [getBoundingClientRect] reports for the canvas at that moment. *)
Record MouseEvent : Type := mkMouse { clientX : Q; clientY : Q }.

Record DOMRect : Type := mkRect
  { rect_left : Q; rect_top : Q; rect_width : Q; rect_height : Q }.

End Dom.

Import Dom.

(* ================================================================== *)
(** ** JavaScript numbers *)
(* ================================================================== *)

(** A JavaScript number is an IEEE 754 binary64 value and every arithmetic
    operation rounds to nearest, ties to even.  The embedding of the
    components above keeps numbers as rationals, which serves the
    statements that only pass a computed value on.  Where a statement
    depends on how a quotient or a product is rounded, the code is
    embedded with the operations below. *)
Module Doubles.

Definition double : Type := spec_float.

Definition prec : Z := 53.
Definition emax : Z := 1024.

(** An integer as a number; exact below 2^53. *)
Definition ofZ (z : Z) : double := binary_normalize prec emax z 0 false.

Definition ofNat (n : nat) : double := ofZ (Z.of_nat n).

(** The literal [0]. *)
Definition zero : double := S754_zero false.

Definition sub : double -> double -> double := SFsub prec emax.
Definition mul : double -> double -> double := SFmul prec emax.
Definition div : double -> double -> double := SFdiv prec emax.

(** [Math.abs] and [<]. *)
Definition abs : double -> double := SFabs.
Definition ltb : double -> double -> bool := SFltb.

Definition isNaN (x : double) : bool :=
  match x with S754_nan => true | _ => false end.

Definition isZero (x : double) : bool :=
  match x with S754_zero _ => true | _ => false end.

(** Neither an infinity nor NaN. *)
Definition isFinite (x : double) : bool :=
  match x with
  | S754_zero _ | S754_finite _ _ _ => true
  | _ => false
  end.

(** The values that [Math.abs] gives on numbers: sign bit clear. *)
Definition isAbsolute (x : double) : bool :=
  match x with
  | S754_zero false | S754_infinity false | S754_finite false _ _ => true
  | _ => false
  end.

Record MouseEvent : Type := mkMouse { clientX : double; clientY : double }.

Record DOMRect : Type := mkRect
  { rect_left : double; rect_top : double;
    rect_width : double; rect_height : double }.

End Doubles.

(* ================================================================== *)
(** ** types.ts and App.tsx *)
(* ================================================================== *)

Module Types.

(** A data URL is kept as the raster it encodes. *)
Record GeneratedImage : Type := mkGeneratedImage
  { id : string;
    url : Raster;
    fullGridUrl : option Raster;
    prompt : string;
    aspectRatio : string;
    timestamp : Z }.

End Types.

Import Types.

Module App.

Import GeminiService.

(** The part of the App state that [generateAndAddImage] writes: the image
    list, the selection, and [stored], the records handed to
    [dbService.put] for the IMAGES store, in call order.  The store itself
    keeps one record per id ([AppHandlers.dbPut]); with ids that are new,
    as [crypto.randomUUID()] gives them, that is the same list. *)
Record State : Type := mkState
  { images : list GeneratedImage;
    selectedImageId : option string;
    stored : list GeneratedImage }.

Fixpoint mapWithIndex {A B : Type} (f : A -> nat -> B) (index : nat)
    (l : list A) : list B :=
  match l with
  | [] => []
  | a :: l' => f a index :: mapWithIndex f (S index) l'
  end.

(** [generateAndAddImage].  [uuid k] is the value of the [k]-th call of
    [crypto.randomUUID()]; the first three arguments after it are what the
    generation service and the browser answer.  Strings are kept as their
    UTF-8 bytes: [substring 0 50] is [genPrompt.substring(0, 50)] when the
    first 50 bytes are ASCII ([asciiLabel]), and statements about the text
    of the label are made for such prompts only. *)
Definition generateAndAddImage (uuid : nat -> string)
    (generated : option Raster) (decodes ctxAvailable : bool)
    (genPrompt : string) (rows cols count : nat) (ar : string)
    (idBase : Z) (labelPrefix : string) (st : State) : State + GridError :=
  match generateMultiViewGrid generated decodes ctxAvailable rows cols with
  | inr e => inr e
  | inl result =>
      let slices := firstn count (slices result) in
      let newImages :=
        mapWithIndex
          (fun url index =>
             mkGeneratedImage (uuid index) url (Some (fullImage result))
               ("[" ++ labelPrefix ++ "] " ++ substring 0 50 genPrompt ++ "...")%string
               ar idBase)
          0 slices in
      inl (mkState (newImages ++ images st)
                   (match newImages with
                    | first :: _ => Some (id first)
                    | [] => selectedImageId st
                    end)
                   (stored st ++ newImages))
  end.

End App.

(* ================================================================== *)
(** ** The Gallery component: lightbox and painting *)
(* ================================================================== *)

Module Gallery.

Inductive ToolType : Type := brush | rect.

(** The state of one mounted [Gallery]: the [useState] cells and the refs
    that take part in painting, and [added], the images handed to the
    [onAddImage] prop so far.  [canvasRef] and [imageRef] are [null] while
    the lightbox is not rendered. *)
Record State : Type := mkState
  { previewImage : option GeneratedImage;
    isPainting : bool;
    activeTool : ToolType;
    brushSize : Q;
    isDrawing : bool;
    canvasRef : option Canvas;
    imageRef : option ImgElement;
    snapshotRef : option Raster;
    startPosRef : Q * Q;
    added : list GeneratedImage }.

Definition initial : State :=
  mkState None false brush 20 false None None None (0, 0)%Q [].

Definition setPreviewImage (v : option GeneratedImage) (g : State) : State :=
  mkState v (isPainting g) (activeTool g) (brushSize g) (isDrawing g)
          (canvasRef g) (imageRef g) (snapshotRef g) (startPosRef g) (added g).

Definition setIsPainting (v : bool) (g : State) : State :=
  mkState (previewImage g) v (activeTool g) (brushSize g) (isDrawing g)
          (canvasRef g) (imageRef g) (snapshotRef g) (startPosRef g) (added g).

Definition setActiveTool (v : ToolType) (g : State) : State :=
  mkState (previewImage g) (isPainting g) v (brushSize g) (isDrawing g)
          (canvasRef g) (imageRef g) (snapshotRef g) (startPosRef g) (added g).

Definition setBrushSize (v : Q) (g : State) : State :=
  mkState (previewImage g) (isPainting g) (activeTool g) v (isDrawing g)
          (canvasRef g) (imageRef g) (snapshotRef g) (startPosRef g) (added g).

Definition setIsDrawing (v : bool) (g : State) : State :=
  mkState (previewImage g) (isPainting g) (activeTool g) (brushSize g) v
          (canvasRef g) (imageRef g) (snapshotRef g) (startPosRef g) (added g).

Definition setCanvas (v : option Canvas) (g : State) : State :=
  mkState (previewImage g) (isPainting g) (activeTool g) (brushSize g)
          (isDrawing g) v (imageRef g) (snapshotRef g) (startPosRef g) (added g).

Definition setImage (v : option ImgElement) (g : State) : State :=
  mkState (previewImage g) (isPainting g) (activeTool g) (brushSize g)
          (isDrawing g) (canvasRef g) v (snapshotRef g) (startPosRef g) (added g).

Definition setSnapshot (v : option Raster) (g : State) : State :=
  mkState (previewImage g) (isPainting g) (activeTool g) (brushSize g)
          (isDrawing g) (canvasRef g) (imageRef g) v (startPosRef g) (added g).

Definition setStartPos (v : Q * Q) (g : State) : State :=
  mkState (previewImage g) (isPainting g) (activeTool g) (brushSize g)
          (isDrawing g) (canvasRef g) (imageRef g) (snapshotRef g) v (added g).

Definition addImage (v : GeneratedImage) (g : State) : State :=
  mkState (previewImage g) (isPainting g) (activeTool g) (brushSize g)
          (isDrawing g) (canvasRef g) (imageRef g) (snapshotRef g)
          (startPosRef g) (added g ++ [v]).

(** The [useEffect] on [previewImage, isPainting]: give the canvas the
    natural size of the image. *)
Definition sizeCanvas (g : State) : State :=
  match previewImage g, imageRef g, canvasRef g with
  | Some _, Some img, Some cvs =>
      if negb (width cvs =? naturalWidth img)
         || negb (height cvs =? naturalHeight img)
      then
        let cvs := setWidth (naturalWidth img) cvs in
        let cvs := setHeight (naturalHeight img) cvs in
        let cvs := match getContext cvs with
                   | Some _ => clearRect 0 0 (width cvs) (height cvs) cvs
                   | None => cvs
                   end in
        setCanvas (Some cvs) g
      else g
  | _, _, _ => g
  end.

(** What React renders for the lightbox after [previewImage] changed.
    From [null] to an image, the [<img>] and a new [<canvas>] are mounted;
    from one image to another the same elements stay and the [<img>] takes
    the new source; to [null], they are unmounted.  The component has no
    load handler: it reads [naturalWidth] in the effect right after the
    render.  The URL is a data URL that the grid already displays, and the
    [<img>] is taken to be decoded by then. *)
Definition render (ctxAvailable : bool) (g : State) : State :=
  match previewImage g with
  | None => setImage None (setCanvas None g)
  | Some p =>
      let g := setImage (Some (mkImg true (url p))) g in
      match canvasRef g with
      | Some _ => g
      | None => setCanvas (Some (createCanvas ctxAvailable)) g
      end
  end.

(** [handleImageClick], with the render and the effect that follow it.
    The call of [onSelect] only informs the parent and is left out. *)
Definition handleImageClick (ctxAvailable : bool) (img : GeneratedImage)
    (g : State) : State :=
  let g := setPreviewImage (Some img) g in
  let g := setIsPainting false g in
  let g := setActiveTool brush g in
  sizeCanvas (render ctxAvailable g).

(** The close button and a click on the backdrop: [setPreviewImage(null)]. *)
Definition closePreview (g : State) : State :=
  sizeCanvas (render false (setPreviewImage None g)).

(** The edit-mode button: [setIsPainting(!isPainting)]; the effect runs
    again because [isPainting] changed. *)
Definition togglePainting (g : State) : State :=
  sizeCanvas (setIsPainting (negb (isPainting g)) g).

Definition getCoordinates (e : MouseEvent) (rect : DOMRect) (g : State)
    : Q * Q :=
  match canvasRef g, imageRef g with
  | Some canvas, Some _ =>
      let scaleX := ofNat (width canvas) / rect_width rect in
      let scaleY := ofNat (height canvas) / rect_height rect in
      ((clientX e - rect_left rect) * scaleX,
       (clientY e - rect_top rect) * scaleY)
  | _, _ => (0, 0)
  end%Q.

Section Handlers.

Variable rasterize : Rasterizer.

(** A handler leaves a state and, when a platform call raised, the
    exception that ended it. *)
Definition Handled : Type := (State * option DOMException)%type.

Definition startDrawing (e : MouseEvent) (rect : DOMRect) (g : State)
    : Handled :=
  if negb (isPainting g) then (g, None)
  else
    let g := setIsDrawing true g in
    let '(x, y) := getCoordinates e rect g in
    match canvasRef g with
    | None => (g, None)
    | Some cv =>
        match getContext cv with
        | None => (g, None)
        | Some _ =>
            match getImageData 0 0 (width cv) (height cv) cv with
            | inr ex => (g, Some ex)
            | inl snapshot =>
                let g := setSnapshot (Some snapshot) g in
                let g := setStartPos (x, y) g in
                let cv := setStrokeStyle "rgba(0, 255, 0, 0.8)" cv in
                let cv := setLineWidth
                            (brushSize g * (ofNat (width cv) / 1000))%Q cv in
                let cv := setLineCap "round" cv in
                let cv := setLineJoin "round" cv in
                let cv := match activeTool g with
                          | brush => moveTo x y (beginPath cv)
                          | rect => cv
                          end in
                (setCanvas (Some cv) g, None)
            end
        end
    end.

Definition draw (e : MouseEvent) (rect : DOMRect) (g : State) : Handled :=
  if negb (isDrawing g) || negb (isPainting g) then (g, None)
  else
    let '(x, y) := getCoordinates e rect g in
    match canvasRef g with
    | None => (g, None)
    | Some cv =>
        match getContext cv with
        | None => (g, None)
        | Some _ =>
            match activeTool g with
            | brush =>
                (setCanvas (Some (stroke rasterize (lineTo x y cv))) g, None)
            | rect =>
                match snapshotRef g with
                | None => (g, None)
                | Some snapshot =>
                    let cv := putImageData snapshot 0 0 cv in
                    let startX := fst (startPosRef g) in
                    let startY := snd (startPosRef g) in
                    let width := (x - startX)%Q in
                    let height := (y - startY)%Q in
                    let cv := beginPath cv in
                    let cv := ctxRect startX startY width height cv in
                    let cv := stroke rasterize cv in
                    (setCanvas (Some cv) g, None)
                end
            end
        end
    end.

Definition stopDrawing (g : State) : Handled := (setIsDrawing false g, None).

(** [handleSaveComposite].  [onAddImage] tells whether the prop was passed;
    [ctxAvailable] whether the scratch canvas yields a context; [uuid] and
    [now] are the values of [crypto.randomUUID()] and [Date.now()]. *)
Definition handleSaveComposite (onAddImage ctxAvailable : bool)
    (uuid : string) (now : Z) (g : State) : Handled :=
  match previewImage g, canvasRef g, imageRef g with
  | Some preview, Some canvas, Some image =>
      if negb onAddImage then (g, None)
      else
        let width := naturalWidth image in
        let height := naturalHeight image in
        let tempCanvas := createCanvas ctxAvailable in
        let tempCanvas := setWidth width tempCanvas in
        let tempCanvas := setHeight height tempCanvas in
        match getContext tempCanvas with
        | None => (g, None)
        | Some _ =>
            let tempCanvas := drawImageElement image 0 0 tempCanvas in
            match drawImageCanvas canvas 0 0 tempCanvas with
            | inr ex => (g, Some ex)
            | inl tempCanvas =>
                let dataUrl := toDataURL tempCanvas in
                let newImage :=
                  mkGeneratedImage uuid dataUrl None
                    ("[MASKED] " ++ prompt preview)%string
                    (aspectRatio preview) now in
                (closePreview (addImage newImage g), None)
            end
        end
  | _, _, _ => (g, None)
  end.

End Handlers.

End Gallery.

(* ================================================================== *)
(** ** The MaskEditor of DirectorDeck.tsx *)
(* ================================================================== *)

Module MaskEditor.

(** The state of one mounted editor; [saved] records the calls of the
    [onSave] prop. *)
Record State : Type := mkState
  { canvasRef : option Canvas;
    imageRef : option ImgElement;
    brushSize : Q;
    isDrawing : bool;
    imgLoaded : bool;
    saved : list Raster }.

Definition setCanvas (v : option Canvas) (m : State) : State :=
  mkState v (imageRef m) (brushSize m) (isDrawing m) (imgLoaded m) (saved m).

Definition setBrushSize (v : Q) (m : State) : State :=
  mkState (canvasRef m) (imageRef m) v (isDrawing m) (imgLoaded m) (saved m).

Definition setIsDrawing (v : bool) (m : State) : State :=
  mkState (canvasRef m) (imageRef m) (brushSize m) v (imgLoaded m) (saved m).

(** The editor as first rendered for [imageUrl]: a default canvas over an
    image that is still loading. *)
Definition mount (ctxAvailable : bool) (imageUrl : Raster) : State :=
  mkState (Some (createCanvas ctxAvailable)) (Some (mkImg false imageUrl))
          20 false false [].

(** The [useEffect] on [imgLoaded]. *)
Definition sizeCanvas (m : State) : State :=
  match imgLoaded m, imageRef m, canvasRef m with
  | true, Some img, Some cvs =>
      let cvs := setWidth (naturalWidth img) cvs in
      let cvs := setHeight (naturalHeight img) cvs in
      setCanvas (Some cvs) m
  | _, _, _ => m
  end.

(** The load event of the [<img>]: the image is decoded, [onLoad] sets
    [imgLoaded], and the effect runs if that changed it. *)
Definition onLoad (m : State) : State :=
  let img := option_map (fun i => mkImg true (content i)) (imageRef m) in
  let m' := mkState (canvasRef m) img (brushSize m) (isDrawing m) true (saved m) in
  if imgLoaded m then m' else sizeCanvas m'.

Definition getCoordinates (e : MouseEvent) (rect : DOMRect) (m : State)
    : Q * Q :=
  match canvasRef m, imageRef m with
  | Some canvas, Some _ =>
      let scaleX := ofNat (width canvas) / rect_width rect in
      let scaleY := ofNat (height canvas) / rect_height rect in
      ((clientX e - rect_left rect) * scaleX,
       (clientY e - rect_top rect) * scaleY)
  | _, _ => (0, 0)
  end%Q.

Section Handlers.

Variable rasterize : Rasterizer.

Definition Handled : Type := (State * option DOMException)%type.

Definition startDrawing (e : MouseEvent) (rect : DOMRect) (m : State)
    : Handled :=
  let m := setIsDrawing true m in
  let '(x, y) := getCoordinates e rect m in
  match canvasRef m with
  | None => (m, None)
  | Some cv =>
      match getContext cv with
      | None => (m, None)
      | Some _ =>
          let cv := beginPath cv in
          let cv := moveTo x y cv in
          let cv := setStrokeStyle "rgba(0, 255, 0, 0.8)" cv in
          let cv := setLineWidth (brushSize m * (ofNat (width cv) / 800))%Q cv in
          let cv := setLineCap "round" cv in
          let cv := setLineJoin "round" cv in
          (setCanvas (Some cv) m, None)
      end
  end.

Definition draw (e : MouseEvent) (rect : DOMRect) (m : State) : Handled :=
  if negb (isDrawing m) then (m, None)
  else
    let '(x, y) := getCoordinates e rect m in
    match canvasRef m with
    | None => (m, None)
    | Some cv =>
        match getContext cv with
        | None => (m, None)
        | Some _ => (setCanvas (Some (stroke rasterize (lineTo x y cv))) m, None)
        end
    end.

Definition stopDrawing (m : State) : Handled := (setIsDrawing false m, None).

(** [handleSave]; the parent closes the editor after [onSave]. *)
Definition handleSave (ctxAvailable : bool) (m : State) : Handled :=
  match imageRef m, canvasRef m with
  | Some image, Some canvas =>
      let tempCanvas := createCanvas ctxAvailable in
      let tempCanvas := setWidth (naturalWidth image) tempCanvas in
      let tempCanvas := setHeight (naturalHeight image) tempCanvas in
      match getContext tempCanvas with
      | None => (m, None)
      | Some _ =>
          let tempCanvas := drawImageElement image 0 0 tempCanvas in
          match drawImageCanvas canvas 0 0 tempCanvas with
          | inr ex => (m, Some ex)
          | inl tempCanvas =>
              (mkState (canvasRef m) (imageRef m) (brushSize m) (isDrawing m)
                       (imgLoaded m) (saved m ++ [toDataURL tempCanvas]),
               None)
          end
      end
  | _, _ => (m, None)
  end.

End Handlers.

End MaskEditor.

(* ================================================================== *)
(** ** User events and runs *)
(* ================================================================== *)

Module Session.

(** What can happen to a mounted [Gallery].  A change of the rendered size
    of the canvas is not an event of its own: every mouse event carries the
    rectangle that the layout gives the canvas at that moment. *)
Inductive GalleryEvent : Type :=
| ImageClick (ctxAvailable : bool) (img : GeneratedImage)
| ClosePreview
| TogglePainting
| SetActiveTool (t : Gallery.ToolType)
| SetBrushSize (v : Q)
| MouseDown (e : MouseEvent) (rect : DOMRect)
| MouseMove (e : MouseEvent) (rect : DOMRect)
| MouseUp
| MouseLeave
| SaveComposite (onAddImage ctxAvailable : bool) (uuid : string) (now : Z).

Definition galleryStep (rasterize : Rasterizer) (g : Gallery.State)
    (ev : GalleryEvent) : Gallery.State :=
  match ev with
  | ImageClick a img => Gallery.handleImageClick a img g
  | ClosePreview => Gallery.closePreview g
  | TogglePainting => Gallery.togglePainting g
  | SetActiveTool t => Gallery.setActiveTool t g
  | SetBrushSize v => Gallery.setBrushSize v g
  | MouseDown e r => fst (Gallery.startDrawing e r g)
  | MouseMove e r => fst (Gallery.draw rasterize e r g)
  | MouseUp | MouseLeave => fst (Gallery.stopDrawing g)
  | SaveComposite p a u n => fst (Gallery.handleSaveComposite p a u n g)
  end.

Definition galleryRun (rasterize : Rasterizer) (evs : list GalleryEvent)
    : Gallery.State :=
  fold_left (galleryStep rasterize) evs Gallery.initial.

Inductive MaskEvent : Type :=
| Load
| MaskBrushSize (v : Q)
| MaskDown (e : MouseEvent) (rect : DOMRect)
| MaskMove (e : MouseEvent) (rect : DOMRect)
| MaskUp
| MaskLeave
| Save (ctxAvailable : bool).

Definition maskStep (rasterize : Rasterizer) (m : MaskEditor.State)
    (ev : MaskEvent) : MaskEditor.State :=
  match ev with
  | Load => MaskEditor.onLoad m
  | MaskBrushSize v => MaskEditor.setBrushSize v m
  | MaskDown e r => fst (MaskEditor.startDrawing e r m)
  | MaskMove e r => fst (MaskEditor.draw rasterize e r m)
  | MaskUp | MaskLeave => fst (MaskEditor.stopDrawing m)
  | Save a => fst (MaskEditor.handleSave a m)
  end.

Definition maskRun (rasterize : Rasterizer) (ctxAvailable : bool)
    (imageUrl : Raster) (evs : list MaskEvent) : MaskEditor.State :=
  fold_left (maskStep rasterize) evs (MaskEditor.mount ctxAvailable imageUrl).

(** The two editing surfaces of the program. *)
Inductive Surface : Type :=
| GallerySurface (g : Gallery.State)
| MaskSurface (m : MaskEditor.State).

Definition surfaceCanvas (s : Surface) : option Canvas :=
  match s with
  | GallerySurface g => Gallery.canvasRef g
  | MaskSurface m => MaskEditor.canvasRef m
  end.

Definition surfaceImage (s : Surface) : option ImgElement :=
  match s with
  | GallerySurface g => Gallery.imageRef g
  | MaskSurface m => MaskEditor.imageRef m
  end.

(** [getCoordinates] of the surface. *)
Definition surfaceCoordinates (e : MouseEvent) (rect : DOMRect) (s : Surface)
    : Q * Q :=
  match s with
  | GallerySurface g => Gallery.getCoordinates e rect g
  | MaskSurface m => MaskEditor.getCoordinates e rect m
  end.

(** A run of pointer moves over the Gallery canvas. *)
Definition playMoves (rasterize : Rasterizer)
    (moves : list (MouseEvent * DOMRect)) (g : Gallery.State) : Gallery.State :=
  fold_left (fun g m => fst (Gallery.draw rasterize (fst m) (snd m) g)) moves g.

(** The reference for the rectangle tool, in the words of the
    specification: restore the pre-stroke snapshot once and draw only the
    rectangle from the anchor to the final point. *)
Definition restoreOnceAndDraw (rasterize : Rasterizer) (snapshot : Raster)
    (anchor final : Q * Q) (cv : Canvas) : Canvas :=
  let restored := putImageData snapshot 0 0 cv in
  stroke rasterize
    (ctxRect (fst anchor) (snd anchor)
             (fst final - fst anchor)%Q (snd final - snd anchor)%Q
             (beginPath restored)).

(** Two canvases of one size and one stroke style; pixels and the current
    path may differ. *)
Definition canvasAlike (a b : option Canvas) : Prop :=
  match a, b with
  | Some a, Some b =>
      width a = width b /\ height a = height b /\
      match context a, context b with
      | Some ka, Some kb =>
          strokeStyle ka = strokeStyle kb /\ lineWidth ka = lineWidth kb /\
          lineCap ka = lineCap kb /\ lineJoin ka = lineJoin kb
      | None, None => True
      | _, _ => False
      end
  | None, None => True
  | _, _ => False
  end.

(** Two Gallery states that agree on everything but the pixels and the
    path of the canvas. *)
Definition strokeAlike (a b : Gallery.State) : Prop :=
  Gallery.previewImage a = Gallery.previewImage b /\
  Gallery.isPainting a = Gallery.isPainting b /\
  Gallery.activeTool a = Gallery.activeTool b /\
  Gallery.brushSize a = Gallery.brushSize b /\
  Gallery.isDrawing a = Gallery.isDrawing b /\
  Gallery.imageRef a = Gallery.imageRef b /\
  Gallery.snapshotRef a = Gallery.snapshotRef b /\
  Gallery.startPosRef a = Gallery.startPosRef b /\
  Gallery.added a = Gallery.added b /\
  canvasAlike (Gallery.canvasRef a) (Gallery.canvasRef b).

(** The overlay of an open Gallery lightbox has the size of the image it
    shows. *)
Definition gallerySized (g : Gallery.State) : Prop :=
  match Gallery.previewImage g with
  | None => Gallery.canvasRef g = None /\ Gallery.imageRef g = None
  | Some p =>
      Gallery.imageRef g = Some (mkImg true (url p)) /\
      exists cv, Gallery.canvasRef g = Some cv /\
        width cv = r_width (url p) /\ height cv = r_height (url p)
  end.

(** Two Gallery states showing the same image on canvases of one size. *)
Definition sameFrame (a b : Gallery.State) : Prop :=
  Gallery.previewImage a = Gallery.previewImage b /\
  Gallery.imageRef a = Gallery.imageRef b /\
  match Gallery.canvasRef a, Gallery.canvasRef b with
  | Some ca, Some cb => width ca = width cb /\ height ca = height cb
  | None, None => True
  | _, _ => False
  end.

(** The overlay of a mask editor has the size of its image once the image
    has loaded. *)
Definition maskSized (imageUrl : Raster) (m : MaskEditor.State) : Prop :=
  MaskEditor.imageRef m = Some (mkImg (MaskEditor.imgLoaded m) imageUrl) /\
  exists cv, MaskEditor.canvasRef m = Some cv /\
    (MaskEditor.imgLoaded m = true ->
     width cv = r_width imageUrl /\ height cv = r_height imageUrl).

(** A rasterizer to run the model on concrete inputs: it composites the
    highlight colour onto the pixel under the end point of each path
    command and nothing else. *)
Definition highlight : Pixel := mkPixel 0 204 0 204.

Definition endPoint (c : PathCmd) : Q * Q :=
  match c with
  | MoveTo x y => (x, y)
  | LineTo x y => (x, y)
  | RectTo x y w h => (x + w, y + h)%Q
  end.

Definition covers (x y : nat) (c : PathCmd) : bool :=
  let '(px, py) := endPoint c in
  (Qfloor px =? Z.of_nat x)%Z && (Qfloor py =? Z.of_nat y)%Z.

Definition dotRasterizer : Rasterizer :=
  fun k w h b =>
    tabulate w h
      (fun x y => if existsb (covers x y) (path k)
                  then over highlight (pixelAt b x y)
                  else pixelAt b x y).

(** Small concrete inputs on which the model is run. *)
Definition sampleImage : Raster :=
  mkRaster 5 4 (tabulate 5 4 (fun x y => mkPixel (Z.of_nat x) (Z.of_nat y) 7 255)).

Definition sampleGenerated : GeneratedImage :=
  mkGeneratedImage "a1" sampleImage None "a lighthouse" "16:9" 1000.

(** The lightbox opened on [sampleGenerated] with edit mode switched on,
    and a mask editor whose image has loaded. *)
Definition samplePainting : Gallery.State :=
  Gallery.togglePainting
    (Gallery.handleImageClick true sampleGenerated Gallery.initial).

Definition sampleMask : MaskEditor.State :=
  MaskEditor.onLoad (MaskEditor.mount true sampleImage).

Definition sampleRectTool : Gallery.State :=
  Gallery.setActiveTool Gallery.rect samplePainting.

(** The canvas shown at twice its native size, 10 by 8, at (100, 50). *)
Definition sampleRect : DOMRect := mkRect 100 50 10 8.

(** A second image, of another size, and two runs: one stroke on the first
    image; and the same followed by closing and opening the second. *)
Definition otherGenerated : GeneratedImage :=
  mkGeneratedImage "b2"
    (mkRaster 3 2 (tabulate 3 2 (fun _ _ => mkPixel 9 9 9 255)))
    None "a harbour" "4:3" 1001.

Definition sampleStroke : list GalleryEvent :=
  [ImageClick true sampleGenerated; TogglePainting;
   MouseDown (mkMouse 102 52) sampleRect;
   MouseMove (mkMouse 106 56) (mkRect 100 50 20 16);
   MouseUp].

Definition sampleMaskStroke : list MaskEvent :=
  [MaskDown (mkMouse 101 51) sampleRect; Load;
   MaskDown (mkMouse 102 52) sampleRect;
   MaskMove (mkMouse 106 56) (mkRect 100 50 20 16); MaskUp].

Definition sampleSwitch : list GalleryEvent :=
  sampleStroke ++ [ClosePreview; ImageClick true otherGenerated].

End Session.

Import Session.

(* ================================================================== *)
(** ** getCoordinates in double precision *)
(* ================================================================== *)

(** [getCoordinates] of the Gallery with the numbers of the browser. *)
Module GalleryD.

Definition getCoordinates (e : Doubles.MouseEvent) (rect : Doubles.DOMRect)
    (g : Gallery.State) : Doubles.double * Doubles.double :=
  match Gallery.canvasRef g, Gallery.imageRef g with
  | Some canvas, Some _ =>
      let scaleX :=
        Doubles.div (Doubles.ofNat (width canvas)) (Doubles.rect_width rect) in
      let scaleY :=
        Doubles.div (Doubles.ofNat (height canvas)) (Doubles.rect_height rect) in
      (Doubles.mul (Doubles.sub (Doubles.clientX e) (Doubles.rect_left rect))
                   scaleX,
       Doubles.mul (Doubles.sub (Doubles.clientY e) (Doubles.rect_top rect))
                   scaleY)
  | _, _ => (Doubles.zero, Doubles.zero)
  end.

End GalleryD.

(** [getCoordinates] of the MaskEditor with the numbers of the browser. *)
Module MaskEditorD.

Definition getCoordinates (e : Doubles.MouseEvent) (rect : Doubles.DOMRect)
    (m : MaskEditor.State) : Doubles.double * Doubles.double :=
  match MaskEditor.canvasRef m, MaskEditor.imageRef m with
  | Some canvas, Some _ =>
      let scaleX :=
        Doubles.div (Doubles.ofNat (width canvas)) (Doubles.rect_width rect) in
      let scaleY :=
        Doubles.div (Doubles.ofNat (height canvas)) (Doubles.rect_height rect) in
      (Doubles.mul (Doubles.sub (Doubles.clientX e) (Doubles.rect_left rect))
                   scaleX,
       Doubles.mul (Doubles.sub (Doubles.clientY e) (Doubles.rect_top rect))
                   scaleY)
  | _, _ => (Doubles.zero, Doubles.zero)
  end.

End MaskEditorD.

Module SessionD.

(** [getCoordinates] of the surface. *)
Definition surfaceCoordinates (e : Doubles.MouseEvent) (rect : Doubles.DOMRect)
    (s : Surface) : Doubles.double * Doubles.double :=
  match s with
  | GallerySurface g => GalleryD.getCoordinates e rect g
  | MaskSurface m => MaskEditorD.getCoordinates e rect m
  end.

(** A 4 by 4 image opened in edit mode, its canvas laid out 49 by 49 at
    the origin of the viewport, and the pointer at the far corner. *)
Definition quadGenerated : GeneratedImage :=
  mkGeneratedImage "q4"
    (mkRaster 4 4 (tabulate 4 4 (fun _ _ => mkPixel 9 9 9 255)))
    None "a quay" "1:1" 1002.

Definition sampleQuad : Gallery.State :=
  Gallery.togglePainting
    (Gallery.handleImageClick true quadGenerated Gallery.initial).

Definition quadRect : Doubles.DOMRect :=
  Doubles.mkRect (Doubles.ofZ 0) (Doubles.ofZ 0)
                 (Doubles.ofZ 49) (Doubles.ofZ 49).

Definition quadCorner : Doubles.MouseEvent :=
  Doubles.mkMouse (Doubles.ofZ 49) (Doubles.ofZ 49).

(** The same canvas laid out 8 by 8 at (100, 50). *)
Definition wideRect : Doubles.DOMRect :=
  Doubles.mkRect (Doubles.ofZ 100) (Doubles.ofZ 50)
                 (Doubles.ofZ 8) (Doubles.ofZ 8).

End SessionD.

(* ================================================================== *)
(** ** More of App.tsx: grids, image list, aspect ratio *)
(* ================================================================== *)

Module AppHandlers.

(** The grid that the standard mode of [handleGenerate] asks for:
    1 by 1 for one image, 2 by 2 up to four, 3 by 3 beyond. *)
Definition standardGrid (imageCount : nat) : nat * nat :=
  if imageCount =? 1 then (1, 1)
  else if imageCount <=? 4 then (2, 2)
  else (3, 3).

(** The grids of the character mode: one row of [count] panels for views
    and shots; for expressions the same, except 2 by 2 for four. *)
Definition stripGrid (count : nat) : nat * nat := (1, count).

Definition expressionGrid (count : nat) : nat * nat :=
  if count =? 4 then (2, 2) else (1, count).

(** The IMAGES object store, keyed by [id]: [put] replaces the record of
    the same key, [delete] removes it.  The order of the list carries no
    meaning. *)
Definition dbPut (item : GeneratedImage) (store : list GeneratedImage)
    : list GeneratedImage :=
  filter (fun i => negb (String.eqb (id i) (id item))) store ++ [item].

Definition dbDelete (key : string) (store : list GeneratedImage)
    : list GeneratedImage :=
  filter (fun i => negb (String.eqb (id i) key)) store.

(** [handleSelectImage], on the part of the state kept in [App.State]. *)
Definition handleSelectImage (image : GeneratedImage) (st : App.State)
    : App.State :=
  App.mkState (App.images st) (Some (id image)) (App.stored st).

(** [handleAddGeneratedImage], the [onAddImage] that the Gallery is given. *)
Definition handleAddGeneratedImage (newImage : GeneratedImage)
    (st : App.State) : App.State :=
  let st := App.mkState (newImage :: App.images st)
                        (App.selectedImageId st) (App.stored st) in
  let st := handleSelectImage newImage st in
  App.mkState (App.images st) (App.selectedImageId st)
              (dbPut newImage (App.stored st)).

(** [handleDeleteImage]. *)
Definition handleDeleteImage (id0 : string) (st : App.State) : App.State :=
  App.mkState
    (filter (fun img => negb (String.eqb (id img) id0)) (App.images st))
    (match App.selectedImageId st with
     | Some s => if String.eqb s id0 then None else Some s
     | None => None
     end)
    (dbDelete id0 (App.stored st)).

(** The enum [AspectRatio] of types.ts and its string values. *)
Inductive AspectRatio : Type :=
| SQUARE | STANDARD | PORTRAIT | WIDE | MOBILE | CINEMA.

Definition aspectRatioValue (a : AspectRatio) : string :=
  match a with
  | SQUARE => "1:1"
  | STANDARD => "4:3"
  | PORTRAIT => "3:4"
  | WIDE => "16:9"
  | MOBILE => "9:16"
  | CINEMA => "21:9"
  end.

(** The table of [getClosestAspectRatio], in its order: each [r] is the
    number that the literal or the quotient of literals evaluates to. *)
Definition ratioMap : list (Doubles.double * AspectRatio) :=
  [(Doubles.ofZ 1, SQUARE);
   (Doubles.div (Doubles.ofZ 4) (Doubles.ofZ 3), STANDARD);
   (Doubles.div (Doubles.ofZ 3) (Doubles.ofZ 4), PORTRAIT);
   (Doubles.div (Doubles.ofZ 16) (Doubles.ofZ 9), WIDE);
   (Doubles.div (Doubles.ofZ 9) (Doubles.ofZ 16), MOBILE);
   (Doubles.div (Doubles.ofZ 21) (Doubles.ofZ 9), CINEMA)].

(** [Array.prototype.reduce] without an initial value, on a non-empty
    array given as head and tail. *)
Definition reduce1 {A : Type} (f : A -> A -> A) (head : A) (tail : list A) : A :=
  fold_left f tail head.

(** [getClosestAspectRatio(width, height)], in the arithmetic of the
    browser. *)
Definition getClosestAspectRatio (width height : nat) : AspectRatio :=
  let ratio := Doubles.div (Doubles.ofNat width) (Doubles.ofNat height) in
  snd (reduce1
         (fun prev curr =>
            if Doubles.ltb (Doubles.abs (Doubles.sub (fst curr) ratio))
                           (Doubles.abs (Doubles.sub (fst prev) ratio))
            then curr else prev)
         (Doubles.ofZ 1, SQUARE) (tl ratioMap)).

(** The number that the table gives an aspect ratio. *)
Definition ratioOf (a : AspectRatio) : Doubles.double :=
  match a with
  | SQUARE => Doubles.ofZ 1
  | STANDARD => Doubles.div (Doubles.ofZ 4) (Doubles.ofZ 3)
  | PORTRAIT => Doubles.div (Doubles.ofZ 3) (Doubles.ofZ 4)
  | WIDE => Doubles.div (Doubles.ofZ 16) (Doubles.ofZ 9)
  | MOBILE => Doubles.div (Doubles.ofZ 9) (Doubles.ofZ 16)
  | CINEMA => Doubles.div (Doubles.ofZ 21) (Doubles.ofZ 9)
  end.

(** [Math.abs(r - ratio)] for the entry of an aspect ratio. *)
Definition distance (ratio : Doubles.double) (a : AspectRatio)
    : Doubles.double :=
  Doubles.abs (Doubles.sub (ratioOf a) ratio).

(** The position of an aspect ratio in the table. *)
Definition tableIndex (a : AspectRatio) : nat :=
  match a with
  | SQUARE => 0
  | STANDARD => 1
  | PORTRAIT => 2
  | WIDE => 3
  | MOBILE => 4
  | CINEMA => 5
  end.

(** The image list and the store hold the same images. *)
Definition inSync (st : App.State) : Prop :=
  forall i : GeneratedImage, In i (App.images st) <-> In i (App.stored st).

End AppHandlers.

(* ================================================================== *)
(** ** More of DirectorDeck.tsx: character options and mentions *)
(* ================================================================== *)

Module DirectorDeck.

Record CharacterParams : Type := mkCharacterParams
  { views : list string; shots : list string; expressions : list string }.

(** [keyof CharacterParams]. *)
Inductive CharacterKey : Type := KViews | KShots | KExpressions.

Definition getList (category : CharacterKey) (p : CharacterParams)
    : list string :=
  match category with
  | KViews => views p
  | KShots => shots p
  | KExpressions => expressions p
  end.

(** [{ ...characterParams, [category]: newList }]. *)
Definition setList (category : CharacterKey) (newList : list string)
    (p : CharacterParams) : CharacterParams :=
  match category with
  | KViews => mkCharacterParams newList (shots p) (expressions p)
  | KShots => mkCharacterParams (views p) newList (expressions p)
  | KExpressions => mkCharacterParams (views p) (shots p) newList
  end.

(** [toggleCharacterOption]: the value handed to [setCharacterParams], or
    [None] when the props are missing and nothing is called. *)
Definition toggleCharacterOption (characterParams : option CharacterParams)
    (setCharacterParams : bool) (category : CharacterKey) (value : string)
    : option CharacterParams :=
  match characterParams with
  | None => None
  | Some p =>
      if negb setCharacterParams then None
      else
        let currentList := getList category p in
        let newList :=
          if existsb (String.eqb value) currentList
          then filter (fun item => negb (String.eqb item value)) currentList
          else currentList ++ [value] in
        Some (setList category newList p)
  end.

(** JavaScript strings of the prompt box, as lists of code units. *)
Definition Text : Type := list ascii.

Definition clamp (n : Z) (len : nat) : nat :=
  Nat.min (Z.to_nat n) len.

(** [s.substring(start, end)]: both ends are clamped to the string and
    swapped when out of order. *)
Definition substring (s : Text) (startIndex endIndex : Z) : Text :=
  let a := clamp startIndex (List.length s) in
  let b := clamp endIndex (List.length s) in
  firstn (Nat.max a b - Nat.min a b) (skipn (Nat.min a b) s).

(** [s.substring(start)]. *)
Definition substringFrom (s : Text) (startIndex : Z) : Text :=
  substring s startIndex (Z.of_nat (List.length s)).

Fixpoint lastIndexOfFrom (c : ascii) (s : Text) (index found : Z) : Z :=
  match s with
  | [] => found
  | x :: rest =>
      lastIndexOfFrom c rest (index + 1)
                      (if Ascii.eqb x c then index else found)
  end.

(** [s.lastIndexOf(c)] for a single character: -1 when absent. *)
Definition lastIndexOf (c : ascii) (s : Text) : Z :=
  lastIndexOfFrom c s 0 (-1).

(** [s.includes(c)] for a single character. *)
Definition includes (c : ascii) (s : Text) : bool :=
  existsb (fun x => Ascii.eqb x c) s.

(** The prompt, kept by the parent, and the mention state of the deck. *)
Record PromptState : Type := mkPromptState
  { prompt : Text;
    cursorPosition : Z;
    showMentions : bool;
    mentionQuery : Text }.

(** [handlePromptChange]: [val] and [cursorPos] are the value and the
    [selectionStart] of the textarea. *)
Definition handlePromptChange (val : Text) (cursorPos : Z) (st : PromptState)
    : PromptState :=
  let textBeforeCursor := substring val 0 cursorPos in
  let lastAt := lastIndexOf "@" textBeforeCursor in
  if negb (lastAt =? -1)%Z then
    let textAfterAt := substringFrom textBeforeCursor (lastAt + 1) in
    if negb (includes " " textAfterAt)
    then mkPromptState val cursorPos true textAfterAt
    else mkPromptState val cursorPos false (mentionQuery st)
  else mkPromptState val cursorPos false (mentionQuery st).

(** [insertMention], for an asset called [name]: the new state and, when
    the textarea is there, the position the cursor is sent to. *)
Definition insertMention (textarea : bool) (name : Text) (st : PromptState)
    : PromptState * option Z :=
  if negb textarea then (st, None)
  else
    let textBeforeCursor := substring (prompt st) 0 (cursorPosition st) in
    let lastAt := lastIndexOf "@" textBeforeCursor in
    let textAfterCursor := substringFrom (prompt st) (cursorPosition st) in
    let newPrompt :=
      substring (prompt st) 0 lastAt
        ++ (("@"%char :: name) ++ [" "%char]) ++ textAfterCursor in
    (mkPromptState newPrompt (cursorPosition st) false (mentionQuery st),
     Some (lastAt + Z.of_nat (List.length name) + 2)%Z).

End DirectorDeck.

(* ================================================================== *)
(** ** Runs of pointer moves and more sample inputs *)
(* ================================================================== *)

Module Strokes.

(** A run of pointer moves over the MaskEditor canvas. *)
Definition playMaskMoves (rasterize : Rasterizer)
    (moves : list (MouseEvent * DOMRect)) (m : MaskEditor.State)
    : MaskEditor.State :=
  fold_left (fun m mv => fst (MaskEditor.draw rasterize (fst mv) (snd mv) m))
            moves m.

(** The path command that a pointer move adds, [p] being the mapped point. *)
Definition lineToPoint (p : Q * Q) : PathCmd := LineTo (fst p) (snd p).

Definition sampleMoves : list (MouseEvent * DOMRect) :=
  [(mkMouse 104 54, sampleRect); (mkMouse 106 56, sampleRect)].

(** The events that the canvas element itself receives. *)
Definition pointerEvent (ev : GalleryEvent) : bool :=
  match ev with
  | MouseDown _ _ | MouseMove _ _ | MouseUp | MouseLeave => true
  | _ => false
  end.

(** The lightbox opened on [sampleGenerated], edit mode off. *)
Definition sampleViewing : Gallery.State :=
  Gallery.handleImageClick true sampleGenerated Gallery.initial.

(** [samplePainting] after a freehand stroke that stays on the pixel
    (3, 2), and the events of a mask editor with the same stroke. *)
Definition samplePainted : Gallery.State :=
  fst (Gallery.stopDrawing
         (fst (Gallery.draw dotRasterizer (mkMouse 106 54) sampleRect
                 (fst (Gallery.startDrawing (mkMouse 106 54) sampleRect
                         samplePainting))))).

Definition sampleMaskPainted : list MaskEvent :=
  [Load; MaskDown (mkMouse 106 54) sampleRect;
   MaskMove (mkMouse 106 54) sampleRect; MaskUp].

(** The first 50 bytes of a prompt are ASCII: on such a prompt the bytes
    that [String.substring 0 50] keeps are the code units that
    [substring(0, 50)] keeps. *)
Definition asciiLabel (genPrompt : string) : bool :=
  forallb (fun c => Nat.ltb (nat_of_ascii c) 128)
          (list_ascii_of_string (String.substring 0 50 genPrompt)).

(** Ids as [crypto.randomUUID()] gives them: no two alike. *)
Definition sampleUuid (index : nat) : string :=
  ("n" ++ NilEmpty.string_of_uint (Nat.to_uint index))%string.

End Strokes.

Import Strokes.

(* ================================================================== *)
(** ** The character mode of handleGenerate *)
(* ================================================================== *)

Module Generate.

(** What the generation service and the browser answer to one call of
    [generateAndAddImage], with the ids that [crypto.randomUUID()] gives
    the images of that call. *)
Record Answer : Type := mkAnswer
  { generated : option Raster;
    decodes : bool;
    ctxAvailable : bool;
    uuid : nat -> string }.

(** How [handleGenerate] ends: normally, with [setError] and an early
    return, or in [handleError] with what a call has thrown. *)
Inductive Outcome : Type :=
| Completed
| ErrorSet (message : string)
| Caught (e : GeminiService.GridError).

(** A count in a template literal. *)
Definition decimal (n : nat) : string :=
  NilEmpty.string_of_uint (Nat.to_uint n).

Definition viewName (v : string) : string :=
  if String.eqb v "front" then "Front View"
  else if String.eqb v "side" then "Side Profile"
  else if String.eqb v "back" then "Back View"
  else if String.eqb v "3/4_side" then "Cinematic 3/4 Side Angle (Half-Body)"
  else if String.eqb v "3/4_back" then "Cinematic Rear 3/4 Angle"
  else if String.eqb v "ots" then "Over-The-Shoulder (OTS) Shot"
  else v.

Definition shotName (s : string) : string :=
  if String.eqb s "wide" then "Wide Angle Shot"
  else if String.eqb s "medium" then "Medium Shot"
  else "Extreme Close-up".

Definition viewPrompt (views : list string) (prompt : string) : string :=
  ("Character Design Reference Sheet. MANDATORY LAYOUT: "
   ++ decimal (List.length views) ++ " vertical panels showing "
   ++ String.concat ", " (map viewName views)
   ++ ". Neutral lighting, flat studio background. " ++ prompt)%string.

Definition shotPrompt (shots : list string) (prompt : string) : string :=
  ("Cinematic Character Photography. MANDATORY LAYOUT: "
   ++ decimal (List.length shots)
   ++ " panels showing distinct camera distances: "
   ++ String.concat ", " (map shotName shots)
   ++ ". Dramatic lighting, 8k. " ++ prompt)%string.

Definition expPrompt (expressions : list string) (prompt : string) : string :=
  ("Character Facial Expression Sheet. MANDATORY LAYOUT: "
   ++ decimal (List.length expressions)
   ++ " panels showing facial expressions: "
   ++ String.concat ", " expressions
   ++ ". Focus strictly on the face. " ++ prompt)%string.

(** One [await generateAndAddImage(...)] of the branch, for a category
    with [count] selected values, on the grid the branch gives it. *)
Definition task (a : Answer) (genPrompt : string) (grid : nat * nat)
    (count : nat) (ar : AppHandlers.AspectRatio) (idBase : Z)
    (labelPrefix : string) (st : App.State)
    : App.State + GeminiService.GridError :=
  App.generateAndAddImage (uuid a) (generated a) (decodes a) (ctxAvailable a)
    genPrompt (fst grid) (snd grid) count (AppHandlers.aspectRatioValue ar)
    idBase labelPrefix st.

(** The branch [pageMode === 'character'] of [handleGenerate], inside its
    [try]: up to three calls of [generateAndAddImage], one per category
    with a selection, in the order views, shots, expressions.  The loading
    messages are left out. *)
Definition characterMode (characterParams : DirectorDeck.CharacterParams)
    (prompt : string) (timestamp : Z)
    (forViews forShots forExpressions : Answer) (st : App.State)
    : App.State * Outcome :=
  let views := DirectorDeck.views characterParams in
  let shots := DirectorDeck.shots characterParams in
  let expressions := DirectorDeck.expressions characterParams in
  let taskCount := 0 in
  let taskCount := if 0 <? List.length views then S taskCount else taskCount in
  let taskCount := if 0 <? List.length shots then S taskCount else taskCount in
  let taskCount :=
    if 0 <? List.length expressions then S taskCount else taskCount in
  if taskCount =? 0
  then (st, ErrorSet "请至少选择一个生成角度/景别/表情。")
  else
    match (if 0 <? List.length views
           then let count := List.length views in
                task forViews (viewPrompt views prompt)
                     (AppHandlers.stripGrid count) count AppHandlers.PORTRAIT
                     timestamp "视图 (Views)" st
           else inl st) with
    | inr e => (st, Caught e)
    | inl st =>
        match (if 0 <? List.length shots
               then let count := List.length shots in
                    task forShots (shotPrompt shots prompt)
                         (AppHandlers.stripGrid count) count AppHandlers.WIDE
                         (timestamp + 1) "景别 (Shots)" st
               else inl st) with
        | inr e => (st, Caught e)
        | inl st =>
            match (if 0 <? List.length expressions
                   then let count := List.length expressions in
                        task forExpressions (expPrompt expressions prompt)
                             (AppHandlers.expressionGrid count) count
                             AppHandlers.SQUARE (timestamp + 2)
                             "表情 (Faces)" st
                   else inl st) with
            | inr e => (st, Caught e)
            | inl st => (st, Completed)
            end
        end
    end.

(** [isGenerateDisabled] of the DirectorDeck on the character page. *)
Definition isGenerateDisabled (isGenerating : bool)
    (characterParams : option DirectorDeck.CharacterParams) : bool :=
  let hasCharSelection :=
    match characterParams with
    | Some p =>
        (0 <? List.length (DirectorDeck.views p))
        || (0 <? List.length (DirectorDeck.shots p))
        || (0 <? List.length (DirectorDeck.expressions p))
    | None => false
    end in
  isGenerating || negb hasCharSelection.

(** The images that one task adds all carry these values. *)
Definition taskImage (ar : AppHandlers.AspectRatio) (t : Z) (label : string)
    (im : GeneratedImage) : Prop :=
  aspectRatio im = AppHandlers.aspectRatioValue ar /\
  timestamp im = t /\ prompt im = label.

(** An answer with a composite that decodes. *)
Definition goodAnswer (img : Raster) (ids : nat -> string) : Answer :=
  mkAnswer (Some img) true true ids.

Definition sampleParams : DirectorDeck.CharacterParams :=
  DirectorDeck.mkCharacterParams ["front"; "side"]%string ["wide"]%string [].

End Generate.

(* ================================================================== *)
(** ** components/ShotListPhase.tsx: the shot list of the editor *)
(* ================================================================== *)

Module ShotList.

Record Shot : Type := mkShot
  { id : string;
    projectId : string;
    number : string;
    order : nat;
    size : string;
    angle : string;
    movement : string;
    description : string;
    dialogue : string;
    characters : string;
    sceneElement : string;
    keyframeUrl : string }.

(** [{ ...s, order: idx }]. *)
Definition withOrder (s : Shot) (idx : nat) : Shot :=
  mkShot (id s) (projectId s) (number s) idx (size s) (angle s) (movement s)
         (description s) (dialogue s) (characters s) (sceneElement s)
         (keyframeUrl s).

(** The object literal of a new shot: every text field empty. *)
Definition newShot (uuid activeProjectId number : string) (order : nat) : Shot :=
  mkShot uuid activeProjectId number order "" "" "" "" "" "" "" "".

(** [newShots.map((s, idx) => ({ ...s, order: idx }))]. *)
Definition reorder (newShots : list Shot) : list Shot :=
  App.mapWithIndex withOrder 0 newShots.

(** [a.splice(start, 0, item)] on a copy: [start] is clamped to the length
    of the array. *)
Definition splice (start : nat) (item : Shot) (a : list Shot) : list Shot :=
  firstn start a ++ item :: skipn start a.

(** The part of the component state that the shot handlers write.  The
    project record with its [shotCount] and the object stores are left
    out. *)
Record State : Type := mkState
  { shots : list Shot; activeProjectId : option string }.

Definition handleAddShot (uuid : string) (st : State) : State :=
  match activeProjectId st with
  | None => st
  | Some p =>
      let newShot :=
        newShot uuid p (Generate.decimal (List.length (shots st) + 1))
                (List.length (shots st)) in
      mkState (shots st ++ [newShot]) (activeProjectId st)
  end.

Definition handleInsertShot (uuid : string) (index : nat) (st : State)
    : State :=
  match activeProjectId st with
  | None => st
  | Some p =>
      let newShot := newShot uuid p "" 0 in
      let newShots := splice (index + 1) newShot (shots st) in
      let reorderedShots := reorder newShots in
      mkState reorderedShots (activeProjectId st)
  end.

Definition handleDeleteShot (id0 : string) (st : State) : State :=
  let remainingShots :=
    filter (fun s => negb (String.eqb (id s) id0)) (shots st) in
  let reorderedShots := reorder remainingShots in
  mkState reorderedShots (activeProjectId st).

(** The buttons of the table that add, insert and delete. *)
Inductive ShotEvent : Type :=
| AddShot (uuid : string)
| InsertShot (uuid : string) (index : nat)
| DeleteShot (id0 : string).

Definition shotStep (st : State) (ev : ShotEvent) : State :=
  match ev with
  | AddShot u => handleAddShot u st
  | InsertShot u i => handleInsertShot u i st
  | DeleteShot i => handleDeleteShot i st
  end.

(** Every shot carries its position in the list as [order]. *)
Definition ordered (l : list Shot) : Prop :=
  forall (i : nat) (s : Shot), nth_error l i = Some s -> order s = i.

Definition sampleShots : State :=
  mkState [newShot "s0" "p" "1" 0; newShot "s1" "p" "2" 1] (Some "p"%string).

End ShotList.

(* ================================================================== *)
(** * Properties *)
(* ================================================================== *)

(** Projections of updated records. *)
Ltac gallery_simpl :=
  cbn [Gallery.setPreviewImage Gallery.setIsPainting Gallery.setActiveTool
       Gallery.setBrushSize Gallery.setIsDrawing Gallery.setCanvas
       Gallery.setImage Gallery.setSnapshot Gallery.setStartPos
       Gallery.addImage
       Gallery.previewImage Gallery.isPainting Gallery.activeTool
       Gallery.brushSize Gallery.isDrawing Gallery.canvasRef Gallery.imageRef
       Gallery.snapshotRef Gallery.startPosRef Gallery.added fst snd] in *.

Ltac mask_simpl :=
  cbn [MaskEditor.setCanvas MaskEditor.setBrushSize MaskEditor.setIsDrawing
       MaskEditor.canvasRef MaskEditor.imageRef MaskEditor.brushSize
       MaskEditor.isDrawing MaskEditor.imgLoaded MaskEditor.saved fst snd] in *.

Ltac canvas_unfold :=
  unfold moveTo, beginPath, lineTo, ctxRect, setLineJoin, setLineCap,
         setLineWidth, setStrokeStyle, updContext, setPath in *;
  cbn [width height bitmap context option_map
       strokeStyle lineWidth lineCap lineJoin path] in *.

Ltac canvas_simpl :=
  cbn [width height bitmap context getContext updContext option_map
       setStrokeStyle setLineWidth setLineCap setLineJoin beginPath moveTo
       lineTo ctxRect setPath putImageData clearRect setWidth setHeight
       resetContext createCanvas
       strokeStyle lineWidth lineCap lineJoin path] in *.

(** ** Bitmaps and compositing *)

Lemma pixelAt_tabulate (w h : nat) (f : nat -> nat -> Pixel) (x y : nat) :
  x < w -> y < h -> pixelAt (tabulate w h f) x y = f x y.
Proof.
  intros Hx Hy. unfold pixelAt, tabulate.
  rewrite nth_error_map, nth_error_seq.
  apply Nat.ltb_lt in Hy. rewrite Hy. cbn [option_map].
  rewrite nth_error_map, nth_error_seq.
  apply Nat.ltb_lt in Hx. rewrite Hx. reflexivity.
Qed.

Lemma tabulate_ext (w h : nat) (f g : nat -> nat -> Pixel) :
  (forall x y, x < w -> y < h -> f x y = g x y) ->
  tabulate w h f = tabulate w h g.
Proof.
  intros E. unfold tabulate.
  apply map_ext_in. intros y Hy. apply in_seq in Hy.
  apply map_ext_in. intros x Hx. apply in_seq in Hx.
  apply E; lia.
Qed.

Lemma over_transparent_r (p : Pixel) : over p transparent = p.
Proof.
  destruct p as [r g b a]. unfold over, overChannel.
  cbn [red green blue alpha transparent]. rewrite !Z.mul_0_l.
  change ((0 + 127) / 255)%Z with 0%Z. rewrite !Z.add_0_r. reflexivity.
Qed.

Lemma over_transparent_l (p : Pixel) : over transparent p = p.
Proof.
  destruct p as [r g b a]. unfold over, overChannel. cbn [red green blue alpha transparent].
  replace (255 - 0)%Z with 255%Z by lia.
  rewrite !Z.div_add_l by lia. change (127 / 255)%Z with 0%Z.
  rewrite !Z.add_0_r. reflexivity.
Qed.

Lemma over_opaque (s d : Pixel) : opaque s -> over s d = s.
Proof.
  unfold opaque. destruct s as [r g b a]. cbn [alpha]. intros ->.
  unfold over, overChannel. cbn [red green blue alpha].
  replace (255 - 255)%Z with 0%Z by lia.
  rewrite !Z.mul_0_r. cbn. f_equal; lia.
Qed.

Lemma sampleOffset_same (i s : nat) : i < s -> sampleOffset i s s = i.
Proof.
  intros H. unfold sampleOffset. apply Nat.div_mul. lia.
Qed.

Lemma inRect_origin (w h x y : nat) :
  x < w -> y < h -> inRect 0 0 w h x y = true.
Proof.
  intros Hx Hy. unfold inRect.
  rewrite !andb_true_iff, !Nat.leb_le, !Nat.ltb_lt. lia.
Qed.

(** ** Grid slicing *)

Section Slicing.

Import GeminiService.

Variable img : Raster.
Variables pieceWidth pieceHeight : nat.

Lemma sliceCell_spec (r c : nat) (st : Canvas * list Raster) :
  width (fst st) = pieceWidth -> height (fst st) = pieceHeight ->
  let st' := sliceCell img pieceWidth pieceHeight r c st in
  width (fst st') = pieceWidth /\ height (fst st') = pieceHeight /\
  snd st' = snd st ++ [tileOf img pieceWidth pieceHeight r c].
Proof.
  intros Hw Hh. cbn. rewrite Hw, Hh. repeat split.
  f_equal. f_equal. unfold toDataURL, tileOf, crop. cbn.
  rewrite Hw, Hh. f_equal.
  apply tabulate_ext. intros x y Hx Hy.
  rewrite inRect_origin by assumption.
  rewrite pixelAt_tabulate by assumption.
  rewrite inRect_origin by assumption.
  rewrite !Nat.sub_0_r, !sampleOffset_same by assumption.
  apply over_transparent_r.
Qed.

Lemma sliceRow_spec (r : nat) (cs : list nat) (st : Canvas * list Raster) :
  width (fst st) = pieceWidth -> height (fst st) = pieceHeight ->
  let st' := fold_left (fun st c => sliceCell img pieceWidth pieceHeight r c st)
                       cs st in
  width (fst st') = pieceWidth /\ height (fst st') = pieceHeight /\
  snd st' = snd st ++ map (tileOf img pieceWidth pieceHeight r) cs.
Proof.
  revert st. induction cs as [|c cs IH]; intros st Hw Hh.
  - cbn. now rewrite app_nil_r.
  - cbn [fold_left map].
    destruct (sliceCell_spec r c st Hw Hh) as (Hw' & Hh' & Hp).
    destruct (IH _ Hw' Hh') as (Hw2 & Hh2 & Hp2).
    repeat split; try assumption.
    rewrite Hp2, Hp, <- app_assoc. reflexivity.
Qed.

Lemma sliceGrid_spec (cols : nat) (rs : list nat) (st : Canvas * list Raster) :
  width (fst st) = pieceWidth -> height (fst st) = pieceHeight ->
  let st' := fold_left
               (fun st r =>
                  fold_left
                    (fun st c => sliceCell img pieceWidth pieceHeight r c st)
                    (seq 0 cols) st)
               rs st in
  width (fst st') = pieceWidth /\ height (fst st') = pieceHeight /\
  snd st' = snd st ++ flat_map (fun r => map (tileOf img pieceWidth pieceHeight r) (seq 0 cols)) rs.
Proof.
  revert st. induction rs as [|r rs IH]; intros st Hw Hh.
  - cbn. now rewrite app_nil_r.
  - cbn [fold_left flat_map].
    destruct (sliceRow_spec r (seq 0 cols) st Hw Hh) as (Hw' & Hh' & Hp).
    destruct (IH _ Hw' Hh') as (Hw2 & Hh2 & Hp2).
    repeat split; try assumption.
    rewrite Hp2, Hp, <- app_assoc. reflexivity.
Qed.

End Slicing.

Lemma grid_length {A : Type} (f : nat -> nat -> A) (rows cols : nat) :
  List.length (flat_map (fun r => map (f r) (seq 0 cols)) (seq 0 rows)) = rows * cols.
Proof.
  induction rows as [|n IH].
  - reflexivity.
  - rewrite seq_S, flat_map_app, length_app, IH. cbn.
    rewrite app_nil_r, length_map, length_seq. lia.
Qed.

Lemma grid_nth {A : Type} (f : nat -> nat -> A) (rows cols r c : nat) :
  r < rows -> c < cols ->
  nth_error (flat_map (fun r => map (f r) (seq 0 cols)) (seq 0 rows))
            (r * cols + c) = Some (f r c).
Proof.
  induction rows as [|n IH]; intros Hr Hc; [lia|].
  rewrite seq_S, flat_map_app. cbn [flat_map Nat.add]. rewrite app_nil_r.
  destruct (Nat.eq_dec r n) as [->|Hne].
  - rewrite nth_error_app2; rewrite grid_length; [|lia].
    replace (n * cols + c - n * cols) with c by lia.
    rewrite nth_error_map, nth_error_seq.
    apply Nat.ltb_lt in Hc. now rewrite Hc.
  - rewrite nth_error_app1.
    + apply IH; lia.
    + rewrite grid_length. nia.
Qed.

Lemma sliceImageGrid_resolved (img : Raster) (rows cols : nat) :
  GeminiService.sliceImageGrid (Some img) true rows cols =
  GeminiService.Resolved
    (flat_map
       (fun r => map (GeminiService.tileOf img (r_width img / cols) (r_height img / rows) r)
                     (seq 0 cols))
       (seq 0 rows)).
Proof.
  unfold GeminiService.sliceImageGrid. cbn [getContext setHeight setWidth createCanvas context resetContext].
  f_equal.
  match goal with
  | |- snd (fold_left _ _ ?st) = _ =>
      destruct (@sliceGrid_spec img (r_width img / cols) (r_height img / rows)
                  cols (seq 0 rows) st eq_refl eq_refl) as (_ & _ & H)
  end.
  exact H.
Qed.

(** C1.  For a composite of width W >= 1 and height H >= 1 that decodes
    and a grid of R >= 1 rows and C >= 1 columns, [sliceImageGrid] (its
    scratch canvas yielding a context) resolves with exactly
    R * C tiles; the tile at position r * C + c (row-major order) has size
    floor(W / C) by floor(H / R) and is the crop of the composite at offset
    (c * floor(W / C), r * floor(H / R)), copied pixel for pixel; distinct
    cells read disjoint source pixels; no tile reads a pixel at or beyond
    column cellW * C or row cellH * R, and that remainder is less than C
    columns and R rows. *)
Theorem sliceImageGrid_row_major_crops (img : Raster) (rows cols : nat) :
  1 <= r_width img -> 1 <= r_height img -> 1 <= rows -> 1 <= cols ->
  let cellW := r_width img / cols in
  let cellH := r_height img / rows in
  exists tiles : list Raster,
    GeminiService.sliceImageGrid (Some img) true rows cols
      = GeminiService.Resolved tiles /\
    List.length tiles = rows * cols /\
    (forall r c, r < rows -> c < cols ->
       exists t, nth_error tiles (r * cols + c) = Some t /\
         t = crop img (c * cellW) (r * cellH) cellW cellH /\
         r_width t = cellW /\ r_height t = cellH /\
         forall x y, x < cellW -> y < cellH ->
           pixelAt (r_data t) x y
           = pixelAt (r_data img) (c * cellW + x) (r * cellH + y)) /\
    (forall r c r' c' x y x' y',
       r < rows -> c < cols -> r' < rows -> c' < cols ->
       x < cellW -> y < cellH -> x' < cellW -> y' < cellH ->
       (r, c) <> (r', c') ->
       (c * cellW + x, r * cellH + y) <> (c' * cellW + x', r' * cellH + y')) /\
    (forall r c x y, r < rows -> c < cols -> x < cellW -> y < cellH ->
       c * cellW + x < cellW * cols /\ r * cellH + y < cellH * rows) /\
    cellW * cols <= r_width img /\ cellH * rows <= r_height img /\
    r_width img - cellW * cols < cols /\ r_height img - cellH * rows < rows.
Proof.
  intros HW HH HR HC cellW cellH.
  eexists. split; [apply sliceImageGrid_resolved|].
  split; [apply grid_length|].
  split.
  { intros r c Hr Hc. eexists. split; [apply grid_nth; assumption|].
    fold cellW cellH. unfold GeminiService.tileOf.
    split; [reflexivity|]. split; [reflexivity|]. split; [reflexivity|].
    intros x y Hx Hy. cbn [crop r_data].
    rewrite pixelAt_tabulate by assumption. reflexivity. }
  split.
  { intros r c r' c' x y x' y' Hr Hc Hr' Hc' Hx Hy Hx' Hy' Hne E.
    injection E as Ex Ey.
    assert (c = c') by (destruct (lt_eq_lt_dec c c') as [[L|L]|L]; [nia|exact L|nia]).
    assert (r = r') by (destruct (lt_eq_lt_dec r r') as [[L|L]|L]; [nia|exact L|nia]).
    subst. now apply Hne. }
  split.
  { intros r c x y Hr Hc Hx Hy. split; nia. }
  assert (Hc1 : cols * cellW <= r_width img)
    by (apply Nat.Div0.mul_div_le).
  assert (Hr1 : rows * cellH <= r_height img)
    by (apply Nat.Div0.mul_div_le).
  pose proof (Nat.div_mod_eq (r_width img) cols) as Dw.
  pose proof (Nat.div_mod_eq (r_height img) rows) as Dh.
  pose proof (Nat.mod_upper_bound (r_width img) cols ltac:(lia)) as Mw.
  pose proof (Nat.mod_upper_bound (r_height img) rows ltac:(lia)) as Mh.
  fold cellW in Dw. fold cellH in Dh.
  repeat split; lia.
Qed.

Lemma sliceImageGrid_row_major_crops_witness :
  (1 <= r_width sampleImage /\ 1 <= r_height sampleImage /\ 1 <= 2 /\ 1 <= 2) /\
  exists tiles : list Raster,
    GeminiService.sliceImageGrid (Some sampleImage) true 2 2
      = GeminiService.Resolved tiles /\
    List.length tiles = 4 /\
    nth_error tiles 3 = Some (crop sampleImage 2 2 2 2).
Proof.
  assert (H : 1 <= r_width sampleImage /\ 1 <= r_height sampleImage
              /\ 1 <= 2 /\ 1 <= 2) by (cbn; lia).
  split; [exact H|].
  destruct H as (h1 & h2 & h3 & h4).
  destruct (sliceImageGrid_row_major_crops sampleImage h1 h2 h3 h4)
    as (tiles & E & L & N & _).
  exists tiles. split; [exact E|]. split; [exact L|].
  destruct (N 1 1 ltac:(lia) ltac:(lia)) as (t & Ht & Hc & _).
  rewrite Hc in Ht. exact Ht.
Defined.

(** ** Truncation to the requested panel count *)

Lemma mapWithIndex_urls (uuid : nat -> string) (full : option Raster)
    (p ar : string) (t : Z) (k : nat) (l : list Raster) :
  map url (App.mapWithIndex
             (fun u index => mkGeneratedImage (uuid index) u full p ar t) k l) = l.
Proof.
  revert k. induction l as [|a l IH]; intros k; cbn; [reflexivity|].
  now rewrite IH.
Qed.

Lemma firstn_grid_nth {A : Type} (f : nat -> nat -> A) (rows cols count i : nat) :
  count <= rows * cols -> i < count ->
  nth_error (firstn count
               (flat_map (fun r => map (f r) (seq 0 cols)) (seq 0 rows))) i
  = Some (f (i / cols) (i mod cols)).
Proof.
  intros Hc Hi.
  assert (Hcols : cols <> 0) by nia.
  rewrite nth_error_firstn.
  apply Nat.ltb_lt in Hi as Hi'. rewrite Hi'.
  pose proof (Nat.div_mod_eq i cols) as D.
  pose proof (Nat.mod_upper_bound i cols Hcols) as M.
  assert (Hr : i / cols < rows).
  { apply Nat.Div0.div_lt_upper_bound. lia. }
  replace i with (i / cols * cols + i mod cols) at 1 by lia.
  now apply grid_nth.
Qed.

(** C2.  With a requested panel count P <= R * C, [generateAndAddImage]
    keeps exactly the first P tiles of the row-major list that
    [sliceImageGrid] returns: P new images, the i-th of which carries the
    tile of cell (i div C, i mod C), whatever the tiles contain.  For a 900
    by 600 composite with R = 2, C = 3 and P = 5 these are the 300 by 300
    crops of cells (0,0), (0,1), (0,2), (1,0), (1,1). *)
Theorem generateAndAddImage_keeps_first_P :
  (forall (uuid : nat -> string) (genPrompt ar labelPrefix : string) (idBase : Z)
          (st : App.State) (img : Raster) (rows cols count : nat),
     count <= rows * cols ->
     let cellW := r_width img / cols in
     let cellH := r_height img / rows in
     exists (tiles : list Raster) (newImages : list GeneratedImage)
            (st' : App.State),
       GeminiService.sliceImageGrid (Some img) true rows cols
         = GeminiService.Resolved tiles /\
       App.generateAndAddImage uuid (Some img) true true genPrompt rows cols
         count ar idBase labelPrefix st = inl st' /\
       App.images st' = newImages ++ App.images st /\
       map url newImages = firstn count tiles /\
       List.length newImages = count /\
       forall i, i < count ->
         exists im, nth_error newImages i = Some im /\
           nth_error tiles i = Some (url im) /\
           url im = crop img (i mod cols * cellW) (i / cols * cellH) cellW cellH)
  /\
  (forall (uuid : nat -> string) (genPrompt ar labelPrefix : string) (idBase : Z)
          (st : App.State) (img : Raster),
     r_width img = 900 -> r_height img = 600 ->
     exists (newImages : list GeneratedImage) (st' : App.State),
       App.generateAndAddImage uuid (Some img) true true genPrompt 2 3
         5 ar idBase labelPrefix st = inl st' /\
       App.images st' = newImages ++ App.images st /\
       map url newImages =
         [crop img 0 0 300 300; crop img 300 0 300 300; crop img 600 0 300 300;
          crop img 0 300 300 300; crop img 300 300 300 300]).
Proof.
  split.
  - intros uuid genPrompt ar labelPrefix idBase st img rows cols count Hc cellW cellH.
    unfold App.generateAndAddImage, GeminiService.generateMultiViewGrid.
    rewrite sliceImageGrid_resolved.
    cbn [GeminiService.slices GeminiService.fullImage App.images].
    set (tiles := flat_map _ _).
    set (newImages := App.mapWithIndex _ 0 (firstn count tiles)).
    assert (U : map url newImages = firstn count tiles)
      by apply mapWithIndex_urls.
    assert (L : List.length tiles = rows * cols) by apply grid_length.
    exists tiles, newImages. eexists.
    split; [reflexivity|]. split; [reflexivity|]. split; [reflexivity|].
    split; [exact U|].
    split.
    { rewrite <- (length_map url), U, length_firstn. lia. }
    intros i Hi.
    pose proof (firstn_grid_nth
                  (GeminiService.tileOf img (r_width img / cols) (r_height img / rows))
                  rows cols Hc Hi) as N.
    fold tiles in N. rewrite <- U, nth_error_map in N.
    destruct (nth_error newImages i) as [im|] eqn:E; [|discriminate].
    cbn in N. injection N as N.
    exists im. split; [reflexivity|].
    assert (T : nth_error tiles i = Some (url im)).
    { assert (F : nth_error (firstn count tiles) i = nth_error tiles i).
      { rewrite nth_error_firstn. apply Nat.ltb_lt in Hi. now rewrite Hi. }
      rewrite <- F, <- U, nth_error_map, E. reflexivity. }
    split; [exact T|]. exact N.
  - intros uuid genPrompt ar labelPrefix idBase st img HW HH.
    unfold App.generateAndAddImage, GeminiService.generateMultiViewGrid.
    rewrite sliceImageGrid_resolved.
    cbn [GeminiService.slices GeminiService.fullImage App.images].
    eexists. eexists.
    split; [reflexivity|]. split; [reflexivity|].
    rewrite mapWithIndex_urls, HW, HH.
    reflexivity.
Qed.

Lemma generateAndAddImage_keeps_first_P_witness :
  3 <= 2 * 2 /\
  exists st' : App.State,
    App.generateAndAddImage (fun _ => "u"%string) (Some sampleImage) true true
      "p"%string 2 2 3 "1:1"%string 0%Z "T"%string (App.mkState [] None [])
      = inl st' /\
    map url (App.images st') =
      [crop sampleImage 0 0 2 2; crop sampleImage 2 0 2 2; crop sampleImage 0 2 2 2].
Proof.
  assert (H : 3 <= 2 * 2) by (cbn; lia).
  split; [exact H|].
  destruct (proj1 generateAndAddImage_keeps_first_P (fun _ => "u"%string)
              "p"%string "1:1"%string "T"%string 0%Z (App.mkState [] None [])
              sampleImage 2 2 3 H)
    as (tiles & newImages & st' & S & E & I & U & _).
  exists st'. split; [exact E|].
  rewrite I, map_app, U. cbn [App.images map]. rewrite app_nil_r.
  rewrite sliceImageGrid_resolved in S. injection S as <-.
  reflexivity.
Defined.

(** ** Coordinate mapping *)

Lemma ofNat_pos (n : nat) : 1 <= n -> (0 < ofNat n)%Q.
Proof.
  intros H. unfold ofNat, Qlt. cbn. lia.
Qed.

Lemma scale_pos (n : nat) (d : Q) : 1 <= n -> (0 < d -> 0 < ofNat n / d)%Q.
Proof.
  intros Hn Hd. apply Qlt_shift_div_l; [exact Hd|].
  rewrite Qmult_0_l. now apply ofNat_pos.
Qed.

Lemma sub_same (x : Doubles.double) :
  Doubles.isFinite x = true -> Doubles.sub x x = Doubles.zero.
Proof.
  destruct x as [s|s| |s m e]; try discriminate; intros _.
  - destruct s; reflexivity.
  - unfold Doubles.sub, SFsub. rewrite Z.sub_diag. reflexivity.
Qed.

Lemma mul_zero_l (x y : Doubles.double) :
  Doubles.isZero x = true -> Doubles.isFinite y = true ->
  Doubles.isZero (Doubles.mul x y) = true.
Proof. destruct x, y; try discriminate; reflexivity. Qed.

Lemma surfaceCoordinatesD_present (s : Surface) (cv : Canvas)
    (el : ImgElement) (e : Doubles.MouseEvent) (rect : Doubles.DOMRect) :
  surfaceCanvas s = Some cv -> surfaceImage s = Some el ->
  SessionD.surfaceCoordinates e rect s =
  (Doubles.mul (Doubles.sub (Doubles.clientX e) (Doubles.rect_left rect))
     (Doubles.div (Doubles.ofNat (width cv)) (Doubles.rect_width rect)),
   Doubles.mul (Doubles.sub (Doubles.clientY e) (Doubles.rect_top rect))
     (Doubles.div (Doubles.ofNat (height cv)) (Doubles.rect_height rect))).
Proof.
  destruct s as [g|m]; cbn; intros Hc Hi;
    [unfold GalleryD.getCoordinates | unfold MaskEditorD.getCoordinates];
    rewrite Hc, Hi; reflexivity.
Qed.

(** C3 fails on the code: the products are rounded.  A 4 by 4 overlay
    shown 49 by 49 sends the pointer at the far corner of the surface,
    (w, h) = (49, 49), to 49 * (4 / 49) = 3.9999999999999996 on both axes,
    which is below (W, H) = (4, 4) and is not the exact 49 * 4 / 49. *)
Lemma far_corner_misses_native_corner :
  let s := GallerySurface SessionD.sampleQuad in
  let p := SessionD.surfaceCoordinates SessionD.quadCorner SessionD.quadRect s in
  (exists cv el, surfaceCanvas s = Some cv /\ surfaceImage s = Some el /\
     width cv = 4 /\ height cv = 4) /\
  Doubles.sub (Doubles.clientX SessionD.quadCorner)
              (Doubles.rect_left SessionD.quadRect)
    = Doubles.rect_width SessionD.quadRect /\
  Doubles.sub (Doubles.clientY SessionD.quadCorner)
              (Doubles.rect_top SessionD.quadRect)
    = Doubles.rect_height SessionD.quadRect /\
  p <> (Doubles.ofNat 4, Doubles.ofNat 4) /\
  fst p = S754_finite false 9007199254740991 (-51) /\
  snd p = S754_finite false 9007199254740991 (-51) /\
  Doubles.ofNat 4 = S754_finite false 4503599627370496 (-50) /\
  Doubles.ltb (fst p) (Doubles.ofNat 4) = true /\
  Doubles.ltb (snd p) (Doubles.ofNat 4) = true.
Proof.
  cbv zeta. split.
  { eexists. eexists. split; [reflexivity|]. split; [reflexivity|].
    split; reflexivity. }
  split; [vm_compute; reflexivity|]. split; [vm_compute; reflexivity|].
  split; [vm_compute; discriminate|].
  repeat split; vm_compute; reflexivity.
Qed.

(** C3.  On either editing surface with canvas and image present,
    [getCoordinates] returns the two products that the code writes,
    evaluated in double precision with one rounding per operation:
    x = (clientX - left) * (canvas.width / rect.width) and
    y = (clientY - top) * (canvas.height / rect.height).  Nothing is
    clamped and nothing else enters the result: surfaces whose canvases
    have the same size map an event under a rectangle to the same point.
    A pointer on the top-left corner is at offset +0, and an offset of
    zero maps to zero whenever the scale factor is finite. *)
Theorem getCoordinates_is_rounded_product
    (s : Surface) (cv : Canvas) (el : ImgElement)
    (e : Doubles.MouseEvent) (rect : Doubles.DOMRect) :
  surfaceCanvas s = Some cv -> surfaceImage s = Some el ->
  let px := Doubles.sub (Doubles.clientX e) (Doubles.rect_left rect) in
  let py := Doubles.sub (Doubles.clientY e) (Doubles.rect_top rect) in
  let scaleX :=
    Doubles.div (Doubles.ofNat (width cv)) (Doubles.rect_width rect) in
  let scaleY :=
    Doubles.div (Doubles.ofNat (height cv)) (Doubles.rect_height rect) in
  let x := fst (SessionD.surfaceCoordinates e rect s) in
  let y := snd (SessionD.surfaceCoordinates e rect s) in
  x = Doubles.mul px scaleX /\ y = Doubles.mul py scaleY /\
  (Doubles.isFinite (Doubles.clientX e) = true ->
   Doubles.clientX e = Doubles.rect_left rect -> px = Doubles.zero) /\
  (Doubles.isFinite (Doubles.clientY e) = true ->
   Doubles.clientY e = Doubles.rect_top rect -> py = Doubles.zero) /\
  (Doubles.isZero px = true -> Doubles.isFinite scaleX = true ->
   Doubles.isZero x = true) /\
  (Doubles.isZero py = true -> Doubles.isFinite scaleY = true ->
   Doubles.isZero y = true) /\
  (forall (s' : Surface) (cv' : Canvas) (el' : ImgElement),
     surfaceCanvas s' = Some cv' -> surfaceImage s' = Some el' ->
     width cv' = width cv -> height cv' = height cv ->
     SessionD.surfaceCoordinates e rect s'
     = SessionD.surfaceCoordinates e rect s).
Proof.
  intros Hc Hi px py scaleX scaleY x y.
  assert (Ex : x = Doubles.mul px scaleX)
    by (subst x; rewrite (@surfaceCoordinatesD_present s cv el e rect Hc Hi);
        reflexivity).
  assert (Ey : y = Doubles.mul py scaleY)
    by (subst y; rewrite (@surfaceCoordinatesD_present s cv el e rect Hc Hi);
        reflexivity).
  split; [exact Ex|]. split; [exact Ey|].
  split.
  { intros F E. subst px. rewrite <- E. now apply sub_same. }
  split.
  { intros F E. subst py. rewrite <- E. now apply sub_same. }
  split; [intros Z F; rewrite Ex; now apply mul_zero_l|].
  split; [intros Z F; rewrite Ey; now apply mul_zero_l|].
  intros s' cv' el' Hc' Hi' Ew Eh.
  rewrite (@surfaceCoordinatesD_present s cv el e rect Hc Hi).
  rewrite (@surfaceCoordinatesD_present s' cv' el' e rect Hc' Hi').
  now rewrite Ew, Eh.
Qed.

Lemma getCoordinates_is_rounded_product_witness :
  (exists cv el,
     surfaceCanvas (GallerySurface SessionD.sampleQuad) = Some cv /\
     surfaceImage (GallerySurface SessionD.sampleQuad) = Some el) /\
  SessionD.surfaceCoordinates
    (Doubles.mkMouse (Doubles.ofZ 96) (Doubles.ofZ 60)) SessionD.wideRect
    (GallerySurface SessionD.sampleQuad)
  = (Doubles.ofZ (-2), Doubles.ofZ 5) /\
  Doubles.isZero
    (fst (SessionD.surfaceCoordinates
            (Doubles.mkMouse (Doubles.ofZ 100) (Doubles.ofZ 50))
            SessionD.wideRect (GallerySurface SessionD.sampleQuad))) = true.
Proof.
  assert (Hc : surfaceCanvas (GallerySurface SessionD.sampleQuad)
               = Some (mkCanvas 4 4 (blank 4 4) (Some defaultContext)))
    by reflexivity.
  assert (Hi : surfaceImage (GallerySurface SessionD.sampleQuad)
               = Some (mkImg true (url SessionD.quadGenerated)))
    by reflexivity.
  split; [eexists; eexists; split; [exact Hc|exact Hi]|].
  split.
  - destruct (@getCoordinates_is_rounded_product
                (GallerySurface SessionD.sampleQuad) _ _
                (Doubles.mkMouse (Doubles.ofZ 96) (Doubles.ofZ 60))
                SessionD.wideRect Hc Hi) as (Ex & Ey & _).
    rewrite (surjective_pairing
               (SessionD.surfaceCoordinates
                  (Doubles.mkMouse (Doubles.ofZ 96) (Doubles.ofZ 60))
                  SessionD.wideRect (GallerySurface SessionD.sampleQuad))).
    rewrite Ex, Ey. vm_compute. reflexivity.
  - destruct (@getCoordinates_is_rounded_product
                (GallerySurface SessionD.sampleQuad) _ _
                (Doubles.mkMouse (Doubles.ofZ 100) (Doubles.ofZ 50))
                SessionD.wideRect Hc Hi) as (_ & _ & Px & _ & Zx & _).
    apply Zx.
    + rewrite Px; reflexivity.
    + vm_compute. reflexivity.
Defined.

(** C10.  On either editing surface, when the canvas ref or the image ref
    is null, [getCoordinates] returns exactly (0, 0), for every event and
    every layout rectangle; as a function it has a value on every input.
    In the Gallery a stroke started in that situation is anchored at the
    raster origin: the start position is (0, 0) and a freehand path begins
    with a move to (0, 0). *)
Theorem getCoordinates_origin_when_ref_missing
    (s : Surface) (e : MouseEvent) (rect : DOMRect) :
  surfaceCanvas s = None \/ surfaceImage s = None ->
  surfaceCoordinates e rect s = (0, 0)%Q /\
  (forall (g : Gallery.State) (cv : Canvas) (k : Context2D),
     s = GallerySurface g ->
     Gallery.isPainting g = true -> Gallery.activeTool g = Gallery.brush ->
     Gallery.canvasRef g = Some cv -> context cv = Some k ->
     1 <= width cv -> 1 <= height cv ->
     let g' := fst (Gallery.startDrawing e rect g) in
     Gallery.startPosRef g' = (0, 0)%Q /\
     exists (cv' : Canvas) (k' : Context2D),
       Gallery.canvasRef g' = Some cv' /\ context cv' = Some k' /\
       path k' = [MoveTo 0 0]).
Proof.
  intros Hmiss. split.
  - destruct s as [g|m]; cbn in *;
      [unfold Gallery.getCoordinates | unfold MaskEditor.getCoordinates].
    + destruct Hmiss as [-> | ->]; [reflexivity|].
      destruct (Gallery.canvasRef g); reflexivity.
    + destruct Hmiss as [-> | ->]; [reflexivity|].
      destruct (MaskEditor.canvasRef m); reflexivity.
  - intros g cv k -> Hp Ht Hc Hk Hw Hh. cbn in Hmiss.
    destruct Hmiss as [Hm|Hm]; [congruence|].
    unfold Gallery.startDrawing. rewrite Hp. cbn [negb].
    unfold Gallery.getCoordinates. gallery_simpl.
    rewrite Hc, Hm. unfold getContext. rewrite Hk.
    unfold getImageData.
    destruct (width cv) as [|w'] eqn:Ew; [lia|].
    destruct (height cv) as [|h'] eqn:Eh; [lia|].
    cbn [Nat.eqb orb]. gallery_simpl.
    rewrite Ht. split; [reflexivity|].
    canvas_unfold. rewrite Hk. canvas_unfold.
    destruct (Qle_bool _ _);
      (eexists; eexists; split; [reflexivity|split; reflexivity]).
Qed.

Lemma getCoordinates_origin_when_ref_missing_witness :
  (surfaceCanvas (GallerySurface (Gallery.setImage None samplePainting)) = None \/
   surfaceImage (GallerySurface (Gallery.setImage None samplePainting)) = None) /\
  surfaceCoordinates (mkMouse 104 56) sampleRect
    (GallerySurface (Gallery.setImage None samplePainting)) = (0, 0)%Q /\
  Gallery.startPosRef
    (fst (Gallery.startDrawing (mkMouse 104 56) sampleRect
            (Gallery.setImage None samplePainting))) = (0, 0)%Q.
Proof.
  assert (H : surfaceCanvas (GallerySurface (Gallery.setImage None samplePainting))
                = None \/
              surfaceImage (GallerySurface (Gallery.setImage None samplePainting))
                = None) by (right; reflexivity).
  split; [exact H|].
  destruct (getCoordinates_origin_when_ref_missing
              (GallerySurface (Gallery.setImage None samplePainting))
              (mkMouse 104 56) sampleRect H) as (E & D).
  split; [exact E|].
  destruct (D (Gallery.setImage None samplePainting)
              (mkCanvas 5 4 (blank 5 4) (Some defaultContext)) defaultContext
              eq_refl eq_refl eq_refl eq_refl eq_refl
              ltac:(cbn; lia) ltac:(cbn; lia)) as (P & _).
  exact P.
Defined.

(** ** Brush width *)

Lemma lineWidth_accepted (b d : Q) (n : nat) :
  (5 <= b)%Q -> 1 <= n -> (0 < d)%Q ->
  Qle_bool (b * (ofNat n / d)) 0 = false.
Proof.
  intros Hb Hn Hd.
  destruct (Qle_bool (b * (ofNat n / d)) 0) eqn:E; [|reflexivity].
  exfalso. apply Qle_bool_iff in E.
  assert (P : (0 < b * (ofNat n / d))%Q).
  { apply Qmult_lt_0_compat.
    - apply Qlt_le_trans with 5%Q; [reflexivity|exact Hb].
    - now apply scale_pos. }
  now apply Qlt_not_le in P.
Qed.

(** C5.  With a brush size between 5 and 100, a pointer-down in the
    Gallery editor sets the line width of the stroke to
    brushSize * (W / 1000), W being the native width of the overlay raster,
    for the freehand tool as for the rectangle tool; with brush size 20 and
    W = 2000 that is 40.  The MaskEditor scales the same way with its own
    reference width: brushSize * (W / 800). *)
Theorem startDrawing_lineWidth_scaled :
  (forall (g : Gallery.State) (cv : Canvas) (k : Context2D)
          (e : MouseEvent) (rect : DOMRect),
     Gallery.isPainting g = true ->
     Gallery.canvasRef g = Some cv -> context cv = Some k ->
     1 <= width cv -> 1 <= height cv ->
     (5 <= Gallery.brushSize g)%Q -> (Gallery.brushSize g <= 100)%Q ->
     exists (cv' : Canvas) (k' : Context2D),
       Gallery.startDrawing e rect g
         = (Gallery.setCanvas (Some cv')
              (Gallery.setStartPos (Gallery.getCoordinates e rect g)
                 (Gallery.setSnapshot
                    (Some (mkRaster (width cv) (height cv)
                             (tabulate (width cv) (height cv)
                                (pixelAt (bitmap cv)))))
                    (Gallery.setIsDrawing true g))), None) /\
       context cv' = Some k' /\ width cv' = width cv /\
       lineWidth k' = (Gallery.brushSize g * (ofNat (width cv) / 1000))%Q /\
       ((Gallery.brushSize g == 20)%Q -> width cv = 2000 ->
        (lineWidth k' == 40)%Q))
  /\
  (forall (m : MaskEditor.State) (cv : Canvas)
          (k : Context2D) (e : MouseEvent) (rect : DOMRect),
     MaskEditor.canvasRef m = Some cv -> context cv = Some k ->
     1 <= width cv ->
     (5 <= MaskEditor.brushSize m)%Q -> (MaskEditor.brushSize m <= 100)%Q ->
     exists (cv' : Canvas) (k' : Context2D),
       MaskEditor.startDrawing e rect m
         = (MaskEditor.setCanvas (Some cv') (MaskEditor.setIsDrawing true m), None) /\
       context cv' = Some k' /\ width cv' = width cv /\
       lineWidth k' = (MaskEditor.brushSize m * (ofNat (width cv) / 800))%Q).
Proof.
  split.
  - intros g cv k e rect Hp Hc Hk Hw Hh Hb _.
    unfold Gallery.startDrawing. rewrite Hp. cbn [negb].
    destruct (Gallery.getCoordinates e rect (Gallery.setIsDrawing true g))
      as [x y] eqn:Exy.
    assert (Exy' : Gallery.getCoordinates e rect g = (x, y)) by exact Exy.
    gallery_simpl. rewrite Hc. unfold getContext. rewrite Hk.
    unfold getImageData.
    destruct (width cv) as [|w'] eqn:Ew; [lia|].
    destruct (height cv) as [|h'] eqn:Eh; [lia|].
    cbn [Nat.eqb orb]. gallery_simpl.
    canvas_unfold. rewrite Hk. canvas_unfold. rewrite Ew.
    rewrite (lineWidth_accepted (n := S w') (d := 1000) Hb Hw) by reflexivity.
    rewrite Exy'.
    destruct (Gallery.activeTool g);
      (eexists; eexists; split; [reflexivity|];
       split; [reflexivity|]; split; [reflexivity|]; split; [reflexivity|]).
    all: cbn [lineWidth]; intros Eb E2; injection E2 as ->;
      rewrite Eb; vm_compute; reflexivity.
  - intros m cv k e rect Hc Hk Hw Hb _.
    unfold MaskEditor.startDrawing.
    destruct (MaskEditor.getCoordinates e rect (MaskEditor.setIsDrawing true m))
      as [x y].
    mask_simpl. rewrite Hc. unfold getContext. rewrite Hk.
    canvas_unfold. rewrite Hk. canvas_unfold.
    rewrite (lineWidth_accepted (n := width cv) (d := 800) Hb Hw) by reflexivity.
    eexists; eexists; split; [reflexivity|].
    split; [reflexivity|]; split; reflexivity.
Qed.

Lemma startDrawing_lineWidth_scaled_witness :
  (Gallery.isPainting samplePainting = true /\
   Gallery.canvasRef samplePainting
     = Some (mkCanvas 5 4 (blank 5 4) (Some defaultContext)) /\
   MaskEditor.canvasRef sampleMask
     = Some (mkCanvas 5 4 (blank 5 4) (Some defaultContext)) /\
   1 <= 5 /\ 1 <= 4 /\
   (5 <= 20)%Q /\ (20 <= 100)%Q) /\
  (exists (cv' : Canvas) (k' : Context2D),
     Gallery.canvasRef
       (fst (Gallery.startDrawing (mkMouse 104 56) sampleRect samplePainting))
       = Some cv' /\
     context cv' = Some k' /\
     lineWidth k' = (20 * (ofNat 5 / 1000))%Q) /\
  (exists (cv' : Canvas) (k' : Context2D),
     MaskEditor.canvasRef
       (fst (MaskEditor.startDrawing (mkMouse 104 56) sampleRect sampleMask))
       = Some cv' /\
     context cv' = Some k' /\
     lineWidth k' = (20 * (ofNat 5 / 800))%Q).
Proof.
  assert (H : Gallery.isPainting samplePainting = true /\
              Gallery.canvasRef samplePainting
                = Some (mkCanvas 5 4 (blank 5 4) (Some defaultContext)) /\
              MaskEditor.canvasRef sampleMask
                = Some (mkCanvas 5 4 (blank 5 4) (Some defaultContext)) /\
              1 <= 5 /\ 1 <= 4 /\ (5 <= 20)%Q /\ (20 <= 100)%Q).
  { repeat split; try (cbn; lia); vm_compute; discriminate. }
  split; [exact H|].
  destruct H as (Hp & Hc & Hm & Hw & Hh & Hb & Hb').
  split.
  - destruct (proj1 startDrawing_lineWidth_scaled samplePainting
                (mkCanvas 5 4 (blank 5 4) (Some defaultContext)) defaultContext
                (mkMouse 104 56) sampleRect Hp Hc eq_refl Hw Hh Hb Hb')
      as (cv' & k' & E & Hk & _ & Hl & _).
    exists cv', k'. rewrite E. split; [reflexivity|]. split; [exact Hk|exact Hl].
  - destruct (proj2 startDrawing_lineWidth_scaled sampleMask
                (mkCanvas 5 4 (blank 5 4) (Some defaultContext)) defaultContext
                (mkMouse 104 56) sampleRect Hm eq_refl Hw Hb Hb')
      as (cv' & k' & E & Hk & _ & Hl).
    exists cv', k'. rewrite E. split; [reflexivity|]. split; [exact Hk|exact Hl].
Defined.

(** ** The rectangle tool *)

Lemma putImageData_full (snap : Raster) (a b : Canvas) :
  r_width snap = width a -> r_height snap = height a ->
  width a = width b -> height a = height b ->
  bitmap (putImageData snap 0 0 a) = bitmap (putImageData snap 0 0 b).
Proof.
  intros Sw Sh Ew Eh. unfold putImageData. cbn [bitmap].
  rewrite <- Ew, <- Eh. apply tabulate_ext. intros x y Hx Hy.
  rewrite Sw, Sh. now rewrite inRect_origin.
Qed.

Section RectTool.

Variable rasterize : Rasterizer.

Lemma draw_rect_alike (e : MouseEvent) (rect : DOMRect)
    (a b : Gallery.State) (snap : Raster) (cb : Canvas) (kb : Context2D) :
  strokeAlike a b ->
  Gallery.isDrawing b = true -> Gallery.isPainting b = true ->
  Gallery.activeTool b = Gallery.rect ->
  Gallery.snapshotRef b = Some snap ->
  Gallery.canvasRef b = Some cb -> context cb = Some kb ->
  r_width snap = width cb -> r_height snap = height cb ->
  Gallery.draw rasterize e rect a = Gallery.draw rasterize e rect b.
Proof.
  destruct a as [pa ipa ta ba da ca ia sa spa aa].
  destruct b as [pb ipb tb bb db cb' ib sb spb ab].
  unfold strokeAlike. gallery_simpl.
  intros (-> & -> & -> & -> & -> & -> & -> & -> & -> & Hcv) -> -> -> -> -> Kb Sw Sh.
  unfold Gallery.draw, Gallery.getCoordinates. gallery_simpl. cbn [negb orb].
  destruct ca as [ca|]; cbn in Hcv; [|contradiction].
  destruct Hcv as (Ew & Eh & Hk). rewrite Kb in Hk.
  destruct (context ca) as [ka|] eqn:Ka; [|contradiction].
  destruct Hk as (K1 & K2 & K3 & K4).
  unfold getContext. rewrite Ka, Kb, Ew, Eh.
  match goal with |- context [let (x, y) := ?p in _] => destruct p as [x y] end.
  unfold Gallery.setCanvas. gallery_simpl. do 3 f_equal.
  unfold stroke, ctxRect, beginPath, updContext, setPath.
  cbn [context width height bitmap putImageData option_map].
  rewrite Ka, Kb. cbn [option_map strokeStyle lineWidth lineCap lineJoin path].
  pose proof (@putImageData_full snap ca cb) as P.
  unfold putImageData in P. cbn [bitmap] in P.
  rewrite P by congruence.
  rewrite Ew, Eh, K1, K2, K3, K4. reflexivity.
Qed.

End RectTool.

Lemma strokeAlike_refl (g : Gallery.State) : strokeAlike g g.
Proof.
  unfold strokeAlike, canvasAlike. repeat split.
  destruct (Gallery.canvasRef g) as [c|]; [|exact I].
  repeat split. destruct (context c); [repeat split|exact I].
Qed.

Lemma startDrawing_rect (g : Gallery.State) (cv : Canvas) (k : Context2D)
    (e : MouseEvent) (rect : DOMRect) :
  Gallery.isPainting g = true -> Gallery.activeTool g = Gallery.rect ->
  Gallery.canvasRef g = Some cv -> context cv = Some k ->
  1 <= width cv -> 1 <= height cv ->
  exists k1 : Context2D,
    Gallery.startDrawing e rect g =
    (Gallery.setCanvas
       (Some (mkCanvas (width cv) (height cv) (bitmap cv) (Some k1)))
       (Gallery.setStartPos (Gallery.getCoordinates e rect g)
          (Gallery.setSnapshot
             (Some (mkRaster (width cv) (height cv)
                      (tabulate (width cv) (height cv) (pixelAt (bitmap cv)))))
             (Gallery.setIsDrawing true g))), None).
Proof.
  intros Hp Ht Hc Hk Hw Hh.
  unfold Gallery.startDrawing. rewrite Hp. cbn [negb].
  destruct (Gallery.getCoordinates e rect (Gallery.setIsDrawing true g))
    as [x y] eqn:Exy.
  assert (Exy' : Gallery.getCoordinates e rect g = (x, y)) by exact Exy.
  gallery_simpl. rewrite Hc. unfold getContext. rewrite Hk.
  unfold getImageData.
  destruct (width cv) as [|w'] eqn:Ew; [lia|].
  destruct (height cv) as [|h'] eqn:Eh; [lia|].
  cbn [Nat.eqb orb]. gallery_simpl. rewrite Ht.
  canvas_unfold. rewrite Hk. canvas_unfold. rewrite Ew, Eh, Exy'.
  eexists. reflexivity.
Qed.

Section RectStroke.

Variable rasterize : Rasterizer.

Variables (b : Gallery.State) (snap : Raster) (cb : Canvas) (kb : Context2D).
Hypothesis Hd : Gallery.isDrawing b = true.
Hypothesis Hp : Gallery.isPainting b = true.
Hypothesis Ht : Gallery.activeTool b = Gallery.rect.
Hypothesis Hs : Gallery.snapshotRef b = Some snap.
Hypothesis Hc : Gallery.canvasRef b = Some cb.
Hypothesis Hk : context cb = Some kb.
Hypothesis Sw : r_width snap = width cb.
Hypothesis Sh : r_height snap = height cb.

Lemma draw_rect_result (e : MouseEvent) (rect : DOMRect) :
  Gallery.draw rasterize e rect b =
  (Gallery.setCanvas
     (Some (restoreOnceAndDraw rasterize snap (Gallery.startPosRef b)
              (Gallery.getCoordinates e rect b) cb)) b, None).
Proof.
  unfold Gallery.draw. rewrite Hd, Hp. cbn [negb orb].
  destruct (Gallery.getCoordinates e rect b) as [x y].
  rewrite Hc. unfold getContext. rewrite Hk, Ht, Hs. reflexivity.
Qed.

Lemma draw_rect_keeps_alike (e : MouseEvent) (rect : DOMRect) :
  strokeAlike (fst (Gallery.draw rasterize e rect b)) b.
Proof.
  rewrite draw_rect_result. cbn [fst].
  unfold strokeAlike. gallery_simpl. repeat split.
  rewrite Hc. unfold canvasAlike, restoreOnceAndDraw, stroke.
  canvas_unfold. unfold putImageData. cbn [context width height].
  rewrite Hk. cbn [option_map context width height].
  repeat split.
Qed.

Lemma playMoves_alike (ms : list (MouseEvent * DOMRect)) (a : Gallery.State) :
  strokeAlike a b -> strokeAlike (playMoves rasterize ms a) b.
Proof.
  revert a. induction ms as [|m ms IH]; intros a Ha; [exact Ha|].
  cbn [playMoves fold_left]. apply IH.
  rewrite (draw_rect_alike rasterize (fst m) (snd m) Ha Hd Hp Ht Hs Hc Hk Sw Sh).
  apply draw_rect_keeps_alike.
Qed.

Lemma playMoves_last (ms : list (MouseEvent * DOMRect))
    (m : MouseEvent * DOMRect) :
  playMoves rasterize (ms ++ [m]) b = playMoves rasterize [m] b.
Proof.
  unfold playMoves. rewrite fold_left_app. cbn [fold_left]. f_equal.
  apply (draw_rect_alike rasterize (fst m) (snd m)
           (playMoves_alike ms (strokeAlike_refl b)) Hd Hp Ht Hs Hc Hk Sw Sh).
Qed.

End RectStroke.

(** Outside a stroke, pointer moves change nothing. *)
Lemma playMoves_idle (rasterize : Rasterizer)
    (ms : list (MouseEvent * DOMRect)) (g : Gallery.State) :
  Gallery.isDrawing g = false -> playMoves rasterize ms g = g.
Proof.
  intros Hd. induction ms as [|m ms IH]; [reflexivity|].
  unfold playMoves in *. cbn [fold_left].
  unfold Gallery.draw at 2. rewrite Hd. cbn [negb orb fst]. exact IH.
Qed.

(** C4.  Rectangle tool.  Take any overlay raster, a pointer-down at any
    anchor and then any N >= 1 pointer moves (all but the last listed in
    [ms], the last one [m]).  The state after the N-th move is the state
    that a single move to the final point produces right after the
    pointer-down; its overlay is the reference [restoreOnceAndDraw]: the
    snapshot taken at pointer-down (a pixel copy of the overlay as it was)
    restored once, with one stroked path that holds one rectangle, from the
    anchor to the final point.  Pointer-up commits it: it clears the
    drawing flag and touches nothing else, so the overlay keeps that
    rectangle, and pointer moves that follow leave the state as it is. *)
Theorem rect_preview_is_single_final_rectangle
    (rasterize : Rasterizer) (g : Gallery.State) (cv : Canvas) (k : Context2D)
    (down : MouseEvent * DOMRect)
    (ms : list (MouseEvent * DOMRect)) (m : MouseEvent * DOMRect) :
  Gallery.isPainting g = true -> Gallery.activeTool g = Gallery.rect ->
  Gallery.canvasRef g = Some cv -> context cv = Some k ->
  1 <= width cv -> 1 <= height cv ->
  let g1 := fst (Gallery.startDrawing (fst down) (snd down) g) in
  let gN := playMoves rasterize (ms ++ [m]) g1 in
  let anchor := Gallery.getCoordinates (fst down) (snd down) g in
  let final := Gallery.getCoordinates (fst m) (snd m) g1 in
  exists (snapshot : Raster) (cv1 cvN : Canvas) (kN : Context2D),
    Gallery.snapshotRef g1 = Some snapshot /\
    snapshot = mkRaster (width cv) (height cv)
                 (tabulate (width cv) (height cv) (pixelAt (bitmap cv))) /\
    Gallery.canvasRef g1 = Some cv1 /\ bitmap cv1 = bitmap cv /\
    Gallery.startPosRef g1 = anchor /\
    gN = playMoves rasterize [m] g1 /\
    Gallery.canvasRef gN = Some cvN /\
    cvN = restoreOnceAndDraw rasterize snapshot anchor final cv1 /\
    context cvN = Some kN /\
    path kN = [RectTo (fst anchor) (snd anchor)
                      (fst final - fst anchor)%Q (snd final - snd anchor)%Q] /\
    bitmap cvN = rasterize kN (width cv) (height cv) (r_data snapshot) /\
    Gallery.isDrawing gN = true /\
    (let gUp := fst (Gallery.stopDrawing gN) in
     gUp = Gallery.setIsDrawing false gN /\
     Gallery.isDrawing gUp = false /\
     Gallery.canvasRef gUp = Some cvN /\
     Gallery.snapshotRef gUp = Some snapshot /\
     forall later : list (MouseEvent * DOMRect),
       playMoves rasterize later gUp = gUp).
Proof.
  intros Hp Ht Hc Hk Hw Hh g1 gN anchor final.
  destruct (startDrawing_rect g (fst down) (snd down) Hp Ht Hc Hk Hw Hh)
    as (k1 & E1).
  set (snapshot := mkRaster (width cv) (height cv)
                     (tabulate (width cv) (height cv) (pixelAt (bitmap cv)))) in *.
  set (cv1 := mkCanvas (width cv) (height cv) (bitmap cv) (Some k1)) in *.
  assert (G1 : g1 = Gallery.setCanvas (Some cv1)
                      (Gallery.setStartPos anchor
                         (Gallery.setSnapshot (Some snapshot)
                            (Gallery.setIsDrawing true g))))
    by (unfold g1; rewrite E1; reflexivity).
  assert (Hd1 : Gallery.isDrawing g1 = true) by (rewrite G1; reflexivity).
  assert (Hp1 : Gallery.isPainting g1 = true) by (rewrite G1; exact Hp).
  assert (Ht1 : Gallery.activeTool g1 = Gallery.rect) by (rewrite G1; exact Ht).
  assert (Hs1 : Gallery.snapshotRef g1 = Some snapshot) by (rewrite G1; reflexivity).
  assert (Hc1 : Gallery.canvasRef g1 = Some cv1) by (rewrite G1; reflexivity).
  assert (Hq1 : Gallery.startPosRef g1 = anchor) by (rewrite G1; reflexivity).
  assert (L : gN = playMoves rasterize [m] g1).
  { apply (@playMoves_last rasterize g1 snapshot cv1 k1 Hd1 Hp1 Ht1 Hs1 Hc1
             eq_refl eq_refl eq_refl). }
  assert (R : Gallery.canvasRef gN
              = Some (restoreOnceAndDraw rasterize snapshot anchor final cv1)).
  { rewrite L. unfold playMoves. cbn [fold_left].
    rewrite (@draw_rect_result rasterize g1 snapshot cv1 k1 Hd1 Hp1 Ht1 Hs1 Hc1
               eq_refl).
    cbn [fst]. gallery_simpl. rewrite Hq1. reflexivity. }
  exists snapshot, cv1. eexists. eexists.
  split; [exact Hs1|]. split; [reflexivity|]. split; [exact Hc1|].
  split; [reflexivity|]. split; [exact Hq1|]. split; [exact L|].
  split; [exact R|]. split; [reflexivity|].
  assert (B : bitmap (putImageData snapshot 0 0 cv1) = r_data snapshot).
  { unfold putImageData, snapshot, cv1. cbn [bitmap width height r_width r_height r_data].
    apply tabulate_ext. intros x y Hx Hy.
    rewrite inRect_origin by assumption.
    rewrite !Nat.sub_0_r. now rewrite pixelAt_tabulate. }
  assert (GN : gN = Gallery.setCanvas
                      (Some (restoreOnceAndDraw rasterize snapshot anchor
                               final cv1)) g1).
  { rewrite L. unfold playMoves. cbn [fold_left].
    rewrite (@draw_rect_result rasterize g1 snapshot cv1 k1 Hd1 Hp1 Ht1 Hs1 Hc1
               eq_refl).
    cbn [fst]. rewrite Hq1. reflexivity. }
  split; [|split; [|split; [|split]]].
  - unfold restoreOnceAndDraw, stroke. canvas_unfold.
    unfold putImageData at 1. cbn [context cv1 option_map]. reflexivity.
  - reflexivity.
  - unfold restoreOnceAndDraw, stroke. canvas_unfold.
    unfold putImageData at 1. cbn [context cv1 option_map bitmap width height].
    unfold putImageData at 1 2. cbn [width height cv1].
    rewrite B. reflexivity.
  - rewrite GN. gallery_simpl. exact Hd1.
  - cbv zeta. unfold Gallery.stopDrawing. cbn [fst].
    split; [reflexivity|]. split; [reflexivity|].
    split; [gallery_simpl; exact R|].
    split; [gallery_simpl; rewrite GN; gallery_simpl; exact Hs1|].
    intros later. apply playMoves_idle. reflexivity.
Qed.

Lemma rect_preview_is_single_final_rectangle_witness :
  (Gallery.isPainting sampleRectTool = true /\
   Gallery.activeTool sampleRectTool = Gallery.rect /\
   Gallery.canvasRef sampleRectTool
     = Some (mkCanvas 5 4 (blank 5 4) (Some defaultContext)) /\
   1 <= 5 /\ 1 <= 4) /\
  let g1 := fst (Gallery.startDrawing (mkMouse 102 52) sampleRect sampleRectTool) in
  let gN := playMoves dotRasterizer
              ([(mkMouse 104 54, sampleRect); (mkMouse 109 57, sampleRect)]
                 ++ [(mkMouse 106 56, sampleRect)]) g1 in
  gN = playMoves dotRasterizer [(mkMouse 106 56, sampleRect)] g1 /\
  Gallery.isDrawing (fst (Gallery.stopDrawing gN)) = false /\
  playMoves dotRasterizer [(mkMouse 101 51, sampleRect)]
    (fst (Gallery.stopDrawing gN))
  = fst (Gallery.stopDrawing gN).
Proof.
  assert (H : Gallery.isPainting sampleRectTool = true /\
              Gallery.activeTool sampleRectTool = Gallery.rect /\
              Gallery.canvasRef sampleRectTool
                = Some (mkCanvas 5 4 (blank 5 4) (Some defaultContext)) /\
              1 <= 5 /\ 1 <= 4).
  { repeat split; cbn; lia. }
  split; [exact H|].
  destruct H as (Hp & Ht & Hc & Hw & Hh).
  destruct (@rect_preview_is_single_final_rectangle dotRasterizer
              sampleRectTool (mkCanvas 5 4 (blank 5 4) (Some defaultContext))
              defaultContext (mkMouse 102 52, sampleRect)
              [(mkMouse 104 54, sampleRect); (mkMouse 109 57, sampleRect)]
              (mkMouse 106 56, sampleRect)
              Hp Ht Hc eq_refl Hw Hh)
    as (snapshot & cv1 & cvN & kN & _ & _ & _ & _ & _ & L & _ & _ & _ & _ & _
        & _ & (_ & Up & _ & _ & Later)).
  cbv zeta. split; [exact L|]. split; [exact Up|]. apply Later.
Defined.

(** ** Compositing *)

Lemma pixelAt_blank (w h x y : nat) : pixelAt (blank w h) x y = transparent.
Proof.
  unfold blank, pixelAt, tabulate.
  rewrite nth_error_map, nth_error_seq.
  destruct (y <? h); cbn [option_map]; [|reflexivity].
  rewrite nth_error_map, nth_error_seq.
  destruct (x <? w); reflexivity.
Qed.

(** The scratch canvas of an export after both [drawImage] calls. *)
Lemma composite_pixel (base overlay : Raster) (ctx : option Context2D)
    (x y : nat) :
  r_width overlay = r_width base -> r_height overlay = r_height base ->
  x < r_width base -> y < r_height base ->
  pixelAt
    (bitmap
       (drawImage overlay 0 0
          (drawImage base 0 0
             (mkCanvas (r_width base) (r_height base)
                       (blank (r_width base) (r_height base)) ctx)))) x y
  = over (pixelAt (r_data overlay) x y) (pixelAt (r_data base) x y).
Proof.
  intros Ew Eh Hx Hy. unfold drawImage, drawImage9. cbn [bitmap width height].
  rewrite pixelAt_tabulate by assumption.
  rewrite Ew, Eh, inRect_origin by assumption.
  rewrite pixelAt_tabulate by assumption.
  rewrite inRect_origin by assumption.
  rewrite !Nat.sub_0_r, !sampleOffset_same by assumption.
  cbn [Nat.add]. rewrite pixelAt_blank, over_transparent_r. reflexivity.
Qed.

(** C7.  Export from the Gallery editor with a decoded base image and an
    overlay of the same native resolution: the saved raster has the size of
    the base and each of its pixels is the overlay pixel composited
    source-over onto the base pixel at the same place, the overlay drawn at
    the origin; [over] is the blend on premultiplied 8-bit channels, each
    rounded to the nearest integer.  With a fully transparent overlay the
    output is pixel for pixel the base; with a fully opaque overlay it is
    pixel for pixel the overlay. *)
Theorem handleSaveComposite_alpha_over
    (g : Gallery.State) (preview : GeneratedImage) (cv : Canvas)
    (el : ImgElement) (uuid : string) (now : Z) :
  Gallery.previewImage g = Some preview ->
  Gallery.canvasRef g = Some cv -> Gallery.imageRef g = Some el ->
  decoded el = true ->
  width cv = r_width (content el) -> height cv = r_height (content el) ->
  1 <= width cv -> 1 <= height cv ->
  let base := content el in
  exists out : Raster,
    Gallery.handleSaveComposite true true uuid now g =
      (Gallery.closePreview
         (Gallery.addImage
            (mkGeneratedImage uuid out None
               ("[MASKED] " ++ prompt preview)%string (aspectRatio preview) now)
            g), None) /\
    r_width out = r_width base /\ r_height out = r_height base /\
    (forall x y, x < r_width base -> y < r_height base ->
       pixelAt (r_data out) x y
       = over (pixelAt (bitmap cv) x y) (pixelAt (r_data base) x y)) /\
    ((forall x y, x < r_width base -> y < r_height base ->
        pixelAt (bitmap cv) x y = transparent) ->
     forall x y, x < r_width base -> y < r_height base ->
       pixelAt (r_data out) x y = pixelAt (r_data base) x y) /\
    ((forall x y, x < r_width base -> y < r_height base ->
        opaque (pixelAt (bitmap cv) x y)) ->
     forall x y, x < r_width base -> y < r_height base ->
       pixelAt (r_data out) x y = pixelAt (bitmap cv) x y).
Proof.
  intros Hp Hc Hi Hd Ew Eh Hw Hh base.
  unfold Gallery.handleSaveComposite. rewrite Hp, Hc, Hi. cbn [negb].
  unfold naturalWidth, naturalHeight, drawImageElement, drawImageCanvas.
  rewrite Hd. canvas_simpl.
  destruct (width cv) as [|w'] eqn:Ewc; [lia|].
  destruct (height cv) as [|h'] eqn:Ehc; [lia|].
  cbn [Nat.eqb orb].
  eexists. split; [reflexivity|].
  cbn [toDataURL r_width r_height r_data].
  assert (P : forall x y, x < r_width base -> y < r_height base ->
            pixelAt
              (bitmap
                 (drawImage (canvasSource cv) 0 0
                    (drawImage base 0 0
                       (mkCanvas (r_width base) (r_height base)
                          (blank (r_width base) (r_height base))
                          (Some defaultContext))))) x y
            = over (pixelAt (bitmap cv) x y) (pixelAt (r_data base) x y)).
  { intros x y Hx Hy.
    apply (@composite_pixel base (canvasSource cv) (Some defaultContext) x y);
      cbn [canvasSource toDataURL r_width r_height];
      try assumption; subst base; congruence. }
  split; [reflexivity|]. split; [reflexivity|].
  split; [exact P|]. split.
  - intros T x y Hx Hy. rewrite P, T by assumption. apply over_transparent_l.
  - intros O x y Hx Hy. rewrite P by assumption. apply over_opaque. now apply O.
Qed.

Lemma handleSaveComposite_alpha_over_witness :
  (Gallery.previewImage samplePainted = Some sampleGenerated /\
   (exists cv, Gallery.canvasRef samplePainted = Some cv /\
      width cv = 5 /\ height cv = 4 /\
      pixelAt (bitmap cv) 3 2 = highlight /\
      pixelAt (bitmap cv) 0 0 = transparent) /\
   Gallery.imageRef samplePainted = Some (mkImg true sampleImage) /\
   pixelAt (r_data sampleImage) 3 2 = mkPixel 3 2 7 255) /\
  exists out : Raster,
    Gallery.added
      (fst (Gallery.handleSaveComposite true true "id-2" 2000 samplePainted))
    = [mkGeneratedImage "id-2" out None "[MASKED] a lighthouse" "16:9" 2000] /\
    pixelAt (r_data out) 3 2 = mkPixel 1 204 1 255 /\
    pixelAt (r_data out) 0 0 = pixelAt (r_data sampleImage) 0 0.
Proof.
  destruct (Gallery.canvasRef samplePainted) as [cv|] eqn:Hc;
    [|vm_compute in Hc; discriminate Hc].
  assert (Hp : Gallery.previewImage samplePainted = Some sampleGenerated)
    by reflexivity.
  assert (Hi : Gallery.imageRef samplePainted = Some (mkImg true sampleImage))
    by reflexivity.
  assert (Dim : width cv = 5 /\ height cv = 4 /\
                pixelAt (bitmap cv) 3 2 = highlight /\
                pixelAt (bitmap cv) 0 0 = transparent).
  { vm_compute in Hc. injection Hc as <-. repeat split. }
  destruct Dim as (Ew & Eh & P32 & P00).
  split.
  { split; [exact Hp|]. split; [|split; [exact Hi|reflexivity]].
    exists cv. repeat split; assumption. }
  destruct (@handleSaveComposite_alpha_over samplePainted sampleGenerated
              cv (mkImg true sampleImage) "id-2" 2000
              Hp Hc Hi eq_refl Ew Eh ltac:(lia) ltac:(lia))
    as (out & E & _ & _ & P & _ & _).
  exists out. rewrite E. split; [reflexivity|]. split.
  - rewrite P by (cbn; lia). rewrite P32. reflexivity.
  - rewrite P by (cbn; lia). rewrite P00. apply over_transparent_l.
Defined.

(** ** Export without its prerequisites *)

(** C6 fails on the code: an export while the scratch canvas yields no 2D
    context, or while the image and canvas refs are still null, raises
    nothing; it returns normally, adds no image and leaves the state as it
    was. *)
Lemma export_without_prerequisites_raises_nothing :
  let noRefs := Gallery.setPreviewImage (Some sampleGenerated) Gallery.initial in
  (Gallery.handleSaveComposite true false "id-2" 2000 samplePainting
     = (samplePainting, None) /\
   ~ exists err : DOMException,
       snd (Gallery.handleSaveComposite true false "id-2" 2000 samplePainting)
       = Some err) /\
  (Gallery.canvasRef noRefs = None /\ Gallery.imageRef noRefs = None /\
   Gallery.handleSaveComposite true true "id-2" 2000 noRefs = (noRefs, None) /\
   ~ exists err : DOMException,
       snd (Gallery.handleSaveComposite true true "id-2" 2000 noRefs) = Some err).
Proof.
  cbv zeta. repeat split; try (intros (err & E); discriminate E).
Qed.

(** C6, as the code has it.  When the preview image, the overlay canvas or
    the image element is missing, when no [onAddImage] callback was passed,
    or when the scratch canvas yields no 2D context, [handleSaveComposite]
    returns without raising anything and leaves the state, and with it the
    list of added images, unchanged; [handleSave] of the MaskEditor does
    the same when a ref is missing or the context cannot be acquired. *)
Theorem export_without_prerequisites_is_silent :
  (forall (onAddImage ctxAvailable : bool) (uuid : string) (now : Z)
          (g : Gallery.State),
     Gallery.previewImage g = None \/ Gallery.canvasRef g = None \/
     Gallery.imageRef g = None \/ onAddImage = false \/ ctxAvailable = false ->
     Gallery.handleSaveComposite onAddImage ctxAvailable uuid now g = (g, None))
  /\
  (forall (ctxAvailable : bool) (m : MaskEditor.State),
     MaskEditor.imageRef m = None \/ MaskEditor.canvasRef m = None \/
     ctxAvailable = false ->
     MaskEditor.handleSave ctxAvailable m = (m, None)).
Proof.
  split.
  - intros onAddImage ctxAvailable uuid now g H.
    unfold Gallery.handleSaveComposite.
    destruct (Gallery.previewImage g) as [p|]; [|reflexivity].
    destruct (Gallery.canvasRef g) as [c|]; [|reflexivity].
    destruct (Gallery.imageRef g) as [i|]; [|reflexivity].
    destruct onAddImage; [|reflexivity]. cbn [negb].
    destruct ctxAvailable; [|reflexivity].
    destruct H as [H|[H|[H|[H|H]]]]; discriminate H.
  - intros ctxAvailable m H.
    unfold MaskEditor.handleSave.
    destruct (MaskEditor.imageRef m) as [i|]; [|reflexivity].
    destruct (MaskEditor.canvasRef m) as [c|]; [|reflexivity].
    destruct ctxAvailable; [|reflexivity].
    destruct H as [H|[H|H]]; discriminate H.
Qed.

Lemma export_without_prerequisites_is_silent_witness :
  (Gallery.previewImage samplePainting = None \/
   Gallery.canvasRef samplePainting = None \/
   Gallery.imageRef samplePainting = None \/ true = false \/ false = false) /\
  Gallery.handleSaveComposite true false "id-2" 2000 samplePainting
    = (samplePainting, None).
Proof.
  assert (H : Gallery.previewImage samplePainting = None \/
              Gallery.canvasRef samplePainting = None \/
              Gallery.imageRef samplePainting = None \/
              true = false \/ false = false)
    by (right; right; right; right; reflexivity).
  split; [exact H|].
  exact (proj1 export_without_prerequisites_is_silent true false
           "id-2"%string 2000%Z samplePainting H).
Defined.

(** ** The resolution of the overlay *)

Lemma sizeCanvas_sized (g : Gallery.State) (p : GeneratedImage) (cv : Canvas) :
  Gallery.previewImage g = Some p ->
  Gallery.imageRef g = Some (mkImg true (url p)) ->
  Gallery.canvasRef g = Some cv ->
  gallerySized (Gallery.sizeCanvas g).
Proof.
  intros Hp Hi Hc. unfold Gallery.sizeCanvas. rewrite Hp, Hi, Hc.
  unfold naturalWidth, naturalHeight. cbn [decoded content].
  destruct (negb (width cv =? r_width (url p))
            || negb (height cv =? r_height (url p))) eqn:E.
  - unfold gallerySized. gallery_simpl. rewrite Hp, Hi. split; [reflexivity|].
    eexists. split; [reflexivity|].
    canvas_simpl. destruct (resetContext (resetContext (context cv)));
      split; reflexivity.
  - apply orb_false_elim in E as (E1 & E2).
    apply negb_false_iff, Nat.eqb_eq in E1, E2.
    unfold gallerySized. rewrite Hp, Hi. split; [reflexivity|].
    exists cv. repeat split; assumption.
Qed.

Lemma sizeCanvas_closed (g : Gallery.State) :
  Gallery.previewImage g = None -> Gallery.sizeCanvas g = g.
Proof. intros H. unfold Gallery.sizeCanvas. now rewrite H. Qed.

Lemma handleImageClick_sized (a : bool) (img : GeneratedImage)
    (g : Gallery.State) :
  gallerySized (Gallery.handleImageClick a img g).
Proof.
  unfold Gallery.handleImageClick, Gallery.render. gallery_simpl.
  destruct (Gallery.canvasRef g) as [cv|] eqn:Hc.
  - apply sizeCanvas_sized with (p := img) (cv := cv);
      gallery_simpl; auto.
  - apply sizeCanvas_sized with (p := img) (cv := createCanvas a);
      gallery_simpl; auto.
Qed.

Lemma closePreview_sized (g : Gallery.State) :
  gallerySized (Gallery.closePreview g).
Proof.
  unfold Gallery.closePreview, Gallery.render. gallery_simpl.
  rewrite sizeCanvas_closed by reflexivity.
  unfold gallerySized. gallery_simpl. split; reflexivity.
Qed.

Lemma togglePainting_sized (g : Gallery.State) :
  gallerySized g -> gallerySized (Gallery.togglePainting g).
Proof.
  unfold Gallery.togglePainting, gallerySized at 1.
  destruct (Gallery.previewImage g) as [p|] eqn:Hp.
  - intros (Hi & cv & Hc & _).
    apply sizeCanvas_sized with (p := p) (cv := cv); gallery_simpl; auto.
  - intros (Hc & Hi). rewrite sizeCanvas_closed by exact Hp.
    unfold gallerySized. gallery_simpl. rewrite Hp. now split.
Qed.

Lemma sameFrame_sized (a b : Gallery.State) :
  sameFrame a b -> gallerySized b -> gallerySized a.
Proof.
  unfold sameFrame, gallerySized. intros (-> & -> & Hc).
  destruct (Gallery.previewImage b) as [p|].
  - intros (Hi & cv & Hcb & Hw & Hh). split; [exact Hi|].
    rewrite Hcb in Hc. destruct (Gallery.canvasRef a) as [ca|]; [|contradiction].
    exists ca. split; [reflexivity|]. destruct Hc as (-> & ->). now split.
  - intros (Hcb & Hi). rewrite Hcb in Hc.
    destruct (Gallery.canvasRef a); [contradiction|]. now split.
Qed.

Lemma sameFrame_refl (g : Gallery.State) : sameFrame g g.
Proof.
  unfold sameFrame. repeat split.
  destruct (Gallery.canvasRef g); [split; reflexivity|exact I].
Qed.

Ltac frame_done :=
  first [ apply sameFrame_refl
        | unfold sameFrame; gallery_simpl;
          split; [reflexivity|split; [reflexivity|]];
          try match goal with
              | H : Gallery.canvasRef _ = _ |- _ => rewrite H
              end;
          canvas_unfold;
          repeat match goal with
                 | |- context [match ?c with Some _ => _ | None => _ end] =>
                     destruct c
                 | |- context [if ?c then _ else _] => destruct c
                 end;
          cbn [width height]; first [exact I | split; reflexivity] ].

Lemma startDrawing_frame (e : MouseEvent) (rect : DOMRect) (g : Gallery.State) :
  sameFrame (fst (Gallery.startDrawing e rect g)) g.
Proof.
  unfold Gallery.startDrawing.
  destruct (negb (Gallery.isPainting g)); [apply sameFrame_refl|].
  destruct (Gallery.getCoordinates e rect (Gallery.setIsDrawing true g)) as [x y].
  gallery_simpl.
  destruct (Gallery.canvasRef g) as [cv|] eqn:Hc; [|frame_done].
  destruct (getContext cv); [|frame_done].
  destruct (getImageData 0 0 (width cv) (height cv) cv); [|frame_done].
  gallery_simpl. destruct (Gallery.activeTool g); frame_done.
Qed.

Lemma draw_frame (rasterize : Rasterizer) (e : MouseEvent) (rect : DOMRect)
    (g : Gallery.State) :
  sameFrame (fst (Gallery.draw rasterize e rect g)) g.
Proof.
  unfold Gallery.draw.
  destruct (negb (Gallery.isDrawing g) || negb (Gallery.isPainting g));
    [apply sameFrame_refl|].
  destruct (Gallery.getCoordinates e rect g) as [x y].
  destruct (Gallery.canvasRef g) as [cv|] eqn:Hc; [|apply sameFrame_refl].
  unfold getContext.
  destruct (context cv) as [k|] eqn:Hk; [|apply sameFrame_refl].
  destruct (Gallery.activeTool g).
  - unfold sameFrame. gallery_simpl. rewrite Hc.
    unfold stroke. canvas_unfold. rewrite Hk. cbn [option_map width height].
    repeat split.
  - destruct (Gallery.snapshotRef g) as [s|]; [|apply sameFrame_refl].
    unfold sameFrame. gallery_simpl. rewrite Hc.
    unfold stroke. canvas_unfold. unfold putImageData.
    cbn [context width height]. rewrite Hk. cbn [option_map width height].
    repeat split.
Qed.

Lemma handleSaveComposite_sized (p a : bool) (u : string) (n : Z)
    (g : Gallery.State) :
  gallerySized g -> gallerySized (fst (Gallery.handleSaveComposite p a u n g)).
Proof.
  intros H. unfold Gallery.handleSaveComposite.
  destruct (Gallery.previewImage g); [|exact H].
  destruct (Gallery.canvasRef g); [|exact H].
  destruct (Gallery.imageRef g); [|exact H].
  destruct (negb p); [exact H|].
  match goal with |- context [getContext ?c] => destruct (getContext c) end;
    [|exact H].
  match goal with |- context [drawImageCanvas ?c ?x ?y ?t] =>
    destruct (drawImageCanvas c x y t) end; [|exact H].
  cbn [fst]. apply closePreview_sized.
Qed.

Lemma galleryStep_sized (rasterize : Rasterizer) (g : Gallery.State)
    (ev : GalleryEvent) :
  gallerySized g -> gallerySized (galleryStep rasterize g ev).
Proof.
  intros H. destruct ev; cbn [galleryStep].
  - apply handleImageClick_sized.
  - apply closePreview_sized.
  - now apply togglePainting_sized.
  - exact H.
  - exact H.
  - eapply sameFrame_sized; [apply startDrawing_frame|exact H].
  - eapply sameFrame_sized; [apply draw_frame|exact H].
  - exact H.
  - exact H.
  - now apply handleSaveComposite_sized.
Qed.

Lemma galleryRun_sized (rasterize : Rasterizer) (evs : list GalleryEvent) :
  gallerySized (galleryRun rasterize evs).
Proof.
  unfold galleryRun.
  assert (G : forall g, gallerySized g ->
                gallerySized (fold_left (galleryStep rasterize) evs g)).
  { induction evs as [|ev evs IH]; intros g Hg; [exact Hg|].
    cbn [fold_left]. apply IH. now apply galleryStep_sized. }
  apply G. unfold gallerySized. cbn. split; reflexivity.
Qed.

Lemma maskStep_sized (rasterize : Rasterizer) (imageUrl : Raster)
    (m : MaskEditor.State) (ev : MaskEvent) :
  maskSized imageUrl m -> maskSized imageUrl (maskStep rasterize m ev).
Proof.
  unfold maskSized. intros (Hi & cv & Hc & Hs).
  destruct ev; cbn [maskStep].
  - unfold MaskEditor.onLoad, MaskEditor.sizeCanvas. rewrite Hi, Hc.
    cbn [option_map content]. mask_simpl.
    destruct (MaskEditor.imgLoaded m) eqn:L; mask_simpl.
    + split; [reflexivity|]. exists cv. split; [reflexivity|]. intros _. now apply Hs.
    + split; [reflexivity|]. eexists. split; [reflexivity|]. intros _.
      unfold naturalWidth, naturalHeight. cbn [decoded content].
      canvas_simpl. split; reflexivity.
  - mask_simpl. split; [exact Hi|]. exists cv. now split.
  - unfold MaskEditor.startDrawing.
    destruct (MaskEditor.getCoordinates e rect (MaskEditor.setIsDrawing true m))
      as [x y].
    mask_simpl. rewrite Hc. unfold getContext.
    destruct (context cv) as [k|] eqn:Hk; cbn [fst]; mask_simpl.
    + split; [exact Hi|]. eexists. split; [reflexivity|].
      canvas_unfold. exact Hs.
    + split; [exact Hi|]. exists cv. now split.
  - unfold MaskEditor.draw.
    destruct (negb (MaskEditor.isDrawing m));
      [cbn [fst]; split; [exact Hi|]; exists cv; now split|].
    destruct (MaskEditor.getCoordinates e rect m) as [x y].
    rewrite Hc. unfold getContext.
    destruct (context cv) as [k|] eqn:Hk; cbn [fst]; mask_simpl.
    + split; [exact Hi|]. eexists. split; [reflexivity|].
      unfold stroke. canvas_unfold. rewrite Hk. cbn [width height].
      exact Hs.
    + split; [exact Hi|]. exists cv. now split.
  - cbn [fst MaskEditor.stopDrawing]. mask_simpl.
    split; [exact Hi|]. exists cv. now split.
  - cbn [fst MaskEditor.stopDrawing]. mask_simpl.
    split; [exact Hi|]. exists cv. now split.
  - unfold MaskEditor.handleSave. rewrite Hi, Hc.
    match goal with |- context [getContext ?c] => destruct (getContext c) end;
      [|cbn [fst]; rewrite Hi, Hc; split; [reflexivity|]; exists cv; now split].
    match goal with |- context [drawImageCanvas ?c ?x ?y ?t] =>
      destruct (drawImageCanvas c x y t) end;
      cbn [fst]; mask_simpl; rewrite ?Hi, ?Hc;
      (split; [reflexivity|]; exists cv; now split).
Qed.

Lemma maskRun_sized (rasterize : Rasterizer) (a : bool) (imageUrl : Raster)
    (evs : list MaskEvent) :
  maskSized imageUrl (maskRun rasterize a imageUrl evs).
Proof.
  unfold maskRun.
  assert (G : forall m, maskSized imageUrl m ->
                maskSized imageUrl (fold_left (maskStep rasterize) evs m)).
  { induction evs as [|ev evs IH]; intros m Hm; [exact Hm|].
    cbn [fold_left]. apply IH. now apply maskStep_sized. }
  apply G. unfold maskSized, MaskEditor.mount. cbn.
  split; [reflexivity|]. eexists. split; [reflexivity|]. discriminate.
Qed.

Lemma maskStep_placeholder (rasterize : Rasterizer) (m : MaskEditor.State)
    (ev : MaskEvent) :
  (MaskEditor.imgLoaded m = false ->
   exists cv, MaskEditor.canvasRef m = Some cv /\
     width cv = 300 /\ height cv = 150) ->
  MaskEditor.imgLoaded (maskStep rasterize m ev) = false ->
  exists cv, MaskEditor.canvasRef (maskStep rasterize m ev) = Some cv /\
    width cv = 300 /\ height cv = 150.
Proof.
  intros Hm. destruct ev; cbn [maskStep].
  - unfold MaskEditor.onLoad, MaskEditor.sizeCanvas.
    destruct (MaskEditor.imgLoaded m); mask_simpl; [discriminate|].
    destruct (option_map _ (MaskEditor.imageRef m));
      [destruct (MaskEditor.canvasRef m)|]; mask_simpl; discriminate.
  - mask_simpl. exact Hm.
  - unfold MaskEditor.startDrawing.
    destruct (MaskEditor.getCoordinates e rect (MaskEditor.setIsDrawing true m))
      as [x y].
    mask_simpl.
    destruct (MaskEditor.canvasRef m) as [cv|] eqn:Hc;
      [|cbn [fst]; mask_simpl; intros Hl; destruct (Hm Hl) as (? & ? & _);
        discriminate].
    unfold getContext.
    destruct (context cv) as [k|] eqn:Hk; cbn [fst]; mask_simpl; intros Hl;
      destruct (Hm Hl) as (cv0 & E0 & Ew & Eh); injection E0 as <-.
    + eexists. split; [reflexivity|]. canvas_unfold. now split.
    + exists cv. now split.
  - unfold MaskEditor.draw.
    destruct (negb (MaskEditor.isDrawing m)); [cbn [fst]; exact Hm|].
    destruct (MaskEditor.getCoordinates e rect m) as [x y].
    destruct (MaskEditor.canvasRef m) as [cv|] eqn:Hc;
      [|cbn [fst]; intros Hl; destruct (Hm Hl) as (? & ? & _); discriminate].
    unfold getContext.
    destruct (context cv) as [k|] eqn:Hk; cbn [fst]; mask_simpl; intros Hl;
      destruct (Hm Hl) as (cv0 & E0 & Ew & Eh); injection E0 as <-.
    + eexists. split; [reflexivity|].
      unfold stroke. canvas_unfold. rewrite Hk. cbn [width height].
      now split.
    + exists cv. now split.
  - cbn [fst MaskEditor.stopDrawing]. mask_simpl. exact Hm.
  - cbn [fst MaskEditor.stopDrawing]. mask_simpl. exact Hm.
  - unfold MaskEditor.handleSave.
    destruct (MaskEditor.imageRef m) as [img|]; [|cbn [fst]; exact Hm].
    destruct (MaskEditor.canvasRef m) as [cv|] eqn:Hc; [|cbn [fst]; rewrite Hc; exact Hm].
    match goal with |- context [getContext ?c] => destruct (getContext c) end;
      [|cbn [fst]; rewrite Hc; exact Hm].
    match goal with |- context [drawImageCanvas ?c ?x ?y ?t] =>
      destruct (drawImageCanvas c x y t) end;
      cbn [fst]; mask_simpl; rewrite ?Hc; exact Hm.
Qed.

Lemma maskRun_placeholder (rasterize : Rasterizer) (a : bool)
    (imageUrl : Raster) (evs : list MaskEvent) :
  MaskEditor.imgLoaded (maskRun rasterize a imageUrl evs) = false ->
  exists cv, MaskEditor.canvasRef (maskRun rasterize a imageUrl evs) = Some cv /\
    width cv = 300 /\ height cv = 150.
Proof.
  unfold maskRun.
  assert (G : forall m,
            (MaskEditor.imgLoaded m = false ->
             exists cv, MaskEditor.canvasRef m = Some cv /\
               width cv = 300 /\ height cv = 150) ->
            MaskEditor.imgLoaded (fold_left (maskStep rasterize) evs m) = false ->
            exists cv,
              MaskEditor.canvasRef (fold_left (maskStep rasterize) evs m)
              = Some cv /\ width cv = 300 /\ height cv = 150).
  { induction evs as [|ev evs IH]; intros m Hm; [exact Hm|].
    cbn [fold_left]. apply IH. now apply maskStep_placeholder. }
  apply G. intros _. eexists. split; [reflexivity|]. split; reflexivity.
Qed.

(** C8 fails on the code: the overlay of the MaskEditor is mounted with
    the editor and takes strokes before the image has loaded.  In such a
    state the overlay is the 300 by 150 placeholder and carries paint, while
    the natural size of the image element is still 0 by 0; the image that is
    loading is 5 by 4. *)
Lemma mask_overlay_before_load_is_placeholder :
  let m := maskRun dotRasterizer true sampleImage
             [MaskDown (mkMouse 101 51) sampleRect;
              MaskMove (mkMouse 103 53) sampleRect] in
  exists (cv : Canvas) (el : ImgElement),
    MaskEditor.canvasRef m = Some cv /\ MaskEditor.imageRef m = Some el /\
    content el = sampleImage /\
    width cv = 300 /\ height cv = 150 /\
    naturalWidth el = 0 /\ naturalHeight el = 0 /\
    r_width sampleImage = 5 /\ r_height sampleImage = 4 /\
    pixelAt (bitmap cv) 30 18 = highlight /\
    (width cv <> naturalWidth el \/ height cv <> naturalHeight el).
Proof.
  cbv zeta. eexists. eexists.
  split; [vm_compute; reflexivity|]. split; [reflexivity|].
  split; [reflexivity|]. split; [reflexivity|]. split; [reflexivity|].
  split; [reflexivity|]. split; [reflexivity|]. split; [reflexivity|].
  split; [reflexivity|]. split; [vm_compute; reflexivity|].
  left. cbn. discriminate.
Qed.

(** C8.  In every state that a Gallery reaches from its initial state by
    any sequence of events (opening and closing images, toggling edit mode,
    changing tool or brush, pointer events under any layout rectangle,
    saving), an overlay canvas that exists has the natural width and height
    of the image shown.  In every state that a MaskEditor reaches after
    mounting, the overlay canvas and the image element exist; once the
    image has loaded the overlay has the natural width and height of the
    image, and until then the overlay is the 300 by 150 placeholder over an
    image element of natural size 0 by 0.  No event carries a display size
    into the overlay. *)
Theorem overlay_resolution_is_native_once_loaded (rasterize : Rasterizer) :
  (forall (evs : list GalleryEvent) (cv : Canvas),
     let g := galleryRun rasterize evs in
     Gallery.canvasRef g = Some cv ->
     exists (p : GeneratedImage) (el : ImgElement),
       Gallery.previewImage g = Some p /\ Gallery.imageRef g = Some el /\
       content el = url p /\
       width cv = naturalWidth el /\ height cv = naturalHeight el /\
       naturalWidth el = r_width (url p) /\
       naturalHeight el = r_height (url p))
  /\
  (forall (ctxAvailable : bool) (imageUrl : Raster) (evs : list MaskEvent),
     let m := maskRun rasterize ctxAvailable imageUrl evs in
     exists (cv : Canvas) (el : ImgElement),
       MaskEditor.canvasRef m = Some cv /\
       MaskEditor.imageRef m = Some el /\ content el = imageUrl /\
       decoded el = MaskEditor.imgLoaded m /\
       (MaskEditor.imgLoaded m = true ->
        width cv = naturalWidth el /\ height cv = naturalHeight el /\
        naturalWidth el = r_width imageUrl /\
        naturalHeight el = r_height imageUrl) /\
       (MaskEditor.imgLoaded m = false ->
        width cv = 300 /\ height cv = 150 /\
        naturalWidth el = 0 /\ naturalHeight el = 0)).
Proof.
  split.
  - intros evs cv g Hc.
    pose proof (galleryRun_sized rasterize evs) as S. fold g in S.
    unfold gallerySized in S.
    destruct (Gallery.previewImage g) as [p|].
    + destruct S as (Hi & cv' & Hc' & Hw & Hh).
      rewrite Hc in Hc'. injection Hc' as <-.
      exists p, (mkImg true (url p)).
      unfold naturalWidth, naturalHeight. cbn [decoded content].
      repeat split; first [assumption | reflexivity].
    + destruct S as (Hc' & _). congruence.
  - intros a imageUrl evs m.
    pose proof (maskRun_sized rasterize a imageUrl evs) as S. fold m in S.
    destruct S as (Hi & cv & Hc & Hs).
    exists cv, (mkImg (MaskEditor.imgLoaded m) imageUrl).
    split; [exact Hc|]. split; [exact Hi|].
    split; [reflexivity|]. split; [reflexivity|].
    unfold naturalWidth, naturalHeight. cbn [decoded content].
    split.
    + intros Hl. destruct (Hs Hl) as (Hw & Hh). rewrite Hl.
      repeat split; assumption.
    + intros Hl.
      destruct (@maskRun_placeholder rasterize a imageUrl evs Hl)
        as (cv' & Hc' & Hw & Hh).
      fold m in Hc'. rewrite Hc in Hc'. injection Hc' as <-. rewrite Hl.
      repeat split; assumption.
Qed.

Lemma overlay_resolution_is_native_once_loaded_witness :
  (exists cv : Canvas,
     Gallery.canvasRef (galleryRun dotRasterizer sampleStroke) = Some cv /\
     width cv = 5 /\ height cv = 4) /\
  (exists cv : Canvas,
     MaskEditor.imgLoaded (maskRun dotRasterizer true sampleImage sampleMaskStroke)
       = true /\
     MaskEditor.canvasRef (maskRun dotRasterizer true sampleImage sampleMaskStroke)
       = Some cv /\
     width cv = 5 /\ height cv = 4) /\
  (exists cv : Canvas,
     MaskEditor.imgLoaded
       (maskRun dotRasterizer true sampleImage
          [MaskDown (mkMouse 101 51) sampleRect]) = false /\
     MaskEditor.canvasRef
       (maskRun dotRasterizer true sampleImage
          [MaskDown (mkMouse 101 51) sampleRect]) = Some cv /\
     width cv = 300 /\ height cv = 150).
Proof.
  split; [|split].
  - destruct (Gallery.canvasRef (galleryRun dotRasterizer sampleStroke))
      as [cv|] eqn:Hc; [|vm_compute in Hc; discriminate Hc].
    exists cv. split; [reflexivity|].
    destruct (proj1 (overlay_resolution_is_native_once_loaded dotRasterizer)
                sampleStroke cv Hc)
      as (p & el & Hp & _ & _ & Hw & Hh & Nw & Nh).
    vm_compute in Hp. injection Hp as <-.
    rewrite Hw, Hh, Nw, Nh. split; reflexivity.
  - assert (Hl : MaskEditor.imgLoaded
                   (maskRun dotRasterizer true sampleImage sampleMaskStroke) = true)
      by (vm_compute; reflexivity).
    destruct (proj2 (overlay_resolution_is_native_once_loaded dotRasterizer)
                true sampleImage sampleMaskStroke)
      as (cv & el & Hc & _ & _ & _ & L & _).
    exists cv. split; [exact Hl|]. split; [exact Hc|].
    destruct (L Hl) as (Hw & Hh & Nw & Nh).
    rewrite Hw, Hh, Nw, Nh. split; reflexivity.
  - assert (Hl : MaskEditor.imgLoaded
                   (maskRun dotRasterizer true sampleImage
                      [MaskDown (mkMouse 101 51) sampleRect]) = false)
      by reflexivity.
    destruct (proj2 (overlay_resolution_is_native_once_loaded dotRasterizer)
                true sampleImage [MaskDown (mkMouse 101 51) sampleRect])
      as (cv & el & Hc & _ & _ & _ & _ & P).
    exists cv. split; [exact Hl|]. split; [exact Hc|].
    destruct (P Hl) as (Hw & Hh & _). split; assumption.
Defined.

(** ** Closing the editor and opening another image *)

(** C9 fails on the code: after a stroke on one image, closing the editor
    and opening an image of another size leaves the snapshot of the first
    image's overlay in [snapshotRef]. *)
Lemma snapshot_survives_image_switch :
  let g := galleryRun dotRasterizer sampleSwitch in
  Gallery.previewImage g = Some otherGenerated /\
  r_width (url otherGenerated) = 3 /\
  exists snapshot : Raster,
    Gallery.snapshotRef g = Some snapshot /\ r_width snapshot = 5 /\
    r_height snapshot = 4 /\
    Gallery.snapshotRef g <> None.
Proof.
  cbv zeta. split; [vm_compute; reflexivity|]. split; [reflexivity|].
  eexists. split; [vm_compute; reflexivity|].
  split; [reflexivity|]. split; [reflexivity|].
  vm_compute. discriminate.
Qed.

Lemma clearRect_blank (w h : nat) (k : option Context2D) :
  bitmap (clearRect 0 0 w h (mkCanvas w h (blank w h) k)) = blank w h.
Proof.
  unfold clearRect. cbn [bitmap width height]. unfold blank at 2.
  apply tabulate_ext. intros x y _ _.
  destruct (inRect 0 0 w h x y); [reflexivity|apply pixelAt_blank].
Qed.

(** C9, as the code has it.  Closing the editor, whatever its state,
    unmounts the overlay canvas and the image, and hands nothing to
    [onAddImage].  Opening an image from the closed editor mounts a new
    overlay of the natural size of that image with every pixel transparent,
    whatever the sizes of the previous and the new image, switches edit
    mode off and selects the brush, and hands nothing to [onAddImage].
    Neither step resets the drawing flag, the pre-stroke snapshot, the
    start position or the brush size: they keep their values. *)
Theorem close_and_open_discard_overlay_only :
  (forall g : Gallery.State,
     let g' := Gallery.closePreview g in
     Gallery.previewImage g' = None /\ Gallery.canvasRef g' = None /\
     Gallery.imageRef g' = None /\ Gallery.added g' = Gallery.added g /\
     Gallery.isPainting g' = Gallery.isPainting g /\
     Gallery.activeTool g' = Gallery.activeTool g /\
     Gallery.brushSize g' = Gallery.brushSize g /\
     Gallery.isDrawing g' = Gallery.isDrawing g /\
     Gallery.snapshotRef g' = Gallery.snapshotRef g /\
     Gallery.startPosRef g' = Gallery.startPosRef g)
  /\
  (forall (ctxAvailable : bool) (img : GeneratedImage) (g : Gallery.State),
     Gallery.canvasRef g = None ->
     let g' := Gallery.handleImageClick ctxAvailable img g in
     Gallery.previewImage g' = Some img /\
     Gallery.isPainting g' = false /\ Gallery.activeTool g' = Gallery.brush /\
     Gallery.added g' = Gallery.added g /\
     Gallery.brushSize g' = Gallery.brushSize g /\
     Gallery.isDrawing g' = Gallery.isDrawing g /\
     Gallery.snapshotRef g' = Gallery.snapshotRef g /\
     Gallery.startPosRef g' = Gallery.startPosRef g /\
     exists cv : Canvas,
       Gallery.canvasRef g' = Some cv /\
       width cv = r_width (url img) /\ height cv = r_height (url img) /\
       bitmap cv = blank (r_width (url img)) (r_height (url img)) /\
       forall x y, pixelAt (bitmap cv) x y = transparent).
Proof.
  split.
  - intros g g'. subst g'. unfold Gallery.closePreview, Gallery.render.
    gallery_simpl. rewrite sizeCanvas_closed by reflexivity.
    gallery_simpl. repeat split.
  - intros a img g Hc g'. subst g'.
    unfold Gallery.handleImageClick, Gallery.render. gallery_simpl.
    rewrite Hc. unfold Gallery.sizeCanvas. gallery_simpl.
    unfold naturalWidth, naturalHeight. cbn [decoded content].
    set (W := r_width (url img)). set (H := r_height (url img)).
    destruct (negb (width (createCanvas a) =? W)
              || negb (height (createCanvas a) =? H)) eqn:E.
    + gallery_simpl. repeat split.
      eexists. split; [reflexivity|].
      assert (B' : bitmap
                    (match getContext (setHeight H (setWidth W (createCanvas a))) with
                     | Some _ =>
                         clearRect 0 0
                           (width (setHeight H (setWidth W (createCanvas a))))
                           (height (setHeight H (setWidth W (createCanvas a))))
                           (setHeight H (setWidth W (createCanvas a)))
                     | None => setHeight H (setWidth W (createCanvas a))
                     end) = blank W H).
      { destruct a; cbn [getContext setHeight setWidth createCanvas context
                         resetContext width height bitmap].
        - apply clearRect_blank.
        - reflexivity. }
      split; [destruct a; reflexivity|]. split; [destruct a; reflexivity|].
      split; [exact B'|].
      intros x y. rewrite B'. apply pixelAt_blank.
    + apply orb_false_elim in E as (E1 & E2).
      apply negb_false_iff, Nat.eqb_eq in E1, E2.
      gallery_simpl. repeat split.
      exists (createCanvas a). split; [reflexivity|].
      split; [exact E1|]. split; [exact E2|].
      cbn [createCanvas width height bitmap] in *.
      rewrite <- E1, <- E2. split; [reflexivity|].
      intros x y. apply pixelAt_blank.
Qed.

Lemma close_and_open_discard_overlay_only_witness :
  let closed := galleryRun dotRasterizer (sampleStroke ++ [ClosePreview]) in
  Gallery.canvasRef closed = None /\
  exists cv : Canvas,
    Gallery.canvasRef (Gallery.handleImageClick true otherGenerated closed)
      = Some cv /\
    width cv = 3 /\ height cv = 2 /\ bitmap cv = blank 3 2.
Proof.
  cbv zeta.
  assert (H : Gallery.canvasRef
                (galleryRun dotRasterizer (sampleStroke ++ [ClosePreview])) = None)
    by (vm_compute; reflexivity).
  split; [exact H|].
  destruct (proj2 close_and_open_discard_overlay_only true otherGenerated
              (galleryRun dotRasterizer (sampleStroke ++ [ClosePreview])) H)
    as (_ & _ & _ & _ & _ & _ & _ & _ & cv & Hc & Hw & Hh & Hb & _).
  exists cv. repeat split; assumption.
Defined.

(* ================================================================== *)
(** * Further properties of the code *)
(* ================================================================== *)

(** ** Slicing: coverage and failures *)

(** X1.  Slicing loses nothing inside the covered region: the source pixel
    at (X, Y) with X < cellW * C and Y < cellH * R is the pixel
    (X mod cellW, Y mod cellH) of the tile of cell (Y div cellH, X div cellW),
    and no other cell and offset reads it.  When C divides W and R divides
    H the covered region is the whole composite. *)
Theorem sliceImageGrid_covers_region (img : Raster) (rows cols X Y : nat) :
  let cellW := r_width img / cols in
  let cellH := r_height img / rows in
  X < cellW * cols -> Y < cellH * rows ->
  exists (tiles : list Raster) (t : Raster),
    GeminiService.sliceImageGrid (Some img) true rows cols
      = GeminiService.Resolved tiles /\
    nth_error tiles (Y / cellH * cols + X / cellW) = Some t /\
    pixelAt (r_data t) (X mod cellW) (Y mod cellH) = pixelAt (r_data img) X Y /\
    (forall r c x y, r < rows -> c < cols -> x < cellW -> y < cellH ->
       c * cellW + x = X -> r * cellH + y = Y ->
       r = Y / cellH /\ c = X / cellW /\ x = X mod cellW /\ y = Y mod cellH) /\
    (r_width img mod cols = 0 -> cellW * cols = r_width img) /\
    (r_height img mod rows = 0 -> cellH * rows = r_height img).
Proof.
  intros cellW cellH HX HY.
  assert (Hcw : cellW <> 0) by nia.
  assert (Hch : cellH <> 0) by nia.
  pose proof (Nat.div_mod_eq X cellW) as DX.
  pose proof (Nat.div_mod_eq Y cellH) as DY.
  pose proof (Nat.mod_upper_bound X cellW Hcw) as MX.
  pose proof (Nat.mod_upper_bound Y cellH Hch) as MY.
  assert (Hc : X / cellW < cols)
    by (apply Nat.Div0.div_lt_upper_bound; lia).
  assert (Hr : Y / cellH < rows)
    by (apply Nat.Div0.div_lt_upper_bound; lia).
  eexists. eexists. split; [apply sliceImageGrid_resolved|].
  split; [apply grid_nth; assumption|].
  split.
  { unfold GeminiService.tileOf, crop. cbn [r_data]. fold cellW cellH.
    rewrite pixelAt_tabulate by assumption. f_equal; lia. }
  split.
  { intros r c x y Hr' Hc' Hx Hy EX EY.
    assert (c = X / cellW).
    { apply Nat.div_unique with x; lia. }
    assert (r = Y / cellH).
    { apply Nat.div_unique with y; lia. }
    subst r c. repeat split; nia. }
  split.
  - intros M. pose proof (Nat.div_mod_eq (r_width img) cols) as D.
    fold cellW in D. lia.
  - intros M. pose proof (Nat.div_mod_eq (r_height img) rows) as D.
    fold cellH in D. lia.
Qed.

Lemma sliceImageGrid_covers_region_witness :
  (3 < r_width sampleImage / 2 * 2 /\ 1 < r_height sampleImage / 2 * 2) /\
  exists (tiles : list Raster) (t : Raster),
    GeminiService.sliceImageGrid (Some sampleImage) true 2 2
      = GeminiService.Resolved tiles /\
    nth_error tiles 1 = Some t /\
    pixelAt (r_data t) 1 1 = pixelAt (r_data sampleImage) 3 1.
Proof.
  assert (H : 3 < r_width sampleImage / 2 * 2 /\ 1 < r_height sampleImage / 2 * 2)
    by (cbn; lia).
  split; [exact H|]. destruct H as (HX & HY).
  destruct (@sliceImageGrid_covers_region sampleImage 2 2 3 1 HX HY)
    as (tiles & t & E & N & P & _).
  exists tiles, t. split; [exact E|]. split; [exact N|exact P].
Defined.

(** What [generateAndAddImage] returns when every step succeeds. *)
Lemma generateAndAddImage_ok (uuid : nat -> string)
    (genPrompt ar labelPrefix : string) (idBase : Z) (st : App.State)
    (img : Raster) (rows cols count : nat) :
  let tiles :=
    flat_map (fun r => map (GeminiService.tileOf img (r_width img / cols)
                              (r_height img / rows) r) (seq 0 cols))
             (seq 0 rows) in
  let newImages :=
    App.mapWithIndex
      (fun u index =>
         mkGeneratedImage (uuid index) u (Some img)
           ("[" ++ labelPrefix ++ "] " ++ String.substring 0 50 genPrompt ++ "...")%string
           ar idBase)
      0 (firstn count tiles) in
  App.generateAndAddImage uuid (Some img) true true genPrompt rows cols count
    ar idBase labelPrefix st
  = inl (App.mkState (newImages ++ App.images st)
           (match newImages with
            | first :: _ => Some (id first)
            | [] => App.selectedImageId st
            end)
           (App.stored st ++ newImages)).
Proof.
  cbv zeta. unfold App.generateAndAddImage, GeminiService.generateMultiViewGrid.
  rewrite sliceImageGrid_resolved. reflexivity.
Qed.

Lemma mapWithIndex_length {A B : Type} (f : A -> nat -> B) (k : nat) (l : list A) :
  List.length (App.mapWithIndex f k l) = List.length l.
Proof.
  revert k. induction l as [|a l IH]; intros k; cbn; [reflexivity|].
  now rewrite IH.
Qed.

Lemma mapWithIndex_nth {A B : Type} (f : A -> nat -> B) (k i : nat) (l : list A) :
  nth_error (App.mapWithIndex f k l) i
  = option_map (fun a => f a (k + i)) (nth_error l i).
Proof.
  revert k i. induction l as [|a l IH]; intros k i.
  - destruct i; reflexivity.
  - destruct i as [|i]; cbn.
    + now rewrite Nat.add_0_r.
    + rewrite IH. now replace (S k + i) with (k + S i) by lia.
Qed.

(** X2.  [generateAndAddImage] returns a new state exactly when the service
    returned a composite, the composite decodes and the scratch canvas
    yields a context.  Otherwise it fails and hands back no state: with no
    composite the error is that of [generateMultiViewGrid]; a composite that
    does not decode is reported as a load failure, whether or not a context
    would have been there; a missing context is reported as such. *)
Theorem generateAndAddImage_succeeds_iff (uuid : nat -> string)
    (generated : option Raster) (decodes ctxAvailable : bool)
    (genPrompt ar labelPrefix : string) (rows cols count : nat) (idBase : Z)
    (st : App.State) :
  let result :=
    App.generateAndAddImage uuid generated decodes ctxAvailable genPrompt
      rows cols count ar idBase labelPrefix st in
  ((exists st', result = inl st') <->
   generated <> None /\ decodes = true /\ ctxAvailable = true) /\
  (generated = None -> result = inr GeminiService.NoGridImage) /\
  (generated <> None -> decodes = false ->
   result = inr (GeminiService.SliceFailed GeminiService.ImageLoadFailed)) /\
  (generated <> None -> decodes = true -> ctxAvailable = false ->
   result = inr (GeminiService.SliceFailed GeminiService.NoCanvasContext)).
Proof.
  cbv zeta.
  assert (Fail : forall (e : GeminiService.GridError)
                        (r : App.State + GeminiService.GridError)
                        (P : Prop),
            r = inr e -> ~ P ->
            ((exists st', r = inl st') <-> P)).
  { intros e r P -> NP. split; [intros (st' & E); discriminate E|].
    intros HP. contradiction. }
  destruct generated as [img|].
  - destruct decodes.
    + destruct ctxAvailable.
      * rewrite generateAndAddImage_ok. split.
        { split; [intros _; repeat split; congruence|].
          intros _. eexists. reflexivity. }
        repeat split; intros; congruence.
      * split.
        { eapply Fail; [reflexivity|]. intros (_ & _ & E). discriminate E. }
        repeat split; intros; first [reflexivity | congruence].
    + split.
      { eapply Fail; [reflexivity|]. intros (_ & E & _). discriminate E. }
      repeat split; intros; first [reflexivity | congruence].
  - split.
    { eapply Fail; [reflexivity|]. intros (E & _). congruence. }
    repeat split; intros; first [reflexivity | congruence].
Qed.

Lemma generateAndAddImage_succeeds_iff_witness :
  (@None Raster = None) /\
  App.generateAndAddImage (fun _ => "u"%string) None true true "p"%string 2 2 3
    "1:1"%string 0%Z "T"%string (App.mkState [] None [])
  = inr GeminiService.NoGridImage.
Proof.
  split; [reflexivity|].
  exact (proj1 (proj2 (generateAndAddImage_succeeds_iff (fun _ => "u"%string)
                         None true true "p"%string "1:1"%string "T"%string
                         2 2 3 0%Z (App.mkState [] None []))) eq_refl).
Defined.

(** ** Grids and image bookkeeping in App.tsx *)

Lemma newImages_length (uuid : nat -> string) (full : option Raster)
    (p ar : string) (t : Z) (count : nat) (tiles : list Raster) :
  List.length
    (App.mapWithIndex
       (fun u index => mkGeneratedImage (uuid index) u full p ar t)
       0 (firstn count tiles))
  = Nat.min count (List.length tiles).
Proof. now rewrite mapWithIndex_length, length_firstn. Qed.

(** X3.  In the standard mode the grid is square and a request for n images
    adds exactly min(n, 9) images: every request from one to nine is met in
    full, and a request for more than nine yields nine. *)
Theorem standard_mode_adds_min_n_9 (uuid : nat -> string)
    (genPrompt ar labelPrefix : string) (idBase : Z) (st : App.State)
    (img : Raster) (n : nat) :
  let rows := fst (AppHandlers.standardGrid n) in
  let cols := snd (AppHandlers.standardGrid n) in
  rows = cols /\
  exists (newImages : list GeneratedImage) (st' : App.State),
    App.generateAndAddImage uuid (Some img) true true genPrompt rows cols n
      ar idBase labelPrefix st = inl st' /\
    App.images st' = newImages ++ App.images st /\
    List.length newImages = Nat.min n 9.
Proof.
  cbv zeta. split.
  { unfold AppHandlers.standardGrid.
    destruct (n =? 1); [reflexivity|]. destruct (n <=? 4); reflexivity. }
  rewrite generateAndAddImage_ok. eexists. eexists.
  split; [reflexivity|]. split; [reflexivity|].
  rewrite newImages_length, grid_length.
  unfold AppHandlers.standardGrid.
  destruct (n =? 1) eqn:E1; cbn [fst snd].
  - apply Nat.eqb_eq in E1. subst n. reflexivity.
  - destruct (n <=? 4) eqn:E4; cbn [fst snd].
    + apply Nat.leb_le in E4. lia.
    + apply Nat.leb_gt in E4. lia.
Qed.

(** X4.  In the character mode the grid has exactly as many cells as
    panels are requested (one row, or 2 by 2 for four expressions), so no
    tile is dropped: the new images carry all tiles of the composite, in
    row-major order. *)
Theorem character_mode_keeps_every_tile (uuid : nat -> string)
    (genPrompt ar labelPrefix : string) (idBase : Z) (st : App.State)
    (img : Raster) (count : nat) (grid : nat * nat) :
  grid = AppHandlers.stripGrid count \/
  grid = AppHandlers.expressionGrid count ->
  fst grid * snd grid = count /\
  exists (tiles : list Raster) (newImages : list GeneratedImage)
         (st' : App.State),
    GeminiService.sliceImageGrid (Some img) true (fst grid) (snd grid)
      = GeminiService.Resolved tiles /\
    App.generateAndAddImage uuid (Some img) true true genPrompt
      (fst grid) (snd grid) count ar idBase labelPrefix st = inl st' /\
    App.images st' = newImages ++ App.images st /\
    map url newImages = tiles /\
    List.length newImages = count.
Proof.
  intros G.
  assert (P : fst grid * snd grid = count).
  { destruct G as [-> | ->].
    - cbn. lia.
    - unfold AppHandlers.expressionGrid.
      destruct (count =? 4) eqn:E; cbn [fst snd]; [|lia].
      apply Nat.eqb_eq in E. subst count. reflexivity. }
  split; [exact P|].
  rewrite generateAndAddImage_ok, sliceImageGrid_resolved.
  eexists. eexists. eexists.
  split; [reflexivity|]. split; [reflexivity|]. split; [reflexivity|].
  split.
  - rewrite mapWithIndex_urls. apply firstn_all2.
    rewrite grid_length. lia.
  - rewrite newImages_length, grid_length. lia.
Qed.

Lemma character_mode_keeps_every_tile_witness :
  ((2, 2) = AppHandlers.stripGrid 4 \/ (2, 2) = AppHandlers.expressionGrid 4) /\
  exists st' : App.State,
    App.generateAndAddImage (fun _ => "u"%string) (Some sampleImage) true true
      "p"%string 2 2 4 "1:1"%string 0%Z "T"%string (App.mkState [] None [])
      = inl st' /\
    List.length (App.images st') = 4.
Proof.
  assert (H : (2, 2) = AppHandlers.stripGrid 4
              \/ (2, 2) = AppHandlers.expressionGrid 4) by (right; reflexivity).
  split; [exact H|].
  destruct (@character_mode_keeps_every_tile (fun _ => "u"%string) "p"%string
              "1:1"%string "T"%string 0%Z (App.mkState [] None [])
              sampleImage 4 (2, 2) H)
    as (_ & tiles & newImages & st' & _ & E & I & _ & L).
  exists st'. split; [exact E|].
  rewrite I, length_app, L. reflexivity.
Defined.

(** X5.  Every image that a successful [generateAndAddImage] adds carries
    the whole composite as [fullGridUrl] and the timestamp and the aspect
    ratio it was given; the i-th has the i-th fresh id; all of them carry
    one and the same prompt.  When the first 50 characters of the
    generation prompt are ASCII, that prompt is the label in brackets, a
    space, these first 50 characters and three dots.  The first new image
    becomes the selection; when no image results (a count of 0) the
    selection stays as it was. *)
Theorem generateAndAddImage_bookkeeping (uuid : nat -> string)
    (genPrompt ar labelPrefix : string) (idBase : Z) (st : App.State)
    (img : Raster) (rows cols count : nat) :
  exists (newImages : list GeneratedImage) (st' : App.State),
    App.generateAndAddImage uuid (Some img) true true genPrompt rows cols
      count ar idBase labelPrefix st = inl st' /\
    App.images st' = newImages ++ App.images st /\
    (forall i im, nth_error newImages i = Some im ->
       id im = uuid i /\ fullGridUrl im = Some img /\
       timestamp im = idBase /\ aspectRatio im = ar) /\
    (forall im im', In im newImages -> In im' newImages ->
       prompt im = prompt im') /\
    (asciiLabel genPrompt = true ->
     forall im, In im newImages ->
       prompt im
       = ("[" ++ labelPrefix ++ "] " ++ String.substring 0 50 genPrompt ++ "...")%string) /\
    (newImages <> [] -> App.selectedImageId st' = Some (uuid 0)) /\
    (newImages = [] -> App.selectedImageId st' = App.selectedImageId st) /\
    (count = 0 -> newImages = []).
Proof.
  rewrite generateAndAddImage_ok. eexists. eexists.
  split; [reflexivity|]. split; [reflexivity|].
  cbn [App.selectedImageId].
  set (tiles := firstn count _).
  assert (P : forall im,
            In im (App.mapWithIndex
                     (fun u index =>
                        mkGeneratedImage (uuid index) u (Some img)
                          ("[" ++ labelPrefix ++ "] "
                           ++ String.substring 0 50 genPrompt ++ "...")%string
                          ar idBase) 0 tiles) ->
            prompt im
            = ("[" ++ labelPrefix ++ "] " ++ String.substring 0 50 genPrompt
               ++ "...")%string).
  { intros im Hin. apply In_nth_error in Hin as (i & N).
    rewrite mapWithIndex_nth in N.
    destruct (nth_error tiles i) as [u|]; [|discriminate N].
    cbn in N. injection N as <-. reflexivity. }
  split.
  { intros i im N. rewrite mapWithIndex_nth in N.
    destruct (nth_error tiles i) as [u|]; [|discriminate N].
    cbn in N. injection N as <-. cbn. repeat split. }
  split.
  { intros im im' H H'. now rewrite (P im H), (P im' H'). }
  split.
  { intros _ im H. now apply P. }
  split.
  { destruct tiles as [|u tiles']; cbn; [congruence|]. reflexivity. }
  split.
  { intros E. rewrite E. reflexivity. }
  intros ->. reflexivity.
Qed.

Lemma generateAndAddImage_bookkeeping_witness :
  asciiLabel "a lighthouse at dusk" = true /\
  exists (st' : App.State) (im : GeneratedImage),
    App.generateAndAddImage sampleUuid (Some sampleImage) true true
      "a lighthouse at dusk" 1 2 2 "16:9" 7 "SCENE" (App.mkState [] None [])
    = inl st' /\
    nth_error (App.images st') 1 = Some im /\
    id im = "n1"%string /\
    prompt im = "[SCENE] a lighthouse at dusk..."%string.
Proof.
  assert (H : asciiLabel "a lighthouse at dusk" = true) by reflexivity.
  split; [exact H|].
  destruct (generateAndAddImage_bookkeeping sampleUuid
              "a lighthouse at dusk" "16:9" "SCENE" 7 (App.mkState [] None [])
              sampleImage 1 2 2)
    as (newImages & st' & E & I & F & _ & L & _).
  assert (Len : List.length newImages = 2).
  { rewrite generateAndAddImage_ok in E. injection E as E.
    rewrite <- E in I. cbn [App.images] in I. rewrite !app_nil_r in I.
    rewrite <- I. reflexivity. }
  destruct newImages as [|a [|b [|c rest]]]; try discriminate Len.
  exists st', b. split; [exact E|]. rewrite I.
  split; [reflexivity|].
  split.
  - exact (proj1 (F 1 b eq_refl)).
  - rewrite (L H b) by (right; now left). reflexivity.
Defined.

Lemma filter_id_in (key : string) (l : list GeneratedImage) (i : GeneratedImage) :
  In i (filter (fun x => negb (String.eqb (id x) key)) l)
  <-> In i l /\ id i <> key.
Proof.
  rewrite filter_In. split; intros (H1 & H2); split; try assumption.
  - apply negb_true_iff, String.eqb_neq in H2. exact H2.
  - apply negb_true_iff, String.eqb_neq. exact H2.
Qed.

Lemma filter_id_fresh (key : string) (l : list GeneratedImage) :
  (forall i, In i l -> id i <> key) ->
  filter (fun x => negb (String.eqb (id x) key)) l = l.
Proof.
  intros F. induction l as [|a l IH]; [reflexivity|]. cbn.
  assert (Ha : id a <> key) by (apply F; now left).
  apply String.eqb_neq in Ha. rewrite Ha. cbn. f_equal.
  apply IH. intros i Hi. apply F. now right.
Qed.

(** X6.  [handleDeleteImage] removes from the list and from the store every
    image with the given id and nothing else; it clears the selection
    exactly when the deleted id was selected;
    deleting an id that no image has changes neither list nor store; and
    deleting twice is deleting once. *)
Theorem handleDeleteImage_removes_only_that_id (id0 : string) (st : App.State) :
  let st' := AppHandlers.handleDeleteImage id0 st in
  (forall i, In i (App.images st') <-> In i (App.images st) /\ id i <> id0) /\
  (forall i, In i (App.stored st') <-> In i (App.stored st) /\ id i <> id0) /\
  (App.selectedImageId st = Some id0 -> App.selectedImageId st' = None) /\
  (App.selectedImageId st <> Some id0 ->
   App.selectedImageId st' = App.selectedImageId st) /\
  ((forall i, In i (App.images st) -> id i <> id0) ->
   App.images st' = App.images st) /\
  AppHandlers.handleDeleteImage id0 st' = st'.
Proof.
  cbv zeta. unfold AppHandlers.handleDeleteImage, AppHandlers.dbDelete.
  cbn [App.images App.stored App.selectedImageId].
  split; [intros i; apply filter_id_in|].
  split; [intros i; apply filter_id_in|].
  split.
  { intros ->. now rewrite String.eqb_refl. }
  split.
  { intros N. destruct (App.selectedImageId st) as [s|]; [|reflexivity].
    destruct (String.eqb s id0) eqn:E; [|reflexivity].
    apply String.eqb_eq in E. congruence. }
  split; [apply filter_id_fresh|].
  f_equal.
  - apply filter_id_fresh. intros i Hi. now apply filter_id_in in Hi.
  - destruct (App.selectedImageId st) as [s|]; [|reflexivity].
    destruct (String.eqb s id0) eqn:E; [reflexivity|]. now rewrite E.
  - apply filter_id_fresh. intros i Hi. now apply filter_id_in in Hi.
Qed.

Lemma handleDeleteImage_removes_only_that_id_witness :
  let st := App.mkState [sampleGenerated; otherGenerated] (Some "a1"%string)
                        [sampleGenerated; otherGenerated] in
  App.selectedImageId st = Some "a1"%string /\
  App.selectedImageId (AppHandlers.handleDeleteImage "a1" st) = None /\
  App.images (AppHandlers.handleDeleteImage "a1" st) = [otherGenerated].
Proof.
  cbv zeta. split; [reflexivity|].
  destruct (handleDeleteImage_removes_only_that_id "a1"
              (App.mkState [sampleGenerated; otherGenerated] (Some "a1"%string)
                           [sampleGenerated; otherGenerated]))
    as (_ & _ & S & _).
  split; [exact (S eq_refl)|reflexivity].
Defined.

(** X7.  Adding an image with [handleAddGeneratedImage] puts it first in
    the list, selects it and stores it.  When its id is fresh, deleting it
    again restores the list and the store as they were; the selection is
    then empty, not what it was before. *)
Theorem add_then_delete_restores_images (newImage : GeneratedImage)
    (st : App.State) :
  (forall i, In i (App.images st) -> id i <> id newImage) ->
  (forall i, In i (App.stored st) -> id i <> id newImage) ->
  let added := AppHandlers.handleAddGeneratedImage newImage st in
  let st' := AppHandlers.handleDeleteImage (id newImage) added in
  App.images added = newImage :: App.images st /\
  App.selectedImageId added = Some (id newImage) /\
  App.stored added = App.stored st ++ [newImage] /\
  App.images st' = App.images st /\
  App.stored st' = App.stored st /\
  App.selectedImageId st' = None.
Proof.
  intros FI FS. cbv zeta.
  unfold AppHandlers.handleAddGeneratedImage, AppHandlers.handleSelectImage,
    AppHandlers.handleDeleteImage, AppHandlers.dbPut, AppHandlers.dbDelete.
  cbn [App.images App.stored App.selectedImageId].
  rewrite (@filter_id_fresh _ _ FS).
  split; [reflexivity|]. split; [reflexivity|]. split; [reflexivity|].
  split.
  { cbn. rewrite String.eqb_refl. cbn. now apply filter_id_fresh. }
  split.
  { rewrite filter_app. cbn. rewrite String.eqb_refl. cbn.
    rewrite app_nil_r. now apply filter_id_fresh. }
  now rewrite String.eqb_refl.
Qed.

Lemma add_then_delete_restores_images_witness :
  let st := App.mkState [sampleGenerated] (Some "a1"%string) [sampleGenerated] in
  ((forall i, In i (App.images st) -> id i <> id otherGenerated) /\
   (forall i, In i (App.stored st) -> id i <> id otherGenerated)) /\
  App.images
    (AppHandlers.handleDeleteImage (id otherGenerated)
       (AppHandlers.handleAddGeneratedImage otherGenerated st))
  = [sampleGenerated].
Proof.
  cbv zeta.
  assert (H : (forall i, In i [sampleGenerated] -> id i <> id otherGenerated) /\
              (forall i, In i [sampleGenerated] -> id i <> id otherGenerated)).
  { split; intros i [<-|[]]; discriminate. }
  split; [exact H|]. destruct H as (FI & FS).
  destruct (@add_then_delete_restores_images otherGenerated
              (App.mkState [sampleGenerated] (Some "a1"%string) [sampleGenerated])
              FI FS) as (_ & _ & _ & I & _).
  exact I.
Defined.

(** With ids that are new to the store and differ from each other, the
    keyed puts of a list of records append them. *)
Lemma fold_dbPut_fresh (l store : list GeneratedImage) :
  NoDup (map id l) ->
  (forall i, In i store -> ~ In (id i) (map id l)) ->
  fold_left (fun s im => AppHandlers.dbPut im s) l store = store ++ l.
Proof.
  revert store. induction l as [|a l IH]; intros store Hn Hf.
  - cbn. now rewrite app_nil_r.
  - cbn [fold_left]. unfold AppHandlers.dbPut at 2.
    rewrite filter_id_fresh.
    2:{ intros i Hi E. apply (Hf i Hi). left. now symmetry. }
    inversion Hn as [|x xs Hx Hn']; subst.
    rewrite IH; [now rewrite <- app_assoc| exact Hn' |].
    intros i Hi Hin. apply in_app_or in Hi. destruct Hi as [Hi|[<-|[]]].
    + apply (Hf i Hi). now right.
    + now apply Hx.
Qed.

(** X8.  The image list and the IMAGES store stay in step.  When they hold
    the same images, they still do after [handleDeleteImage] and after
    [handleAddGeneratedImage] of an image whose id is new to the store.
    After a successful [generateAndAddImage] whose new images have ids
    that differ from each other and are new to the store, the records put
    one by one under their ids make the store that the model keeps, and
    list and store hold the same images again. *)
Theorem image_list_and_store_stay_in_sync (st : App.State) :
  AppHandlers.inSync st ->
  (forall id0, AppHandlers.inSync (AppHandlers.handleDeleteImage id0 st)) /\
  (forall newImage,
     (forall i, In i (App.stored st) -> id i <> id newImage) ->
     AppHandlers.inSync (AppHandlers.handleAddGeneratedImage newImage st)) /\
  (forall uuid genPrompt ar labelPrefix idBase img rows cols count st'
          newImages,
     App.generateAndAddImage uuid (Some img) true true genPrompt rows cols
       count ar idBase labelPrefix st = inl st' ->
     App.images st' = newImages ++ App.images st ->
     NoDup (map id newImages) ->
     (forall i, In i (App.stored st) -> ~ In (id i) (map id newImages)) ->
     App.stored st'
     = fold_left (fun s im => AppHandlers.dbPut im s) newImages (App.stored st)
     /\ AppHandlers.inSync st').
Proof.
  unfold AppHandlers.inSync. intros S. split; [|split].
  - intros id0 i.
    unfold AppHandlers.handleDeleteImage, AppHandlers.dbDelete.
    cbn [App.images App.stored]. rewrite !filter_id_in, S. reflexivity.
  - intros newImage F i.
    unfold AppHandlers.handleAddGeneratedImage, AppHandlers.handleSelectImage,
      AppHandlers.dbPut.
    cbn [App.images App.stored]. rewrite (@filter_id_fresh _ _ F).
    rewrite in_app_iff. cbn. rewrite S. tauto.
  - intros uuid genPrompt ar labelPrefix idBase img rows cols count st'
      newImages E I Hn Hf.
    rewrite generateAndAddImage_ok in E. cbv zeta in E.
    set (new := App.mapWithIndex _ 0 _) in E. injection E as <-.
    cbn [App.images App.stored] in *.
    apply app_inv_tail in I. subst newImages.
    split.
    + symmetry. now apply fold_dbPut_fresh.
    + intros i. rewrite !in_app_iff, S. tauto.
Qed.

Lemma image_list_and_store_stay_in_sync_witness :
  let st := App.mkState [sampleGenerated] None [sampleGenerated] in
  AppHandlers.inSync st /\
  AppHandlers.inSync (AppHandlers.handleDeleteImage "a1" st) /\
  exists st' : App.State,
    App.generateAndAddImage sampleUuid (Some sampleImage) true true
      "a lighthouse at dusk" 1 2 2 "16:9" 7 "SCENE" st = inl st' /\
    map id (App.stored st') = ["a1"; "n0"; "n1"]%string /\
    AppHandlers.inSync st'.
Proof.
  cbv zeta.
  assert (H : AppHandlers.inSync
                (App.mkState [sampleGenerated] None [sampleGenerated]))
    by (intros i; reflexivity).
  split; [exact H|].
  split; [exact (proj1 (image_list_and_store_stay_in_sync H) "a1"%string)|].
  pose proof (generateAndAddImage_ok sampleUuid "a lighthouse at dusk" "16:9"
                "SCENE" 7 (App.mkState [sampleGenerated] None [sampleGenerated])
                sampleImage 1 2 2) as E.
  cbv zeta in E. eexists. split; [exact E|]. split; [reflexivity|].
  refine (proj2 (proj2 (proj2 (image_list_and_store_stay_in_sync H))
                   _ _ _ _ _ _ _ _ _ _ _ E eq_refl _ _)).
  - cbn. repeat constructor; cbn; intuition discriminate.
  - cbn. intros i [<-|[]]. cbn. intuition discriminate.
Defined.

(** ** Rounding and order of doubles *)

Lemma shr_1_nonneg (mrs : shr_record) :
  (0 <= shr_m mrs -> 0 <= shr_m (shr_1 mrs))%Z.
Proof.
  destruct mrs as [m r s]. destruct m as [|p|p]; cbn.
  - lia.
  - destruct p; cbn; lia.
  - lia.
Qed.

Lemma iter_shr_nonneg (p : positive) (mrs : shr_record) :
  (0 <= shr_m mrs -> 0 <= shr_m (iter_pos shr_1 p mrs))%Z.
Proof.
  revert mrs. induction p as [p IH|p IH|]; intros mrs H; cbn.
  - apply IH, IH, shr_1_nonneg, H.
  - apply IH, IH, H.
  - apply shr_1_nonneg, H.
Qed.

Lemma shr_fexp_nonneg (m e : Z) (l : location) :
  (0 <= m ->
   0 <= shr_m (fst (shr_fexp Doubles.prec Doubles.emax m e l)))%Z.
Proof.
  intros H. unfold shr_fexp, shr.
  assert (R : (0 <= shr_m (shr_record_of_loc m l))%Z)
    by (destruct l as [|[]]; exact H).
  destruct (fexp Doubles.prec Doubles.emax (Zdigits2 m + e) - e)%Z;
    cbn [fst]; try exact R.
  now apply iter_shr_nonneg.
Qed.

Lemma round_nearest_even_nonneg (m : Z) (l : location) :
  (0 <= m -> 0 <= round_nearest_even m l)%Z.
Proof.
  intros H. destruct l as [|[]]; cbn; try lia. destruct (Z.even m); lia.
Qed.

(** Rounding a non-negative mantissa gives a zero, a finite number or an
    infinity of the given sign, never NaN. *)
Lemma binary_round_aux_cases (s : bool) (m e : Z) (l : location) :
  (0 <= m)%Z ->
  match binary_round_aux Doubles.prec Doubles.emax s m e l with
  | S754_nan => False
  | S754_zero s' | S754_infinity s' | S754_finite s' _ _ => s' = s
  end.
Proof.
  intros H. unfold binary_round_aux.
  pose proof (shr_fexp_nonneg e l H) as H1.
  destruct (shr_fexp Doubles.prec Doubles.emax m e l) as [mrs' e'].
  cbn [fst] in H1.
  pose proof (shr_fexp_nonneg e' loc_Exact
                (round_nearest_even_nonneg (loc_of_shr_record mrs') H1)) as H2.
  destruct (shr_fexp Doubles.prec Doubles.emax _ e' loc_Exact) as [mrs'' e''].
  cbn [fst] in H2.
  destruct (shr_m mrs''); [reflexivity| |lia].
  destruct (Z.leb _ _); reflexivity.
Qed.

Lemma binary_normalize_not_nan (m e : Z) :
  Doubles.isNaN (binary_normalize Doubles.prec Doubles.emax m e false) = false.
Proof.
  unfold binary_normalize, binary_round.
  destruct m as [|p|p]; [reflexivity| |];
    match goal with
    | |- context [shl_align ?a ?b ?c] => destruct (shl_align a b c) as [mz ez]
    end;
    match goal with
    | |- context [binary_round_aux _ _ ?s (Zpos ?q) ?x ?l] =>
        pose proof (@binary_round_aux_cases s (Zpos q) x l ltac:(lia)) as C;
        destruct (binary_round_aux Doubles.prec Doubles.emax s (Zpos q) x l)
    end; first [reflexivity | contradiction].
Qed.

(** A difference of a finite number and a number is a number. *)
Lemma sub_not_nan (x y : Doubles.double) :
  Doubles.isFinite x = true -> Doubles.isNaN y = false ->
  Doubles.isNaN (Doubles.sub x y) = false.
Proof.
  unfold Doubles.sub, SFsub.
  destruct x as [sx|sx| |sx mx ex]; try discriminate;
    destruct y as [sy|sy| |sy my ey]; try discriminate; intros _ _;
    try reflexivity.
  - destruct sx, sy; reflexivity.
  - apply binary_normalize_not_nan.
Qed.

Lemma abs_absolute (x : Doubles.double) :
  Doubles.isNaN x = false -> Doubles.isAbsolute (Doubles.abs x) = true.
Proof. destruct x as [[]|[]| |[] m e]; try discriminate; reflexivity. Qed.

Ltac cmp_cases :=
  repeat match goal with
  | H : context [Pos.compare_cont Eq ?a ?b] |- _ =>
      change (Pos.compare_cont Eq a b) with (Pos.compare a b) in H
  | |- context [Pos.compare_cont Eq ?a ?b] =>
      change (Pos.compare_cont Eq a b) with (Pos.compare a b)
  | H : context [Z.compare ?a ?b] |- _ => destruct (Z.compare_spec a b)
  | |- context [Z.compare ?a ?b] => destruct (Z.compare_spec a b)
  | H : context [Pos.compare ?a ?b] |- _ => destruct (Pos.compare_spec a b)
  | |- context [Pos.compare ?a ?b] => destruct (Pos.compare_spec a b)
  end.

(** On the values of [Math.abs], [<] is transitive, and so is its
    negation. *)
Lemma ltb_trans (x y z : Doubles.double) :
  Doubles.isAbsolute x = true -> Doubles.isAbsolute y = true ->
  Doubles.isAbsolute z = true ->
  Doubles.ltb x y = true -> Doubles.ltb y z = true -> Doubles.ltb x z = true.
Proof.
  unfold Doubles.ltb, SFltb, SFcompare.
  destruct x as [[]|[]| |[] mx ex], y as [[]|[]| |[] my ey],
           z as [[]|[]| |[] mz ez];
    cbn [Doubles.isAbsolute]; intros X Y Z' H1 H2;
    try discriminate; try reflexivity;
    cmp_cases; subst; try discriminate; try reflexivity; try lia.
Qed.

Lemma ltb_cotrans (x y z : Doubles.double) :
  Doubles.isAbsolute x = true -> Doubles.isAbsolute y = true ->
  Doubles.isAbsolute z = true ->
  Doubles.ltb x y = false -> Doubles.ltb y z = false ->
  Doubles.ltb x z = false.
Proof.
  unfold Doubles.ltb, SFltb, SFcompare.
  destruct x as [[]|[]| |[] mx ex], y as [[]|[]| |[] my ey],
           z as [[]|[]| |[] mz ez];
    cbn [Doubles.isAbsolute]; intros X Y Z' H1 H2;
    try discriminate; try reflexivity;
    cmp_cases; subst; try discriminate; try reflexivity; try lia.
Qed.

(** ** The closest aspect ratio *)

Section FirstMinimum.

Variable A : Type.
Variable d : A -> Doubles.double.

Let scan (l : list A) (h : A) : A :=
  fold_left (fun prev curr =>
               if Doubles.ltb (d curr) (d prev) then curr else prev) l h.

(** A left-to-right scan that only moves on a strict improvement ends on
    the first element of least distance. *)
Lemma scan_first_minimum (l : list A) (h : A) :
  (forall a, In a (h :: l) -> Doubles.isAbsolute (d a) = true) ->
  exists l1 l2,
    h :: l = l1 ++ scan l h :: l2 /\
    (forall x, In x l1 -> Doubles.ltb (d (scan l h)) (d x) = true) /\
    (forall x, In x l2 -> Doubles.ltb (d x) (d (scan l h)) = false).
Proof.
  induction l as [|x l IH] using rev_ind; intros Habs.
  - exists [], []. cbn. repeat split; intros x [].
  - destruct IH as (l1 & l2 & E & H1 & H2).
    { intros a Ha. apply Habs. rewrite app_comm_cons. apply in_or_app.
      now left. }
    unfold scan in *. rewrite fold_left_app. cbn [fold_left].
    set (r := fold_left _ l h) in *.
    assert (Ain : forall a, In a (l1 ++ r :: l2) ->
                    Doubles.isAbsolute (d a) = true).
    { intros a Ha. rewrite <- E in Ha. apply Habs.
      rewrite app_comm_cons. apply in_or_app. now left. }
    assert (Ax : Doubles.isAbsolute (d x) = true).
    { apply Habs. rewrite app_comm_cons. apply in_or_app. right. now left. }
    assert (Ar : Doubles.isAbsolute (d r) = true).
    { apply Ain, in_or_app. right. now left. }
    destruct (Doubles.ltb (d x) (d r)) eqn:L.
    + exists (h :: l), []. split; [now rewrite app_comm_cons|].
      split; [|intros y []].
      intros y Hy. rewrite E in Hy.
      pose proof (Ain y Hy) as Ay. apply in_app_or in Hy.
      destruct Hy as [Hy|[<-|Hy]].
      * apply ltb_trans with (d r); auto.
      * exact L.
      * destruct (Doubles.ltb (d x) (d y)) eqn:Lxy; [reflexivity|].
        rewrite (@ltb_cotrans (d x) (d y) (d r)) in L; auto.
    + exists l1, (l2 ++ [x]). split.
      { rewrite app_comm_cons, E, <- app_assoc. reflexivity. }
      split; [exact H1|].
      intros y Hy. apply in_app_or in Hy. destruct Hy as [Hy|[<-|[]]].
      * now apply H2.
      * exact L.
Qed.

End FirstMinimum.

Lemma ratioMap_entries (e : Doubles.double * AppHandlers.AspectRatio) :
  In e AppHandlers.ratioMap -> fst e = AppHandlers.ratioOf (snd e).
Proof.
  cbn. intros [<-|[<-|[<-|[<-|[<-|[<-|[]]]]]]]; reflexivity.
Qed.

Lemma ratioMap_complete (a : AppHandlers.AspectRatio) :
  In (AppHandlers.ratioOf a, a) AppHandlers.ratioMap.
Proof. destruct a; cbn; tauto. Qed.

Lemma ratioOf_finite (a : AppHandlers.AspectRatio) :
  Doubles.isFinite (AppHandlers.ratioOf a) = true.
Proof. destruct a; vm_compute; reflexivity. Qed.

Lemma ratioMap_prefix (l1 l2 : list (Doubles.double * AppHandlers.AspectRatio))
    (e x : Doubles.double * AppHandlers.AspectRatio) :
  AppHandlers.ratioMap = l1 ++ e :: l2 ->
  In x AppHandlers.ratioMap ->
  AppHandlers.tableIndex (snd x) < AppHandlers.tableIndex (snd e) ->
  In x l1.
Proof.
  unfold AppHandlers.ratioMap. intros E Hx L.
  repeat (destruct l1 as [|? l1];
          [ cbn in E; injection E as <- <-; cbn in L;
            cbn in Hx; cbn;
            repeat (destruct Hx as [<-|Hx]; [cbn in L; try lia; tauto|]);
            destruct Hx
          | cbn in E; injection E as <- E ]).
  destruct l1; discriminate E.
Qed.

(** With a quotient that is NaN every comparison fails and the scan stays
    on the first entry. *)
Lemma getClosestAspectRatio_nan (width height : nat) :
  Doubles.isNaN (Doubles.div (Doubles.ofNat width) (Doubles.ofNat height))
    = true ->
  AppHandlers.getClosestAspectRatio width height = AppHandlers.SQUARE.
Proof.
  unfold AppHandlers.getClosestAspectRatio.
  destruct (Doubles.div (Doubles.ofNat width) (Doubles.ofNat height));
    try discriminate.
  intros _. vm_compute. reflexivity.
Qed.

(** X9.  [getClosestAspectRatio] in the arithmetic of the browser, for
    every width and height.  Distances are the doubles
    [Math.abs(r - width / height)].  No supported ratio is strictly closer
    than the one returned, and the one returned is strictly closer than
    every ratio that stands before it in the table: among equal distances
    the earlier entry wins.  When the quotient is NaN (0 by 0) the first
    entry, 1:1, is returned.  An image whose quotient is exactly the number
    of a table entry gets that entry. *)
Theorem getClosestAspectRatio_is_first_closest (width height : nat) :
  let ratio := Doubles.div (Doubles.ofNat width) (Doubles.ofNat height) in
  let best := AppHandlers.getClosestAspectRatio width height in
  (forall a,
     Doubles.ltb (AppHandlers.distance ratio a)
                 (AppHandlers.distance ratio best) = false) /\
  (forall a,
     AppHandlers.tableIndex a < AppHandlers.tableIndex best ->
     Doubles.ltb (AppHandlers.distance ratio best)
                 (AppHandlers.distance ratio a) = true) /\
  (Doubles.isNaN ratio = true -> best = AppHandlers.SQUARE) /\
  (forall a, ratio = AppHandlers.ratioOf a -> best = a).
Proof.
  intros ratio best.
  assert (N : Doubles.isNaN ratio = true -> best = AppHandlers.SQUARE)
    by apply getClosestAspectRatio_nan.
  assert (First :
    (forall a,
       Doubles.ltb (AppHandlers.distance ratio a)
                   (AppHandlers.distance ratio best) = false) /\
    (forall a,
       AppHandlers.tableIndex a < AppHandlers.tableIndex best ->
       Doubles.ltb (AppHandlers.distance ratio best)
                   (AppHandlers.distance ratio a) = true)).
  { destruct (Doubles.isNaN ratio) eqn:En.
    - rewrite (N eq_refl). split.
      + intros a. unfold AppHandlers.distance.
        destruct ratio; try discriminate En. destruct a; reflexivity.
      + intros a L. cbn in L. lia.
    - assert (Dist : forall a, Doubles.isAbsolute (AppHandlers.distance ratio a)
                                = true).
      { intros a. apply abs_absolute, sub_not_nan;
          [apply ratioOf_finite|exact En]. }
      assert (Dabs : forall e : Doubles.double * AppHandlers.AspectRatio,
                In e (AppHandlers.ratioMap) ->
                Doubles.isAbsolute (Doubles.abs (Doubles.sub (fst e) ratio))
                = true).
      { intros e He. rewrite (@ratioMap_entries e He). apply Dist. }
      destruct (@scan_first_minimum _
                  (fun e : Doubles.double * AppHandlers.AspectRatio =>
                     Doubles.abs (Doubles.sub (fst e) ratio))
                  (tl AppHandlers.ratioMap)
                  (Doubles.ofZ 1, AppHandlers.SQUARE) Dabs)
        as (l1 & l2 & E & H1 & H2).
      set (r := fold_left _ _ _) in *.
      assert (B : best = snd r) by reflexivity.
      assert (M : AppHandlers.ratioMap = l1 ++ r :: l2) by exact E.
      assert (Rin : In r AppHandlers.ratioMap)
        by (rewrite M; apply in_or_app; right; now left).
      assert (Rf : fst r = AppHandlers.ratioOf best)
        by (rewrite B; now apply ratioMap_entries).
      rewrite Rf in H1, H2.
      fold (AppHandlers.distance ratio best) in H1, H2.
      assert (Irr : forall a, Doubles.ltb (AppHandlers.distance ratio a)
                                          (AppHandlers.distance ratio a) = false).
      { intros a. pose proof (Dist a) as Ab.
        unfold Doubles.ltb, SFltb, SFcompare.
        destruct (AppHandlers.distance ratio a) as [[]|[]| |[] m e];
          try discriminate Ab; try reflexivity.
        rewrite Z.compare_refl.
        change (Pos.compare_cont Eq m m) with (Pos.compare m m).
        now rewrite Pos.compare_refl. }
      split.
      + intros a. pose proof (ratioMap_complete a) as Ha.
        rewrite M in Ha. apply in_app_or in Ha.
        destruct Ha as [Ha|[Ha|Ha]].
        * specialize (H1 _ Ha). cbn [fst] in H1.
          fold (AppHandlers.distance ratio a) in H1.
          destruct (Doubles.ltb (AppHandlers.distance ratio a)
                                (AppHandlers.distance ratio best)) eqn:L;
            [|reflexivity].
          pose proof (@ltb_trans _ _ _ (Dist a) (Dist best) (Dist a) L H1) as T.
          rewrite Irr in T. discriminate T.
        * assert (Ea : a = best) by (rewrite B, Ha; reflexivity).
          rewrite Ea. apply Irr.
        * specialize (H2 _ Ha). cbn [fst] in H2. exact H2.
      + intros a L.
        apply (H1 (AppHandlers.ratioOf a, a)).
        apply (@ratioMap_prefix l1 l2 r); [exact M|apply ratioMap_complete|].
        cbn [snd]. now rewrite <- B. }
  destruct First as (Closest & Strict).
  split; [exact Closest|]. split; [exact Strict|]. split; [exact N|].
  intros a Ea. pose proof (Closest a) as C.
  unfold AppHandlers.distance in C. rewrite Ea in C.
  destruct a, best; try reflexivity; vm_compute in C; discriminate C.
Qed.

Lemma getClosestAspectRatio_is_first_closest_witness :
  AppHandlers.getClosestAspectRatio 1920 1080 = AppHandlers.WIDE /\
  AppHandlers.getClosestAspectRatio 7 6 = AppHandlers.STANDARD /\
  AppHandlers.getClosestAspectRatio 1400 900 = AppHandlers.WIDE /\
  AppHandlers.getClosestAspectRatio 0 0 = AppHandlers.SQUARE.
Proof.
  split; [|split; [|split]].
  - apply (proj2 (proj2 (proj2
             (getClosestAspectRatio_is_first_closest 1920 1080)))).
    vm_compute. reflexivity.
  - vm_compute. reflexivity.
  - vm_compute. reflexivity.
  - apply (proj1 (proj2 (proj2
             (getClosestAspectRatio_is_first_closest 0 0)))).
    vm_compute. reflexivity.
Defined.

(** ** Freehand strokes *)

Lemma gallery_setCanvas_twice (a b : option Canvas) (g : Gallery.State) :
  Gallery.setCanvas a (Gallery.setCanvas b g) = Gallery.setCanvas a g.
Proof. reflexivity. Qed.

Lemma gallery_coordinates_same_size (e : MouseEvent) (rect : DOMRect)
    (g : Gallery.State) (cv cv' : Canvas) :
  Gallery.canvasRef g = Some cv ->
  width cv' = width cv -> height cv' = height cv ->
  Gallery.getCoordinates e rect (Gallery.setCanvas (Some cv') g)
  = Gallery.getCoordinates e rect g.
Proof.
  intros Hc Ew Eh. unfold Gallery.getCoordinates. gallery_simpl.
  rewrite Hc, Ew, Eh. reflexivity.
Qed.

Section BrushStroke.

Variable rasterize : Rasterizer.

Variables (g1 : Gallery.State) (cv1 : Canvas) (k1 : Context2D).
Hypothesis Hd : Gallery.isDrawing g1 = true.
Hypothesis Hp : Gallery.isPainting g1 = true.
Hypothesis Ht : Gallery.activeTool g1 = Gallery.brush.
Hypothesis Hc : Gallery.canvasRef g1 = Some cv1.
Hypothesis Hk : context cv1 = Some k1.

Let point (m : MouseEvent * DOMRect) : PathCmd :=
  lineToPoint (Gallery.getCoordinates (fst m) (snd m) g1).

Lemma brush_moves (ms : list (MouseEvent * DOMRect)) :
  exists (cvN : Canvas) (kN : Context2D),
    playMoves rasterize ms g1 = Gallery.setCanvas (Some cvN) g1 /\
    width cvN = width cv1 /\ height cvN = height cv1 /\
    context cvN = Some kN /\
    path kN = path k1 ++ map point ms /\
    strokeStyle kN = strokeStyle k1 /\ lineWidth kN = lineWidth k1 /\
    lineCap kN = lineCap k1 /\ lineJoin kN = lineJoin k1.
Proof.
  induction ms as [|m ms IH] using rev_ind.
  - exists cv1, k1. cbn. rewrite app_nil_r. repeat split; try assumption.
    destruct g1; cbn in *. now rewrite Hc.
  - destruct IH as (cvN & kN & E & Ew & Eh & Ek & Epath & S1 & S2 & S3 & S4).
    unfold playMoves in *. rewrite fold_left_app. cbn [fold_left].
    rewrite E. unfold Gallery.draw.
    rewrite (@gallery_coordinates_same_size (fst m) (snd m) g1 cv1 cvN Hc Ew Eh).
    gallery_simpl. rewrite Hd, Hp, Ht. cbn [negb orb].
    destruct (Gallery.getCoordinates (fst m) (snd m) g1) as [x y] eqn:Exy.
    unfold getContext. rewrite Ek. cbn [fst].
    eexists. eexists. split; [reflexivity|].
    unfold stroke, lineTo, updContext, setPath.
    cbn [context width height option_map]. rewrite Ek. cbn [option_map].
    cbn [width height context path strokeStyle lineWidth lineCap lineJoin].
    repeat split; try assumption.
    rewrite Epath, map_app, app_assoc. cbn [map]. unfold point, lineToPoint.
    rewrite Exy. reflexivity.
Qed.

Lemma brush_last_move (ms : list (MouseEvent * DOMRect))
    (m : MouseEvent * DOMRect) (cvN : Canvas) :
  Gallery.canvasRef (playMoves rasterize ms g1) = Some cvN ->
  exists (cvM : Canvas) (kM : Context2D),
    Gallery.canvasRef (playMoves rasterize (ms ++ [m]) g1) = Some cvM /\
    context cvM = Some kM /\
    path kM = path k1 ++ map point ms ++ [point m] /\
    bitmap cvM = rasterize kM (width cv1) (height cv1) (bitmap cvN).
Proof.
  intros HN.
  destruct (brush_moves ms)
    as (cvN' & kN & E & Ew & Eh & Ek & Epath & S1 & S2 & S3 & S4).
  rewrite E in HN. cbn in HN. injection HN as ->.
  unfold playMoves in *. rewrite fold_left_app. cbn [fold_left].
  rewrite E. unfold Gallery.draw.
  rewrite (@gallery_coordinates_same_size (fst m) (snd m) g1 cv1 cvN Hc Ew Eh).
  gallery_simpl. rewrite Hd, Hp, Ht. cbn [negb orb].
  destruct (Gallery.getCoordinates (fst m) (snd m) g1) as [x y] eqn:Exy.
  unfold getContext. rewrite Ek. cbn [fst]. gallery_simpl.
  eexists. eexists. split; [reflexivity|].
  unfold stroke, lineTo, updContext, setPath.
  cbn [context width height option_map]. rewrite Ek. cbn [option_map].
  cbn [width height context path bitmap].
  split; [reflexivity|]. split.
  - cbn [path]. rewrite Epath, <- app_assoc. unfold point, lineToPoint.
    rewrite Exy. reflexivity.
  - rewrite Ew, Eh. reflexivity.
Qed.

End BrushStroke.

Lemma startDrawing_brush (g : Gallery.State) (cv : Canvas) (k : Context2D)
    (e : MouseEvent) (rect : DOMRect) :
  Gallery.isPainting g = true -> Gallery.activeTool g = Gallery.brush ->
  Gallery.canvasRef g = Some cv -> context cv = Some k ->
  1 <= width cv -> 1 <= height cv ->
  exists k1 : Context2D,
    fst (Gallery.startDrawing e rect g) =
      Gallery.setCanvas
        (Some (mkCanvas (width cv) (height cv) (bitmap cv) (Some k1)))
        (Gallery.setStartPos (Gallery.getCoordinates e rect g)
           (Gallery.setSnapshot
              (Some (mkRaster (width cv) (height cv)
                       (tabulate (width cv) (height cv) (pixelAt (bitmap cv)))))
              (Gallery.setIsDrawing true g))) /\
    path k1 = [MoveTo (fst (Gallery.getCoordinates e rect g))
                      (snd (Gallery.getCoordinates e rect g))] /\
    strokeStyle k1 = "rgba(0, 255, 0, 0.8)"%string /\
    lineCap k1 = "round"%string /\ lineJoin k1 = "round"%string.
Proof.
  intros Hp Ht Hc Hk Hw Hh.
  unfold Gallery.startDrawing. rewrite Hp. cbn [negb].
  destruct (Gallery.getCoordinates e rect (Gallery.setIsDrawing true g))
    as [x y] eqn:Exy.
  assert (Exy' : Gallery.getCoordinates e rect g = (x, y)) by exact Exy.
  gallery_simpl. rewrite Hc. unfold getContext. rewrite Hk.
  unfold getImageData.
  destruct (width cv) as [|w'] eqn:Ew; [lia|].
  destruct (height cv) as [|h'] eqn:Eh; [lia|].
  cbn [Nat.eqb orb]. gallery_simpl. rewrite Ht.
  canvas_unfold. rewrite Hk. canvas_unfold. rewrite Ew, Eh, Exy'.
  destruct (Qle_bool _ _);
    (eexists; split; [reflexivity|]; repeat split).
Qed.

(** X10.  Freehand tool of the Gallery.  After a pointer-down at p0 and
    pointer moves to p1 ... pn the current path is move-to p0 followed by
    line-to p1, ..., line-to pn, with the highlight colour and round caps
    and joins; canvas size, snapshot and start position are those of the
    pointer-down.  Every move strokes the whole path so far on top of the
    pixels left by the move before it. *)
Theorem freehand_path_accumulates
    (rasterize : Rasterizer) (g : Gallery.State) (cv : Canvas) (k : Context2D)
    (down : MouseEvent * DOMRect)
    (ms : list (MouseEvent * DOMRect)) (m : MouseEvent * DOMRect) :
  Gallery.isPainting g = true -> Gallery.activeTool g = Gallery.brush ->
  Gallery.canvasRef g = Some cv -> context cv = Some k ->
  1 <= width cv -> 1 <= height cv ->
  let g1 := fst (Gallery.startDrawing (fst down) (snd down) g) in
  let p0 := Gallery.getCoordinates (fst down) (snd down) g in
  let point := fun mv : MouseEvent * DOMRect =>
                 lineToPoint (Gallery.getCoordinates (fst mv) (snd mv) g1) in
  exists (cvN cvM : Canvas) (kN kM : Context2D),
    playMoves rasterize ms g1 = Gallery.setCanvas (Some cvN) g1 /\
    context cvN = Some kN /\
    path kN = MoveTo (fst p0) (snd p0) :: map point ms /\
    width cvN = width cv /\ height cvN = height cv /\
    strokeStyle kN = "rgba(0, 255, 0, 0.8)"%string /\
    lineCap kN = "round"%string /\ lineJoin kN = "round"%string /\
    Gallery.canvasRef (playMoves rasterize (ms ++ [m]) g1) = Some cvM /\
    context cvM = Some kM /\
    path kM = path kN ++ [point m] /\
    bitmap cvM = rasterize kM (width cv) (height cv) (bitmap cvN).
Proof.
  intros Hp Ht Hc Hk Hw Hh g1 p0 point.
  destruct (startDrawing_brush g (fst down) (snd down) Hp Ht Hc Hk Hw Hh)
    as (k1 & E1 & P1 & S1 & S3 & S4).
  fold g1 in E1. fold p0 in E1, P1.
  set (cv1 := mkCanvas (width cv) (height cv) (bitmap cv) (Some k1)) in *.
  assert (Hd1 : Gallery.isDrawing g1 = true) by (rewrite E1; reflexivity).
  assert (Hp1 : Gallery.isPainting g1 = true) by (rewrite E1; exact Hp).
  assert (Ht1 : Gallery.activeTool g1 = Gallery.brush) by (rewrite E1; exact Ht).
  assert (Hc1 : Gallery.canvasRef g1 = Some cv1) by (rewrite E1; reflexivity).
  destruct (@brush_moves rasterize g1 cv1 k1 Hd1 Hp1 Ht1 Hc1 eq_refl ms)
    as (cvN & kN & E & Ew & Eh & Ek & Epath & T1 & T2 & T3 & T4).
  assert (HN : Gallery.canvasRef (playMoves rasterize ms g1) = Some cvN)
    by (rewrite E; reflexivity).
  destruct (@brush_last_move rasterize g1 cv1 k1 Hd1 Hp1 Ht1 Hc1 eq_refl ms m
              cvN HN) as (cvM & kM & EM & EkM & PM & BM).
  exists cvN, cvM, kN, kM.
  split; [exact E|]. split; [exact Ek|].
  split; [rewrite Epath, P1; reflexivity|].
  split; [exact Ew|]. split; [exact Eh|].
  split; [congruence|]. split; [congruence|]. split; [congruence|].
  split; [exact EM|]. split; [exact EkM|].
  split; [rewrite PM, Epath, app_assoc; reflexivity|exact BM].
Qed.

Lemma freehand_path_accumulates_witness :
  (Gallery.isPainting samplePainting = true /\
   Gallery.activeTool samplePainting = Gallery.brush /\
   Gallery.canvasRef samplePainting
     = Some (mkCanvas 5 4 (blank 5 4) (Some defaultContext)) /\
   1 <= 5 /\ 1 <= 4) /\
  exists (cvN : Canvas) (kN : Context2D),
    Gallery.canvasRef
      (playMoves dotRasterizer sampleMoves
         (fst (Gallery.startDrawing (mkMouse 102 52) sampleRect samplePainting)))
      = Some cvN /\
    context cvN = Some kN /\
    path kN = [MoveTo (2 * (5 / 10)) (2 * (4 / 8));
               LineTo (4 * (5 / 10)) (4 * (4 / 8));
               LineTo (6 * (5 / 10)) (6 * (4 / 8))]%Q.
Proof.
  assert (H : Gallery.isPainting samplePainting = true /\
              Gallery.activeTool samplePainting = Gallery.brush /\
              Gallery.canvasRef samplePainting
                = Some (mkCanvas 5 4 (blank 5 4) (Some defaultContext)) /\
              1 <= 5 /\ 1 <= 4).
  { repeat split; cbn; lia. }
  split; [exact H|]. destruct H as (Hp & Ht & Hc & Hw & Hh).
  destruct (@freehand_path_accumulates dotRasterizer samplePainting
              (mkCanvas 5 4 (blank 5 4) (Some defaultContext)) defaultContext
              (mkMouse 102 52, sampleRect) sampleMoves
              (mkMouse 106 56, sampleRect) Hp Ht Hc eq_refl Hw Hh)
    as (cvN & cvM & kN & kM & E & Ek & P & _).
  exists cvN, kN. cbn [fst snd] in E. rewrite E.
  split; [reflexivity|]. split; [exact Ek|]. rewrite P. reflexivity.
Defined.

(** ** Freehand strokes in the MaskEditor *)

Lemma mask_coordinates_same_size (e : MouseEvent) (rect : DOMRect)
    (m : MaskEditor.State) (cv cv' : Canvas) :
  MaskEditor.canvasRef m = Some cv ->
  width cv' = width cv -> height cv' = height cv ->
  MaskEditor.getCoordinates e rect (MaskEditor.setCanvas (Some cv') m)
  = MaskEditor.getCoordinates e rect m.
Proof.
  intros Hc Ew Eh. unfold MaskEditor.getCoordinates. mask_simpl.
  rewrite Hc, Ew, Eh. reflexivity.
Qed.

Section MaskStroke.

Variable rasterize : Rasterizer.

Variables (m1 : MaskEditor.State) (cv1 : Canvas) (k1 : Context2D).
Hypothesis Hd : MaskEditor.isDrawing m1 = true.
Hypothesis Hc : MaskEditor.canvasRef m1 = Some cv1.
Hypothesis Hk : context cv1 = Some k1.

Let point (mv : MouseEvent * DOMRect) : PathCmd :=
  lineToPoint (MaskEditor.getCoordinates (fst mv) (snd mv) m1).

Lemma mask_moves (ms : list (MouseEvent * DOMRect)) :
  exists (cvN : Canvas) (kN : Context2D),
    playMaskMoves rasterize ms m1 = MaskEditor.setCanvas (Some cvN) m1 /\
    width cvN = width cv1 /\ height cvN = height cv1 /\
    context cvN = Some kN /\
    path kN = path k1 ++ map point ms /\
    strokeStyle kN = strokeStyle k1 /\ lineWidth kN = lineWidth k1 /\
    lineCap kN = lineCap k1 /\ lineJoin kN = lineJoin k1.
Proof.
  induction ms as [|mv ms IH] using rev_ind.
  - exists cv1, k1. cbn. rewrite app_nil_r. repeat split; try assumption.
    destruct m1; cbn in *. now rewrite Hc.
  - destruct IH as (cvN & kN & E & Ew & Eh & Ek & Epath & S1 & S2 & S3 & S4).
    unfold playMaskMoves in *. rewrite fold_left_app. cbn [fold_left].
    rewrite E. unfold MaskEditor.draw.
    rewrite (@mask_coordinates_same_size (fst mv) (snd mv) m1 cv1 cvN Hc Ew Eh).
    mask_simpl. rewrite Hd. cbn [negb].
    destruct (MaskEditor.getCoordinates (fst mv) (snd mv) m1) as [x y] eqn:Exy.
    unfold getContext. rewrite Ek. cbn [fst].
    eexists. eexists. split; [reflexivity|].
    unfold stroke, lineTo, updContext, setPath.
    cbn [context width height option_map]. rewrite Ek. cbn [option_map].
    cbn [width height context path strokeStyle lineWidth lineCap lineJoin].
    repeat split; try assumption.
    rewrite Epath, map_app, app_assoc. cbn [map]. unfold point, lineToPoint.
    rewrite Exy. reflexivity.
Qed.

Lemma mask_last_move (ms : list (MouseEvent * DOMRect))
    (mv : MouseEvent * DOMRect) (cvN : Canvas) :
  MaskEditor.canvasRef (playMaskMoves rasterize ms m1) = Some cvN ->
  exists (cvM : Canvas) (kM : Context2D),
    MaskEditor.canvasRef (playMaskMoves rasterize (ms ++ [mv]) m1) = Some cvM /\
    context cvM = Some kM /\
    path kM = path k1 ++ map point ms ++ [point mv] /\
    bitmap cvM = rasterize kM (width cv1) (height cv1) (bitmap cvN).
Proof.
  intros HN.
  destruct (mask_moves ms) as (cvN' & kN & E & Ew & Eh & Ek & Epath & _).
  rewrite E in HN. mask_simpl. injection HN as ->.
  unfold playMaskMoves in *. rewrite fold_left_app. cbn [fold_left].
  rewrite E. unfold MaskEditor.draw.
  rewrite (@mask_coordinates_same_size (fst mv) (snd mv) m1 cv1 cvN Hc Ew Eh).
  mask_simpl. rewrite Hd. cbn [negb].
  destruct (MaskEditor.getCoordinates (fst mv) (snd mv) m1) as [x y] eqn:Exy.
  unfold getContext. rewrite Ek. cbn [fst]. mask_simpl.
  eexists. eexists. split; [reflexivity|].
  unfold stroke, lineTo, updContext, setPath.
  cbn [context width height option_map]. rewrite Ek. cbn [option_map].
  cbn [width height context path strokeStyle lineWidth lineCap lineJoin bitmap].
  split; [reflexivity|]. split.
  - rewrite Epath, <- app_assoc. unfold point, lineToPoint. rewrite Exy.
    reflexivity.
  - rewrite Ew, Eh. reflexivity.
Qed.

End MaskStroke.

Lemma mask_startDrawing_path (m : MaskEditor.State) (cv : Canvas)
    (k : Context2D) (e : MouseEvent) (rect : DOMRect) :
  MaskEditor.canvasRef m = Some cv -> context cv = Some k ->
  exists k1 : Context2D,
    fst (MaskEditor.startDrawing e rect m) =
      MaskEditor.setCanvas
        (Some (mkCanvas (width cv) (height cv) (bitmap cv) (Some k1)))
        (MaskEditor.setIsDrawing true m) /\
    path k1 = [MoveTo (fst (MaskEditor.getCoordinates e rect m))
                      (snd (MaskEditor.getCoordinates e rect m))] /\
    strokeStyle k1 = "rgba(0, 255, 0, 0.8)"%string /\
    lineCap k1 = "round"%string /\ lineJoin k1 = "round"%string.
Proof.
  intros Hc Hk. unfold MaskEditor.startDrawing.
  destruct (MaskEditor.getCoordinates e rect (MaskEditor.setIsDrawing true m))
    as [x y] eqn:Exy.
  assert (Exy' : MaskEditor.getCoordinates e rect m = (x, y)) by exact Exy.
  mask_simpl. rewrite Hc. unfold getContext. rewrite Hk.
  canvas_unfold. rewrite Hk. canvas_unfold. rewrite Exy'.
  destruct (Qle_bool _ _);
    (eexists; split; [reflexivity|]; repeat split).
Qed.

(** X11.  Freehand stroke in the MaskEditor.  A pointer-down at p0 needs no
    edit mode and takes no snapshot: it leaves the pixels as they are and
    starts the path at p0 with the highlight colour and round caps and
    joins.  The moves to p1 ... pn extend that path by one line-to each,
    and every move strokes the whole path so far on top of the pixels left
    by the move before it. *)
Theorem mask_freehand_path_accumulates
    (rasterize : Rasterizer) (m : MaskEditor.State) (cv : Canvas)
    (k : Context2D) (down : MouseEvent * DOMRect)
    (ms : list (MouseEvent * DOMRect)) (mv : MouseEvent * DOMRect) :
  MaskEditor.canvasRef m = Some cv -> context cv = Some k ->
  let m1 := fst (MaskEditor.startDrawing (fst down) (snd down) m) in
  let p0 := MaskEditor.getCoordinates (fst down) (snd down) m in
  let point := fun q : MouseEvent * DOMRect =>
                 lineToPoint (MaskEditor.getCoordinates (fst q) (snd q) m1) in
  exists (cv1 cvN cvM : Canvas) (kN kM : Context2D),
    MaskEditor.canvasRef m1 = Some cv1 /\ bitmap cv1 = bitmap cv /\
    playMaskMoves rasterize ms m1 = MaskEditor.setCanvas (Some cvN) m1 /\
    context cvN = Some kN /\
    path kN = MoveTo (fst p0) (snd p0) :: map point ms /\
    width cvN = width cv /\ height cvN = height cv /\
    strokeStyle kN = "rgba(0, 255, 0, 0.8)"%string /\
    lineCap kN = "round"%string /\ lineJoin kN = "round"%string /\
    MaskEditor.canvasRef (playMaskMoves rasterize (ms ++ [mv]) m1) = Some cvM /\
    context cvM = Some kM /\
    path kM = path kN ++ [point mv] /\
    bitmap cvM = rasterize kM (width cv) (height cv) (bitmap cvN).
Proof.
  intros Hc Hk m1 p0 point.
  destruct (mask_startDrawing_path m (fst down) (snd down) Hc Hk)
    as (k1 & E1 & P1 & S1 & S3 & S4).
  fold m1 in E1. fold p0 in P1.
  set (cv1 := mkCanvas (width cv) (height cv) (bitmap cv) (Some k1)) in *.
  assert (Hd1 : MaskEditor.isDrawing m1 = true) by (rewrite E1; reflexivity).
  assert (Hc1 : MaskEditor.canvasRef m1 = Some cv1) by (rewrite E1; reflexivity).
  destruct (@mask_moves rasterize m1 cv1 k1 Hd1 Hc1 eq_refl ms)
    as (cvN & kN & E & Ew & Eh & Ek & Epath & T1 & T2 & T3 & T4).
  assert (HN : MaskEditor.canvasRef (playMaskMoves rasterize ms m1) = Some cvN)
    by (rewrite E; reflexivity).
  destruct (@mask_last_move rasterize m1 cv1 k1 Hd1 Hc1 eq_refl ms mv
              cvN HN) as (cvM & kM & EM & EkM & PM & BM).
  exists cv1, cvN, cvM, kN, kM.
  split; [exact Hc1|]. split; [reflexivity|].
  split; [exact E|]. split; [exact Ek|].
  split; [rewrite Epath, P1; reflexivity|].
  split; [exact Ew|]. split; [exact Eh|].
  split; [congruence|]. split; [congruence|]. split; [congruence|].
  split; [exact EM|]. split; [exact EkM|].
  split; [rewrite PM, Epath, app_assoc; reflexivity|exact BM].
Qed.

Lemma mask_freehand_path_accumulates_witness :
  MaskEditor.canvasRef sampleMask
    = Some (mkCanvas 5 4 (blank 5 4) (Some defaultContext)) /\
  exists (cvN : Canvas) (kN : Context2D),
    MaskEditor.canvasRef
      (playMaskMoves dotRasterizer sampleMoves
         (fst (MaskEditor.startDrawing (mkMouse 102 52) sampleRect sampleMask)))
      = Some cvN /\
    context cvN = Some kN /\
    path kN = [MoveTo (2 * (5 / 10)) (2 * (4 / 8));
               LineTo (4 * (5 / 10)) (4 * (4 / 8));
               LineTo (6 * (5 / 10)) (6 * (4 / 8))]%Q.
Proof.
  assert (Hc : MaskEditor.canvasRef sampleMask
               = Some (mkCanvas 5 4 (blank 5 4) (Some defaultContext)))
    by reflexivity.
  split; [exact Hc|].
  destruct (@mask_freehand_path_accumulates dotRasterizer sampleMask
              (mkCanvas 5 4 (blank 5 4) (Some defaultContext)) defaultContext
              (mkMouse 102 52, sampleRect) sampleMoves
              (mkMouse 106 56, sampleRect) Hc eq_refl)
    as (cv1 & cvN & cvM & kN & kM & _ & _ & E & Ek & P & _).
  exists cvN, kN. cbn [fst snd] in E. rewrite E.
  split; [reflexivity|]. split; [exact Ek|]. rewrite P. reflexivity.
Defined.

(** ** Edit mode and the pointer *)

(** X12.  Outside edit mode the pointer cannot paint: whatever pointer
    events reach the canvas (down, move, up, leave, in any order and under
    any layout rectangle), the state stays as it was, except that a
    pointer-up or pointer-leave clears the drawing flag.  Overlay, snapshot,
    start position and the images added are untouched. *)
Theorem view_mode_ignores_pointer (rasterize : Rasterizer)
    (g : Gallery.State) (evs : list GalleryEvent) :
  Gallery.isPainting g = false ->
  forallb pointerEvent evs = true ->
  let g' := fold_left (galleryStep rasterize) evs g in
  (g' = g \/ g' = Gallery.setIsDrawing false g) /\
  Gallery.canvasRef g' = Gallery.canvasRef g /\
  Gallery.snapshotRef g' = Gallery.snapshotRef g /\
  Gallery.startPosRef g' = Gallery.startPosRef g /\
  Gallery.added g' = Gallery.added g.
Proof.
  intros Hp Hevs g'.
  assert (G : forall g0, g0 = g \/ g0 = Gallery.setIsDrawing false g ->
                fold_left (galleryStep rasterize) evs g0 = g \/
                fold_left (galleryStep rasterize) evs g0
                  = Gallery.setIsDrawing false g).
  { clear g'. induction evs as [|ev evs IH]; intros g0 H0; [exact H0|].
    cbn [forallb] in Hevs. apply andb_prop in Hevs as (Hev & Hevs).
    cbn [fold_left]. apply (IH Hevs).
    assert (Hp0 : Gallery.isPainting g0 = false)
      by (destruct H0 as [-> | ->]; exact Hp).
    destruct ev; try discriminate Hev; cbn [galleryStep].
    - unfold Gallery.startDrawing. rewrite Hp0. exact H0.
    - unfold Gallery.draw. rewrite Hp0, orb_true_r. exact H0.
    - right. destruct H0 as [-> | ->]; reflexivity.
    - right. destruct H0 as [-> | ->]; reflexivity. }
  assert (H : g' = g \/ g' = Gallery.setIsDrawing false g)
    by (apply G; now left).
  split; [exact H|].
  destruct H as [-> | ->]; repeat split; reflexivity.
Qed.

Lemma view_mode_ignores_pointer_witness :
  (Gallery.isPainting sampleViewing = false /\
   forallb pointerEvent
     [MouseDown (mkMouse 102 52) sampleRect;
      MouseMove (mkMouse 106 56) sampleRect; MouseUp] = true) /\
  Gallery.canvasRef
    (fold_left (galleryStep dotRasterizer)
       [MouseDown (mkMouse 102 52) sampleRect;
        MouseMove (mkMouse 106 56) sampleRect; MouseUp] sampleViewing)
  = Gallery.canvasRef sampleViewing.
Proof.
  assert (H : Gallery.isPainting sampleViewing = false /\
              forallb pointerEvent
                [MouseDown (mkMouse 102 52) sampleRect;
                 MouseMove (mkMouse 106 56) sampleRect; MouseUp] = true)
    by (split; reflexivity).
  split; [exact H|]. destruct H as (Hp & He).
  exact (proj1 (proj2 (@view_mode_ignores_pointer dotRasterizer sampleViewing
                         _ Hp He))).
Defined.

Lemma sizeCanvas_noop (g : Gallery.State) :
  gallerySized g -> Gallery.sizeCanvas g = g.
Proof.
  unfold gallerySized, Gallery.sizeCanvas.
  destruct (Gallery.previewImage g) as [p|]; [|reflexivity].
  intros (Hi & cv & Hc & Ew & Eh). rewrite Hi, Hc.
  unfold naturalWidth, naturalHeight. cbn [decoded content].
  rewrite Ew, Eh, !Nat.eqb_refl. reflexivity.
Qed.

(** X13.  In every state that a Gallery reaches from its initial state,
    switching edit mode on or off only flips the flag: the sizing effect
    that runs afterwards finds the overlay at the image's size and leaves
    its pixels, so what was painted survives leaving and entering edit
    mode, and switching twice gives back the state. *)
Theorem togglePainting_keeps_overlay (rasterize : Rasterizer)
    (evs : list GalleryEvent) :
  let g := galleryRun rasterize evs in
  Gallery.togglePainting g
    = Gallery.setIsPainting (negb (Gallery.isPainting g)) g /\
  Gallery.canvasRef (Gallery.togglePainting g) = Gallery.canvasRef g /\
  Gallery.togglePainting (Gallery.togglePainting g) = g.
Proof.
  intros g.
  assert (Hs : gallerySized g) by apply galleryRun_sized.
  assert (T : forall h, gallerySized h ->
                Gallery.togglePainting h
                = Gallery.setIsPainting (negb (Gallery.isPainting h)) h).
  { intros h Hh. unfold Gallery.togglePainting. apply sizeCanvas_noop.
    exact Hh. }
  split; [now apply T|]. split; [now rewrite T|].
  rewrite (T g Hs). rewrite T by exact Hs.
  gallery_simpl. rewrite negb_involutive. destruct g; reflexivity.
Qed.

(** ** The MaskEditor: loading and saving *)

(** X14.  The load event of the MaskEditor image.  The first load gives the
    overlay the natural size of the image, with every pixel transparent and
    the context state reset: strokes painted and stroke styles set before
    the image had loaded are lost.  The drawing flag and the brush size are
    kept.  A further load event changes nothing. *)
Theorem mask_load_resets_overlay_once (m : MaskEditor.State)
    (img : ImgElement) (cv : Canvas) :
  MaskEditor.imageRef m = Some img -> MaskEditor.canvasRef m = Some cv ->
  MaskEditor.imgLoaded m = false ->
  let W := r_width (content img) in
  let H := r_height (content img) in
  MaskEditor.canvasRef (MaskEditor.onLoad m)
    = Some (mkCanvas W H (blank W H) (resetContext (context cv))) /\
  MaskEditor.imgLoaded (MaskEditor.onLoad m) = true /\
  MaskEditor.isDrawing (MaskEditor.onLoad m) = MaskEditor.isDrawing m /\
  MaskEditor.brushSize (MaskEditor.onLoad m) = MaskEditor.brushSize m /\
  MaskEditor.saved (MaskEditor.onLoad m) = MaskEditor.saved m /\
  MaskEditor.onLoad (MaskEditor.onLoad m) = MaskEditor.onLoad m.
Proof.
  intros Hi Hc Hl W H.
  assert (E : MaskEditor.onLoad m
              = MaskEditor.mkState
                  (Some (mkCanvas W H (blank W H) (resetContext (context cv))))
                  (Some (mkImg true (content img)))
                  (MaskEditor.brushSize m) (MaskEditor.isDrawing m) true
                  (MaskEditor.saved m)).
  { unfold MaskEditor.onLoad. rewrite Hl.
    unfold MaskEditor.sizeCanvas. mask_simpl. rewrite Hi, Hc.
    cbn [option_map]. mask_simpl.
    unfold naturalWidth, naturalHeight, setHeight, setWidth.
    cbn [decoded content width height context]. fold W H.
    destruct (context cv); reflexivity. }
  rewrite E. mask_simpl.
  repeat (split; [reflexivity|]).
  reflexivity.
Qed.

Lemma mask_load_resets_overlay_once_witness :
  (MaskEditor.imageRef
     (fst (MaskEditor.startDrawing (mkMouse 101 51) sampleRect
             (MaskEditor.mount true sampleImage)))
   = Some (mkImg false sampleImage) /\
   MaskEditor.imgLoaded
     (fst (MaskEditor.startDrawing (mkMouse 101 51) sampleRect
             (MaskEditor.mount true sampleImage))) = false) /\
  MaskEditor.canvasRef
    (MaskEditor.onLoad
       (fst (MaskEditor.startDrawing (mkMouse 101 51) sampleRect
               (MaskEditor.mount true sampleImage))))
  = Some (mkCanvas 5 4 (blank 5 4) (Some defaultContext)).
Proof.
  split; [split; reflexivity|].
  exact (proj1 (@mask_load_resets_overlay_once
                  (fst (MaskEditor.startDrawing (mkMouse 101 51) sampleRect
                          (MaskEditor.mount true sampleImage)))
                  (mkImg false sampleImage) _ eq_refl eq_refl eq_refl)).
Defined.

(** X15.  Saving from the MaskEditor, in any state that the editor reaches
    after mounting in which the image has loaded: [onSave] receives one
    image of the natural size of the photo, each pixel of it the overlay
    pixel composited source-over onto the photo's pixel; the editor itself
    keeps its overlay, brush and flags. *)
Theorem mask_save_composites_over_image (rasterize : Rasterizer)
    (imageUrl : Raster) (evs : list MaskEvent) :
  let m := maskRun rasterize true imageUrl evs in
  MaskEditor.imgLoaded m = true ->
  1 <= r_width imageUrl -> 1 <= r_height imageUrl ->
  exists (cv : Canvas) (out : Raster),
    MaskEditor.canvasRef m = Some cv /\
    MaskEditor.handleSave true m
      = (MaskEditor.mkState (MaskEditor.canvasRef m) (MaskEditor.imageRef m)
           (MaskEditor.brushSize m) (MaskEditor.isDrawing m)
           (MaskEditor.imgLoaded m) (MaskEditor.saved m ++ [out]), None) /\
    r_width out = r_width imageUrl /\ r_height out = r_height imageUrl /\
    forall x y, x < r_width imageUrl -> y < r_height imageUrl ->
      pixelAt (r_data out) x y
      = over (pixelAt (bitmap cv) x y) (pixelAt (r_data imageUrl) x y).
Proof.
  intros m Hl Hw Hh.
  destruct (maskRun_sized rasterize true imageUrl evs) as (Hi & cv & Hc & Hs).
  fold m in Hi, Hc, Hs. destruct (Hs Hl) as (Ew & Eh).
  exists cv. unfold MaskEditor.handleSave. rewrite Hi, Hc, Hl.
  unfold naturalWidth, naturalHeight, drawImageElement, drawImageCanvas.
  cbn [decoded content]. canvas_simpl.
  destruct (width cv) as [|w'] eqn:Ewc; [lia|].
  destruct (height cv) as [|h'] eqn:Ehc; [lia|].
  cbn [Nat.eqb orb].
  eexists. split; [reflexivity|]. split; [reflexivity|].
  cbn [toDataURL r_width r_height r_data].
  split; [reflexivity|]. split; [reflexivity|].
  intros x y Hx Hy.
  apply (@composite_pixel imageUrl (canvasSource cv) (Some defaultContext) x y);
    cbn [canvasSource toDataURL r_width r_height];
    try assumption; congruence.
Qed.

Lemma mask_save_composites_over_image_witness :
  (MaskEditor.imgLoaded (maskRun dotRasterizer true sampleImage sampleMaskPainted)
   = true /\ 1 <= 5 /\ 1 <= 4) /\
  exists out : Raster,
    MaskEditor.saved
      (fst (MaskEditor.handleSave true
              (maskRun dotRasterizer true sampleImage sampleMaskPainted)))
    = [out] /\ r_width out = 5 /\ r_height out = 4 /\
    pixelAt (r_data out) 3 2 = mkPixel 1 204 1 255.
Proof.
  assert (H : MaskEditor.imgLoaded
                (maskRun dotRasterizer true sampleImage sampleMaskPainted)
              = true /\ 1 <= 5 /\ 1 <= 4)
    by (split; [vm_compute; reflexivity|lia]).
  split; [exact H|]. destruct H as (Hl & Hw & Hh).
  destruct (@mask_save_composites_over_image dotRasterizer sampleImage
              sampleMaskPainted Hl Hw Hh) as (cv & out & Hc & E & Ew & Eh & P).
  exists out. rewrite E. cbn [fst MaskEditor.saved].
  assert (S0 : MaskEditor.saved
                 (maskRun dotRasterizer true sampleImage sampleMaskPainted) = [])
    by (vm_compute; reflexivity).
  rewrite S0. split; [reflexivity|]. split; [exact Ew|]. split; [exact Eh|].
  rewrite P by (cbn; lia).
  vm_compute in Hc. injection Hc as <-. reflexivity.
Defined.

(** X16.  Saving from the MaskEditor before the image has loaded, in any
    state reached after mounting: the natural size of the image is still 0
    by 0, so [onSave] is called with an empty 0 by 0 image, whatever was
    painted on the placeholder overlay; nothing is raised and the editor
    state is otherwise unchanged. *)
Theorem mask_save_before_load_is_empty (rasterize : Rasterizer)
    (imageUrl : Raster) (evs : list MaskEvent) :
  let m := maskRun rasterize true imageUrl evs in
  MaskEditor.imgLoaded m = false ->
  MaskEditor.handleSave true m
  = (MaskEditor.mkState (MaskEditor.canvasRef m) (MaskEditor.imageRef m)
       (MaskEditor.brushSize m) (MaskEditor.isDrawing m)
       (MaskEditor.imgLoaded m) (MaskEditor.saved m ++ [mkRaster 0 0 []]),
     None).
Proof.
  intros m Hl.
  destruct (maskRun_sized rasterize true imageUrl evs) as (Hi & _).
  destruct (@maskRun_placeholder rasterize true imageUrl evs Hl)
    as (cv & Hc & Ew & Eh).
  fold m in Hi, Hc. unfold MaskEditor.handleSave. rewrite Hi, Hc, Hl.
  unfold naturalWidth, naturalHeight, drawImageElement, drawImageCanvas.
  cbn [decoded content]. canvas_simpl. rewrite Ew, Eh.
  cbn [Nat.eqb orb]. reflexivity.
Qed.

Lemma mask_save_before_load_is_empty_witness :
  MaskEditor.imgLoaded
    (maskRun dotRasterizer true sampleImage
       [MaskDown (mkMouse 101 51) sampleRect;
        MaskMove (mkMouse 103 53) sampleRect]) = false /\
  MaskEditor.saved
    (fst (MaskEditor.handleSave true
            (maskRun dotRasterizer true sampleImage
               [MaskDown (mkMouse 101 51) sampleRect;
                MaskMove (mkMouse 103 53) sampleRect])))
  = [mkRaster 0 0 []].
Proof.
  assert (Hl : MaskEditor.imgLoaded
                 (maskRun dotRasterizer true sampleImage
                    [MaskDown (mkMouse 101 51) sampleRect;
                     MaskMove (mkMouse 103 53) sampleRect]) = false)
    by reflexivity.
  split; [exact Hl|].
  rewrite (@mask_save_before_load_is_empty dotRasterizer sampleImage _ Hl).
  reflexivity.
Defined.

(** ** Saving from the Gallery *)

(** X17.  A successful export from the Gallery editor hands exactly one new
    image to [onAddImage], with the given id and time stamp, the prompt of
    the previewed image prefixed by "[MASKED] ", its aspect ratio and no
    full grid, and closes the lightbox: preview, overlay and image element
    are gone.  Edit mode and the tool are left as they were.  Any further
    export from that state does nothing. *)
Theorem save_adds_one_image_and_closes
    (g : Gallery.State) (preview : GeneratedImage) (cv : Canvas)
    (el : ImgElement) (uuid : string) (now : Z) :
  Gallery.previewImage g = Some preview ->
  Gallery.canvasRef g = Some cv -> Gallery.imageRef g = Some el ->
  1 <= width cv -> 1 <= height cv ->
  let g' := fst (Gallery.handleSaveComposite true true uuid now g) in
  (exists out : Raster,
     Gallery.added g' =
       Gallery.added g ++
       [mkGeneratedImage uuid out None
          ("[MASKED] " ++ prompt preview)%string (aspectRatio preview) now] /\
     r_width out = naturalWidth el /\ r_height out = naturalHeight el) /\
  Gallery.previewImage g' = None /\
  Gallery.canvasRef g' = None /\ Gallery.imageRef g' = None /\
  Gallery.isPainting g' = Gallery.isPainting g /\
  Gallery.activeTool g' = Gallery.activeTool g /\
  forall (onAddImage ctxAvailable : bool) (uuid2 : string) (now2 : Z),
    Gallery.handleSaveComposite onAddImage ctxAvailable uuid2 now2 g'
    = (g', None).
Proof.
  intros Hp Hc Hi Hw Hh g'.
  assert (E : exists out : Raster,
            g' = Gallery.closePreview
                   (Gallery.addImage
                      (mkGeneratedImage uuid out None
                         ("[MASKED] " ++ prompt preview)%string
                         (aspectRatio preview) now) g) /\
            r_width out = naturalWidth el /\ r_height out = naturalHeight el).
  { subst g'. unfold Gallery.handleSaveComposite. rewrite Hp, Hc, Hi.
    cbn [negb]. unfold drawImageCanvas. canvas_simpl.
    destruct (width cv) as [|w'] eqn:Ewc; [lia|].
    destruct (height cv) as [|h'] eqn:Ehc; [lia|].
    cbn [Nat.eqb orb fst].
    eexists. split; [reflexivity|].
    unfold drawImageElement, drawImage, drawImage9.
    destruct (decoded el); cbn [toDataURL r_width r_height width height];
      split; reflexivity. }
  destruct E as (out & E & Ew & Eh).
  assert (C : forall h, Gallery.closePreview h
              = Gallery.setImage None
                  (Gallery.setCanvas None (Gallery.setPreviewImage None h))).
  { intros h. unfold Gallery.closePreview, Gallery.render. gallery_simpl.
    apply sizeCanvas_closed. reflexivity. }
  rewrite C in E. rewrite E. gallery_simpl.
  split; [exists out; repeat split; assumption|].
  repeat (split; [reflexivity|]).
  intros. reflexivity.
Qed.

Lemma save_adds_one_image_and_closes_witness :
  (Gallery.previewImage samplePainting = Some sampleGenerated /\
   Gallery.canvasRef samplePainting
     = Some (mkCanvas 5 4 (blank 5 4) (Some defaultContext)) /\
   Gallery.imageRef samplePainting = Some (mkImg true sampleImage) /\
   1 <= 5 /\ 1 <= 4) /\
  Gallery.previewImage
    (fst (Gallery.handleSaveComposite true true "c3" 2000 samplePainting))
  = None.
Proof.
  assert (H : Gallery.previewImage samplePainting = Some sampleGenerated /\
              Gallery.canvasRef samplePainting
                = Some (mkCanvas 5 4 (blank 5 4) (Some defaultContext)) /\
              Gallery.imageRef samplePainting = Some (mkImg true sampleImage) /\
              1 <= 5 /\ 1 <= 4).
  { repeat split; cbn; lia. }
  split; [exact H|]. destruct H as (Hp & Hc & Hi & Hw & Hh).
  exact (proj1 (proj2 (@save_adds_one_image_and_closes samplePainting
                         sampleGenerated _ _ "c3"%string 2000%Z
                         Hp Hc Hi Hw Hh))).
Defined.

(** ** Character options of the DirectorDeck *)

Lemma existsb_eqb_In (value : string) (l : list string) :
  existsb (String.eqb value) l = true <-> In value l.
Proof.
  rewrite existsb_exists. split.
  - intros (x & Hin & E). apply String.eqb_eq in E. now subst.
  - intros H. exists value. split; [exact H|apply String.eqb_refl].
Qed.

Lemma filter_neq_In (value v : string) (l : list string) :
  In v (filter (fun item => negb (String.eqb item value)) l)
  <-> In v l /\ v <> value.
Proof.
  rewrite filter_In. split; intros (H1 & H2); (split; [exact H1|]).
  - intros ->. rewrite String.eqb_refl in H2. discriminate.
  - apply negb_true_iff. now apply String.eqb_neq.
Qed.

Lemma filter_neq_absent (value : string) (l : list string) :
  ~ In value l -> filter (fun item => negb (String.eqb item value)) l = l.
Proof.
  induction l as [|x l IH]; [reflexivity|]. intros H. cbn [filter].
  destruct (String.eqb x value) eqn:E.
  - apply String.eqb_eq in E. subst. exfalso. apply H. now left.
  - cbn [negb]. f_equal. apply IH. intros Hin. apply H. now right.
Qed.

Lemma getList_setList_same (c : DirectorDeck.CharacterKey) (l : list string)
    (p : DirectorDeck.CharacterParams) :
  DirectorDeck.getList c (DirectorDeck.setList c l p) = l.
Proof. destruct c; reflexivity. Qed.

Lemma getList_setList_other (c d : DirectorDeck.CharacterKey) (l : list string)
    (p : DirectorDeck.CharacterParams) :
  c <> d ->
  DirectorDeck.getList c (DirectorDeck.setList d l p) = DirectorDeck.getList c p.
Proof. destruct c, d; intros H; try reflexivity; now contradiction H. Qed.

Lemma setList_getList (c : DirectorDeck.CharacterKey) (l : list string)
    (p : DirectorDeck.CharacterParams) :
  DirectorDeck.setList c (DirectorDeck.getList c p) (DirectorDeck.setList c l p)
  = p.
Proof. destruct c, p; reflexivity. Qed.

(** X18.  [toggleCharacterOption] with both props present always calls
    [setCharacterParams], with parameters in which the membership of the
    value in the chosen category is flipped, the membership of every other
    value is as before, and the other two categories are untouched.  A list
    without duplicates stays without duplicates.  Selecting a value that
    was not selected and toggling it again gives back the parameters. *)
Theorem toggleCharacterOption_flips_membership
    (p : DirectorDeck.CharacterParams) (category : DirectorDeck.CharacterKey)
    (value : string) :
  exists p' : DirectorDeck.CharacterParams,
    DirectorDeck.toggleCharacterOption (Some p) true category value = Some p' /\
    (In value (DirectorDeck.getList category p')
     <-> ~ In value (DirectorDeck.getList category p)) /\
    (forall v : string, v <> value ->
       (In v (DirectorDeck.getList category p')
        <-> In v (DirectorDeck.getList category p))) /\
    (forall c : DirectorDeck.CharacterKey, c <> category ->
       DirectorDeck.getList c p' = DirectorDeck.getList c p) /\
    (NoDup (DirectorDeck.getList category p) ->
     NoDup (DirectorDeck.getList category p')) /\
    (~ In value (DirectorDeck.getList category p) ->
     DirectorDeck.getList category p'
       = DirectorDeck.getList category p ++ [value] /\
     DirectorDeck.toggleCharacterOption (Some p') true category value = Some p).
Proof.
  unfold DirectorDeck.toggleCharacterOption. cbn [negb].
  set (l := DirectorDeck.getList category p).
  destruct (existsb (String.eqb value) l) eqn:E.
  - assert (Hin : In value l) by now apply existsb_eqb_In.
    eexists. split; [reflexivity|]. rewrite getList_setList_same.
    split; [|split; [|split; [|split]]].
    + rewrite filter_neq_In. split; [intros (_ & H); now contradiction H|].
      intros H. now contradiction H.
    + intros v Hv. rewrite filter_neq_In. split; [now intros (H & _)|].
      intros H. now split.
    + intros c Hc. now apply getList_setList_other.
    + intros Hn. now apply NoDup_filter.
    + intros H. now contradiction H.
  - assert (Hin : ~ In value l).
    { intros H. apply existsb_eqb_In in H. congruence. }
    eexists. split; [reflexivity|]. rewrite getList_setList_same.
    split; [|split; [|split; [|split]]].
    + split; [intros _; exact Hin|]. intros _. apply in_or_app. right.
      now left.
    + intros v Hv. rewrite in_app_iff. split; [|now left].
      intros [H|[H|[]]]; [exact H|]. now contradiction Hv.
    + intros c Hc. now apply getList_setList_other.
    + intros Hn. apply NoDup_rev in Hn. rewrite <- (rev_involutive (l ++ [value])).
      apply NoDup_rev. rewrite rev_app_distr. cbn [rev app].
      constructor; [|exact Hn]. rewrite <- in_rev. exact Hin.
    + intros _. split; [reflexivity|].
      assert (Ex : existsb (String.eqb value) (l ++ [value]) = true).
      { apply existsb_eqb_In, in_or_app. right. now left. }
      rewrite Ex. rewrite filter_app, filter_neq_absent by exact Hin.
      cbn [filter]. rewrite String.eqb_refl. cbn [negb]. rewrite app_nil_r.
      f_equal. apply setList_getList.
Qed.

(** ** Mentions in the prompt box *)

Lemma substring_prefix (s : DirectorDeck.Text) (n : Z) :
  DirectorDeck.substring s 0 n = firstn (Z.to_nat n) s.
Proof.
  unfold DirectorDeck.substring, DirectorDeck.clamp.
  cbn [Z.to_nat Nat.min Nat.max]. rewrite Nat.sub_0_r. cbn [skipn].
  destruct (Nat.le_ge_cases (Z.to_nat n) (List.length s)) as [H|H].
  - now rewrite Nat.min_l.
  - rewrite Nat.min_r by exact H. now rewrite !firstn_all2.
Qed.

Lemma substringFrom_suffix (s : DirectorDeck.Text) (n : Z) :
  DirectorDeck.substringFrom s n = skipn (Z.to_nat n) s.
Proof.
  unfold DirectorDeck.substringFrom, DirectorDeck.substring, DirectorDeck.clamp.
  rewrite Nat2Z.id, Nat.min_id.
  rewrite Nat.max_r, Nat.min_l by apply Nat.le_min_r.
  rewrite firstn_all2 by (rewrite length_skipn; lia).
  destruct (Nat.le_ge_cases (Z.to_nat n) (List.length s)) as [H|H].
  - now rewrite Nat.min_l.
  - rewrite Nat.min_r by exact H. now rewrite !skipn_all2.
Qed.

Lemma lastIndexOfFrom_absent (c : ascii) (s : DirectorDeck.Text) (i f : Z) :
  DirectorDeck.includes c s = false ->
  DirectorDeck.lastIndexOfFrom c s i f = f.
Proof.
  revert i. induction s as [|x s IH]; intros i H; [reflexivity|].
  cbn [DirectorDeck.includes existsb] in H.
  apply orb_false_elim in H as (Hx & Hs).
  cbn [DirectorDeck.lastIndexOfFrom]. rewrite Hx. now apply IH.
Qed.

Lemma lastIndexOfFrom_app (c : ascii) (l1 l2 : DirectorDeck.Text) (i f : Z) :
  DirectorDeck.lastIndexOfFrom c (l1 ++ l2) i f
  = DirectorDeck.lastIndexOfFrom c l2 (i + Z.of_nat (List.length l1))
      (DirectorDeck.lastIndexOfFrom c l1 i f).
Proof.
  revert i f. induction l1 as [|x l1 IH]; intros i f.
  - cbn. now rewrite Z.add_0_r.
  - cbn [app DirectorDeck.lastIndexOfFrom List.length]. rewrite IH.
    f_equal. lia.
Qed.

Lemma lastIndexOf_split (c : ascii) (pre q : DirectorDeck.Text) :
  DirectorDeck.includes c q = false ->
  DirectorDeck.lastIndexOf c (pre ++ c :: q) = Z.of_nat (List.length pre).
Proof.
  intros H. unfold DirectorDeck.lastIndexOf. rewrite lastIndexOfFrom_app.
  cbn [DirectorDeck.lastIndexOfFrom]. rewrite Ascii.eqb_refl.
  rewrite lastIndexOfFrom_absent by exact H. apply Z.add_0_l.
Qed.

Lemma includes_split (c : ascii) (s : DirectorDeck.Text) :
  DirectorDeck.includes c s = true ->
  exists pre q : DirectorDeck.Text,
    s = pre ++ c :: q /\ DirectorDeck.includes c q = false.
Proof.
  induction s as [|x s IH]; [discriminate|]. intros H.
  destruct (DirectorDeck.includes c s) eqn:E.
  - destruct (IH eq_refl) as (pre & q & -> & Hq).
    exists (x :: pre), q. now split.
  - cbn [DirectorDeck.includes existsb] in H.
    unfold DirectorDeck.includes in E. rewrite E, orb_false_r in H.
    apply Ascii.eqb_eq in H. subst x. exists [], s. now split.
Qed.

Lemma skipn_past (pre q : DirectorDeck.Text) (c : ascii) :
  skipn (Z.to_nat (Z.of_nat (List.length pre) + 1)) (pre ++ c :: q) = q.
Proof.
  replace (Z.to_nat (Z.of_nat (List.length pre) + 1))
    with (List.length pre + 1) by lia.
  rewrite skipn_app, skipn_all2 by lia.
  replace (List.length pre + 1 - List.length pre) with 1 by lia.
  reflexivity.
Qed.

Lemma handlePromptChange_at (val : DirectorDeck.Text) (cursorPos : Z)
    (st : DirectorDeck.PromptState) (pre q : DirectorDeck.Text) :
  firstn (Z.to_nat cursorPos) val = pre ++ "@"%char :: q ->
  DirectorDeck.includes "@" q = false ->
  DirectorDeck.handlePromptChange val cursorPos st
  = if DirectorDeck.includes " " q
    then DirectorDeck.mkPromptState val cursorPos false
           (DirectorDeck.mentionQuery st)
    else DirectorDeck.mkPromptState val cursorPos true q.
Proof.
  intros Hb Hq. unfold DirectorDeck.handlePromptChange.
  rewrite substring_prefix, Hb, lastIndexOf_split by exact Hq.
  replace (Z.of_nat (List.length pre) =? -1)%Z with false
    by (symmetry; apply Z.eqb_neq; lia).
  cbn [negb]. rewrite substringFrom_suffix, skipn_past.
  destruct (DirectorDeck.includes " " q); reflexivity.
Qed.

Lemma handlePromptChange_none (val : DirectorDeck.Text) (cursorPos : Z)
    (st : DirectorDeck.PromptState) :
  DirectorDeck.includes "@" (firstn (Z.to_nat cursorPos) val) = false ->
  DirectorDeck.handlePromptChange val cursorPos st
  = DirectorDeck.mkPromptState val cursorPos false (DirectorDeck.mentionQuery st).
Proof.
  intros H. unfold DirectorDeck.handlePromptChange.
  rewrite substring_prefix. unfold DirectorDeck.lastIndexOf.
  rewrite lastIndexOfFrom_absent by exact H. reflexivity.
Qed.

Lemma insertMention_at (name : DirectorDeck.Text)
    (st : DirectorDeck.PromptState) (pre q : DirectorDeck.Text) :
  firstn (Z.to_nat (DirectorDeck.cursorPosition st)) (DirectorDeck.prompt st)
    = pre ++ "@"%char :: q ->
  DirectorDeck.includes "@" q = false ->
  DirectorDeck.insertMention true name st
  = (DirectorDeck.mkPromptState
       (pre ++ "@"%char :: name ++ " "%char ::
          skipn (Z.to_nat (DirectorDeck.cursorPosition st))
                (DirectorDeck.prompt st))
       (DirectorDeck.cursorPosition st) false (DirectorDeck.mentionQuery st),
     Some (Z.of_nat (List.length (pre ++ "@"%char :: name ++ [" "%char])))).
Proof.
  intros Hb Hq. unfold DirectorDeck.insertMention. cbn [negb].
  rewrite !substring_prefix, substringFrom_suffix, Hb.
  rewrite lastIndexOf_split by exact Hq. rewrite Nat2Z.id.
  assert (Hp : firstn (List.length pre) (DirectorDeck.prompt st) = pre).
  { rewrite <- (firstn_skipn (Z.to_nat (DirectorDeck.cursorPosition st))
                  (DirectorDeck.prompt st)) at 1.
    rewrite Hb, <- app_assoc.
    rewrite firstn_app, firstn_all, Nat.sub_diag. cbn [firstn].
    apply app_nil_r. }
  rewrite Hp. f_equal.
  - f_equal. cbn [app]. now rewrite <- app_assoc.
  - f_equal. rewrite length_app. cbn [List.length].
    rewrite length_app. cbn [List.length]. lia.
Qed.

(** X19.  [handlePromptChange] always stores the new text and cursor.  It
    opens the mention list exactly when the text before the cursor contains
    an "@" with no space between the last "@" and the cursor, and the query
    is then the text between that "@" and the cursor.  With a space after
    the last "@", or with no "@" before the cursor, the list is closed
    and the query keeps its old value. *)
Theorem handlePromptChange_detects_mention (val : DirectorDeck.Text)
    (cursorPos : Z) (st : DirectorDeck.PromptState) :
  let before := firstn (Z.to_nat cursorPos) val in
  let st' := DirectorDeck.handlePromptChange val cursorPos st in
  DirectorDeck.prompt st' = val /\
  DirectorDeck.cursorPosition st' = cursorPos /\
  (forall pre q : DirectorDeck.Text,
     before = pre ++ "@"%char :: q -> DirectorDeck.includes "@" q = false ->
     DirectorDeck.showMentions st' = negb (DirectorDeck.includes " " q) /\
     DirectorDeck.mentionQuery st'
       = if DirectorDeck.includes " " q then DirectorDeck.mentionQuery st
         else q) /\
  (DirectorDeck.includes "@" before = false ->
   DirectorDeck.showMentions st' = false /\
   DirectorDeck.mentionQuery st' = DirectorDeck.mentionQuery st) /\
  (DirectorDeck.showMentions st' = true ->
   exists pre : DirectorDeck.Text,
     before = pre ++ "@"%char :: DirectorDeck.mentionQuery st' /\
     DirectorDeck.includes "@" (DirectorDeck.mentionQuery st') = false /\
     DirectorDeck.includes " " (DirectorDeck.mentionQuery st') = false).
Proof.
  intros before st'.
  assert (A : forall pre q : DirectorDeck.Text,
            before = pre ++ "@"%char :: q ->
            DirectorDeck.includes "@" q = false ->
            st' = if DirectorDeck.includes " " q
                  then DirectorDeck.mkPromptState val cursorPos false
                         (DirectorDeck.mentionQuery st)
                  else DirectorDeck.mkPromptState val cursorPos true q).
  { intros pre q Hb Hq. now apply handlePromptChange_at with (pre := pre). }
  assert (N : DirectorDeck.includes "@" before = false ->
              st' = DirectorDeck.mkPromptState val cursorPos false
                      (DirectorDeck.mentionQuery st)).
  { intros H. now apply handlePromptChange_none. }
  destruct (DirectorDeck.includes "@" before) eqn:E.
  - destruct (includes_split _ _ E) as (pre & q & Hb & Hq).
    pose proof (A pre q Hb Hq) as Est.
    split; [rewrite Est; now destruct (DirectorDeck.includes " " q)|].
    split; [rewrite Est; now destruct (DirectorDeck.includes " " q)|].
    split; [|split; [discriminate|]].
    + intros pre2 q2 Hb2 Hq2. rewrite (A pre2 q2 Hb2 Hq2).
      now destruct (DirectorDeck.includes " " q2).
    + rewrite Est. destruct (DirectorDeck.includes " " q) eqn:Es;
        cbn [DirectorDeck.showMentions DirectorDeck.mentionQuery];
        [discriminate|].
      intros _. exists pre. now repeat split.
  - rewrite (N eq_refl).
    cbn [DirectorDeck.prompt DirectorDeck.cursorPosition
         DirectorDeck.showMentions DirectorDeck.mentionQuery].
    split; [reflexivity|]. split; [reflexivity|].
    split; [|split; [now split|discriminate]].
    intros pre q Hb Hq. exfalso.
    assert (T : DirectorDeck.includes "@" before = true).
    { rewrite Hb. unfold DirectorDeck.includes. rewrite existsb_app.
      cbn [existsb]. rewrite Ascii.eqb_refl. cbn [orb]. apply orb_true_r. }
    congruence.
Qed.

(** X20.  Picking an asset while a mention is being typed.  With the prompt
    [pre @query post] and the cursor right after the query, [insertMention]
    replaces "@query" by "@name " and keeps [pre] and [post]; the mention
    list is closed and the cursor is sent right behind the inserted space.
    The stored cursor position is not updated. *)
Theorem insertMention_replaces_query (name pre q post : DirectorDeck.Text)
    (st : DirectorDeck.PromptState) :
  DirectorDeck.prompt st = pre ++ "@"%char :: q ++ post ->
  DirectorDeck.cursorPosition st
    = Z.of_nat (List.length (pre ++ "@"%char :: q)) ->
  DirectorDeck.includes "@" q = false ->
  DirectorDeck.insertMention true name st
  = (DirectorDeck.mkPromptState
       (pre ++ "@"%char :: name ++ " "%char :: post)
       (DirectorDeck.cursorPosition st) false (DirectorDeck.mentionQuery st),
     Some (Z.of_nat (List.length (pre ++ "@"%char :: name ++ [" "%char])))).
Proof.
  intros Hp Hc Hq.
  assert (Hs : DirectorDeck.prompt st = (pre ++ "@"%char :: q) ++ post)
    by (rewrite Hp, <- app_assoc; reflexivity).
  assert (Hb : firstn (Z.to_nat (DirectorDeck.cursorPosition st))
                 (DirectorDeck.prompt st) = pre ++ "@"%char :: q).
  { rewrite Hc, Nat2Z.id, Hs, firstn_app, firstn_all, Nat.sub_diag.
    cbn [firstn]. apply app_nil_r. }
  assert (Ha : skipn (Z.to_nat (DirectorDeck.cursorPosition st))
                 (DirectorDeck.prompt st) = post).
  { rewrite Hc, Nat2Z.id, Hs, skipn_app, skipn_all, Nat.sub_diag.
    reflexivity. }
  rewrite (@insertMention_at name st pre q Hb Hq), Ha. reflexivity.
Qed.

Lemma insertMention_replaces_query_witness :
  DirectorDeck.insertMention true
    (list_ascii_of_string "Mara")
    (DirectorDeck.mkPromptState (list_ascii_of_string "a @ma b") 5 true
       (list_ascii_of_string "ma"))
  = (DirectorDeck.mkPromptState (list_ascii_of_string "a @Mara  b") 5 false
       (list_ascii_of_string "ma"), Some 8%Z).
Proof.
  exact (@insertMention_replaces_query
           (list_ascii_of_string "Mara") (list_ascii_of_string "a ")
           (list_ascii_of_string "ma") (list_ascii_of_string " b")
           (DirectorDeck.mkPromptState (list_ascii_of_string "a @ma b") 5 true
              (list_ascii_of_string "ma"))
           eq_refl eq_refl eq_refl).
Defined.

(** X21.  [insertMention] with no "@" before the cursor: the search gives
    -1, [substring(0, -1)] is empty, and the new prompt is "@name "
    followed by the text after the cursor.  The text before the cursor is
    dropped, and the cursor is sent to the length of the name plus one. *)
Theorem insertMention_without_at_drops_prefix (name : DirectorDeck.Text)
    (st : DirectorDeck.PromptState) :
  DirectorDeck.includes "@"
    (firstn (Z.to_nat (DirectorDeck.cursorPosition st)) (DirectorDeck.prompt st))
    = false ->
  DirectorDeck.insertMention true name st
  = (DirectorDeck.mkPromptState
       ("@"%char :: name ++ " "%char ::
          skipn (Z.to_nat (DirectorDeck.cursorPosition st))
                (DirectorDeck.prompt st))
       (DirectorDeck.cursorPosition st) false (DirectorDeck.mentionQuery st),
     Some (Z.of_nat (List.length name) + 1)%Z).
Proof.
  intros H. unfold DirectorDeck.insertMention. cbn [negb].
  rewrite !substring_prefix, substringFrom_suffix.
  unfold DirectorDeck.lastIndexOf.
  rewrite lastIndexOfFrom_absent by exact H.
  cbn [Z.to_nat firstn app]. f_equal.
  - f_equal. now rewrite <- app_assoc.
  - f_equal. lia.
Qed.

Lemma insertMention_without_at_drops_prefix_witness :
  DirectorDeck.insertMention true
    (list_ascii_of_string "Mara")
    (DirectorDeck.mkPromptState (list_ascii_of_string "a dog") 2 false [])
  = (DirectorDeck.mkPromptState (list_ascii_of_string "@Mara dog") 2 false [],
     Some 5%Z).
Proof.
  exact (@insertMention_without_at_drops_prefix
           (list_ascii_of_string "Mara")
           (DirectorDeck.mkPromptState (list_ascii_of_string "a dog") 2 false [])
           eq_refl).
Defined.

(** ** The character mode of handleGenerate *)

Lemma viewPrompt_label (views : list string) (prompt : string) :
  String.substring 0 50 (Generate.viewPrompt views prompt)
  = "Character Design Reference Sheet. MANDATORY LAYOUT"%string.
Proof. reflexivity. Qed.

Lemma shotPrompt_label (shots : list string) (prompt : string) :
  String.substring 0 50 (Generate.shotPrompt shots prompt)
  = "Cinematic Character Photography. MANDATORY LAYOUT:"%string.
Proof. reflexivity. Qed.

Lemma expPrompt_label (expressions : list string) (prompt : string) :
  String.substring 0 50 (Generate.expPrompt expressions prompt)
  = "Character Facial Expression Sheet. MANDATORY LAYOU"%string.
Proof. reflexivity. Qed.

Lemma characterGrid_cells (count : nat) (grid : nat * nat) :
  grid = AppHandlers.stripGrid count \/
  grid = AppHandlers.expressionGrid count ->
  fst grid * snd grid = count.
Proof.
  intros [-> | ->].
  - cbn. lia.
  - unfold AppHandlers.expressionGrid.
    destruct (count =? 4) eqn:E; cbn [fst snd]; [|lia].
    apply Nat.eqb_eq in E. subst count. reflexivity.
Qed.

(** A task of the character mode whose composite arrives and decodes. *)
Lemma task_good (img : Raster) (ids : nat -> string) (genPrompt : string)
    (grid : nat * nat) (count : nat) (ar : AppHandlers.AspectRatio)
    (idBase : Z) (labelPrefix : string) (st : App.State) :
  grid = AppHandlers.stripGrid count \/
  grid = AppHandlers.expressionGrid count ->
  exists newImages : list GeneratedImage,
    Generate.task (Generate.goodAnswer img ids) genPrompt grid count ar idBase
      labelPrefix st
    = inl (App.mkState (newImages ++ App.images st)
             (match newImages with
              | first :: _ => Some (id first)
              | [] => App.selectedImageId st
              end)
             (App.stored st ++ newImages)) /\
    List.length newImages = count /\
    Forall (Generate.taskImage ar idBase
              ("[" ++ labelPrefix ++ "] " ++ String.substring 0 50 genPrompt
               ++ "...")%string) newImages /\
    (forall i im, nth_error newImages i = Some im -> id im = ids i).
Proof.
  intros G. pose proof (characterGrid_cells G) as P.
  unfold Generate.task, Generate.goodAnswer.
  cbn [Generate.uuid Generate.generated Generate.decodes Generate.ctxAvailable].
  rewrite generateAndAddImage_ok. eexists. split; [reflexivity|].
  split; [rewrite newImages_length, grid_length; lia|].
  split.
  - apply Forall_forall. intros im Hin.
    apply In_nth_error in Hin as (i & N). rewrite mapWithIndex_nth in N.
    match type of N with
    | option_map _ ?o = _ => destruct o; [|discriminate N]
    end.
    cbn [option_map] in N. injection N as <-. repeat split.
  - intros i im N. rewrite mapWithIndex_nth in N.
    match type of N with
    | option_map _ ?o = _ => destruct o; [|discriminate N]
    end.
    cbn [option_map] in N. injection N as <-. reflexivity.
Qed.

(** The same for a category that may be empty, in which case the call is
    skipped. *)
Lemma optionalTask_good (img : Raster) (ids : nat -> string)
    (genPrompt : string) (grid : nat * nat) (l : list string)
    (ar : AppHandlers.AspectRatio) (idBase : Z) (labelPrefix : string)
    (st : App.State) :
  grid = AppHandlers.stripGrid (List.length l) \/
  grid = AppHandlers.expressionGrid (List.length l) ->
  exists (newImages : list GeneratedImage) (st1 : App.State),
    (if 0 <? List.length l
     then Generate.task (Generate.goodAnswer img ids) genPrompt grid
            (List.length l) ar idBase labelPrefix st
     else inl st) = inl st1 /\
    App.images st1 = newImages ++ App.images st /\
    App.stored st1 = App.stored st ++ newImages /\
    List.length newImages = List.length l /\
    Forall (Generate.taskImage ar idBase
              ("[" ++ labelPrefix ++ "] " ++ String.substring 0 50 genPrompt
               ++ "...")%string) newImages.
Proof.
  intros G. destruct (0 <? List.length l) eqn:E.
  - destruct (@task_good img ids genPrompt grid (List.length l) ar idBase
                labelPrefix st G) as (new & Et & L & F & _).
    exists new. eexists. split; [exact Et|]. now repeat split.
  - apply Nat.ltb_ge in E. exists [], st. split; [reflexivity|].
    split; [reflexivity|]. split; [now rewrite app_nil_r|].
    split; [cbn; lia|constructor].
Qed.

(** X22.  The character mode with at least one selection, when every
    composite arrives and decodes: the run completes and adds one image per
    selected view, shot and expression, the expressions' images first in
    the list, then the shots', then the views'; the store receives them in
    the order of generation.  The images of a category share its aspect
    ratio (3:4, 16:9, 1:1), its time stamp (t, t+1, t+2) and a prompt label
    that is the same whatever the user typed and selected, because the
    first 50 characters of each template are fixed text. *)
Theorem character_mode_adds_selected_panels
    (params : DirectorDeck.CharacterParams) (prompt : string) (t : Z)
    (imgV imgS imgE : Raster) (idsV idsS idsE : nat -> string)
    (st : App.State) :
  DirectorDeck.views params <> [] \/ DirectorDeck.shots params <> [] \/
  DirectorDeck.expressions params <> [] ->
  exists (nv ns ne : list GeneratedImage) (st' : App.State),
    Generate.characterMode params prompt t
      (Generate.goodAnswer imgV idsV) (Generate.goodAnswer imgS idsS)
      (Generate.goodAnswer imgE idsE) st = (st', Generate.Completed) /\
    App.images st' = ne ++ ns ++ nv ++ App.images st /\
    App.stored st' = App.stored st ++ nv ++ ns ++ ne /\
    List.length nv = List.length (DirectorDeck.views params) /\
    List.length ns = List.length (DirectorDeck.shots params) /\
    List.length ne = List.length (DirectorDeck.expressions params) /\
    Forall (Generate.taskImage AppHandlers.PORTRAIT t
      "[视图 (Views)] Character Design Reference Sheet. MANDATORY LAYOUT...")
      nv /\
    Forall (Generate.taskImage AppHandlers.WIDE (t + 1)
      "[景别 (Shots)] Cinematic Character Photography. MANDATORY LAYOUT:...")
      ns /\
    Forall (Generate.taskImage AppHandlers.SQUARE (t + 2)
      "[表情 (Faces)] Character Facial Expression Sheet. MANDATORY LAYOU...")
      ne.
Proof.
  intros Hsel. unfold Generate.characterMode. cbv zeta.
  match goal with
  | |- context [if ?x =? 0 then _ else _] =>
      assert (TC : (x =? 0) = false)
  end.
  { destruct (DirectorDeck.views params), (DirectorDeck.shots params),
      (DirectorDeck.expressions params); try reflexivity.
    exfalso. destruct Hsel as [H|[H|H]]; now apply H. }
  rewrite TC.
  destruct (@optionalTask_good imgV idsV
              (Generate.viewPrompt (DirectorDeck.views params) prompt)
              (AppHandlers.stripGrid (List.length (DirectorDeck.views params)))
              (DirectorDeck.views params) AppHandlers.PORTRAIT t
              "视图 (Views)"%string st (or_introl eq_refl))
    as (nv & st1 & E1 & I1 & S1 & L1 & F1).
  rewrite E1.
  destruct (@optionalTask_good imgS idsS
              (Generate.shotPrompt (DirectorDeck.shots params) prompt)
              (AppHandlers.stripGrid (List.length (DirectorDeck.shots params)))
              (DirectorDeck.shots params) AppHandlers.WIDE (t + 1)%Z
              "景别 (Shots)"%string st1 (or_introl eq_refl))
    as (ns & st2 & E2 & I2 & S2 & L2 & F2).
  rewrite E2.
  destruct (@optionalTask_good imgE idsE
              (Generate.expPrompt (DirectorDeck.expressions params) prompt)
              (AppHandlers.expressionGrid
                 (List.length (DirectorDeck.expressions params)))
              (DirectorDeck.expressions params) AppHandlers.SQUARE (t + 2)%Z
              "表情 (Faces)"%string st2 (or_intror eq_refl))
    as (ne & st3 & E3 & I3 & S3 & L3 & F3).
  rewrite E3.
  exists nv, ns, ne, st3. split; [reflexivity|].
  split; [rewrite I3, I2, I1; reflexivity|].
  split; [rewrite S3, S2, S1, <- !app_assoc; reflexivity|].
  split; [exact L1|]. split; [exact L2|]. split; [exact L3|].
  rewrite viewPrompt_label in F1. rewrite shotPrompt_label in F2.
  rewrite expPrompt_label in F3.
  split; [exact F1|]. split; [exact F2|exact F3].
Qed.

Lemma character_mode_adds_selected_panels_witness :
  (DirectorDeck.views Generate.sampleParams <> [] \/
   DirectorDeck.shots Generate.sampleParams <> [] \/
   DirectorDeck.expressions Generate.sampleParams <> []) /\
  exists st' : App.State,
    Generate.characterMode Generate.sampleParams "a knight"%string 1000
      (Generate.goodAnswer sampleImage (fun _ => "v"%string))
      (Generate.goodAnswer sampleImage (fun _ => "s"%string))
      (Generate.goodAnswer sampleImage (fun _ => "e"%string))
      (App.mkState [] None []) = (st', Generate.Completed) /\
    List.length (App.images st') = 3.
Proof.
  assert (H : DirectorDeck.views Generate.sampleParams <> [] \/
              DirectorDeck.shots Generate.sampleParams <> [] \/
              DirectorDeck.expressions Generate.sampleParams <> [])
    by (left; discriminate).
  split; [exact H|].
  destruct (@character_mode_adds_selected_panels Generate.sampleParams
              "a knight"%string 1000%Z sampleImage sampleImage sampleImage
              (fun _ => "v"%string) (fun _ => "s"%string) (fun _ => "e"%string)
              (App.mkState [] None []) H)
    as (nv & ns & ne & st' & E & I & _ & Lv & Ls & Le & _).
  exists st'. split; [exact E|].
  rewrite I, !length_app, Lv, Ls, Le. reflexivity.
Defined.

(** X23.  A task of the character mode that fails ends the run in
    [handleError]: with views and shots selected, the views' composite
    delivered and no image in the answer for the shots, the views' images
    stay in the list and in the store, the first of them selected; the
    shots add nothing and the expressions are never requested, whatever
    their answer would have been. *)
Theorem character_mode_failure_keeps_earlier_images
    (params : DirectorDeck.CharacterParams) (prompt : string) (t : Z)
    (imgV : Raster) (idsV : nat -> string)
    (forShots forExpressions : Generate.Answer) (st : App.State) :
  DirectorDeck.views params <> [] -> DirectorDeck.shots params <> [] ->
  Generate.generated forShots = None ->
  exists nv : list GeneratedImage,
    Generate.characterMode params prompt t (Generate.goodAnswer imgV idsV)
      forShots forExpressions st
    = (App.mkState (nv ++ App.images st) (Some (idsV 0))
         (App.stored st ++ nv),
       Generate.Caught GeminiService.NoGridImage) /\
    List.length nv = List.length (DirectorDeck.views params).
Proof.
  intros Hv Hs Hg. unfold Generate.characterMode. cbv zeta.
  match goal with
  | |- context [if ?x =? 0 then _ else _] =>
      assert (TC : (x =? 0) = false)
  end.
  { destruct (DirectorDeck.views params); [now contradiction Hv|].
    destruct (DirectorDeck.shots params), (DirectorDeck.expressions params);
      reflexivity. }
  rewrite TC.
  assert (Pv : (0 <? List.length (DirectorDeck.views params)) = true).
  { destruct (DirectorDeck.views params); [now contradiction Hv|reflexivity]. }
  assert (Ps : (0 <? List.length (DirectorDeck.shots params)) = true).
  { destruct (DirectorDeck.shots params); [now contradiction Hs|reflexivity]. }
  rewrite Pv, Ps.
  destruct (@task_good imgV idsV
              (Generate.viewPrompt (DirectorDeck.views params) prompt)
              (AppHandlers.stripGrid (List.length (DirectorDeck.views params)))
              (List.length (DirectorDeck.views params)) AppHandlers.PORTRAIT t
              "视图 (Views)"%string st (or_introl eq_refl))
    as (nv & E1 & L1 & _ & Id).
  rewrite E1.
  unfold Generate.task at 1. rewrite Hg.
  unfold App.generateAndAddImage, GeminiService.generateMultiViewGrid.
  exists nv. split; [|exact L1].
  destruct nv as [|first rest].
  - cbn [List.length] in L1. rewrite <- L1 in Pv. discriminate Pv.
  - rewrite (Id 0 first eq_refl). reflexivity.
Qed.

Lemma character_mode_failure_keeps_earlier_images_witness :
  (DirectorDeck.views Generate.sampleParams <> [] /\
   DirectorDeck.shots Generate.sampleParams <> []) /\
  exists st' : App.State,
    Generate.characterMode Generate.sampleParams "a knight"%string 1000
      (Generate.goodAnswer sampleImage (fun _ => "v"%string))
      (Generate.mkAnswer None true true (fun _ => "s"%string))
      (Generate.goodAnswer sampleImage (fun _ => "e"%string))
      (App.mkState [] None [])
    = (st', Generate.Caught GeminiService.NoGridImage) /\
    List.length (App.images st') = 2 /\
    App.selectedImageId st' = Some "v"%string.
Proof.
  assert (H : DirectorDeck.views Generate.sampleParams <> [] /\
              DirectorDeck.shots Generate.sampleParams <> [])
    by (split; discriminate).
  split; [exact H|]. destruct H as (Hv & Hs).
  destruct (@character_mode_failure_keeps_earlier_images Generate.sampleParams
              "a knight"%string 1000%Z sampleImage (fun _ => "v"%string)
              (Generate.mkAnswer None true true (fun _ => "s"%string))
              (Generate.goodAnswer sampleImage (fun _ => "e"%string))
              (App.mkState [] None []) Hv Hs eq_refl) as (nv & E & L).
  eexists. split; [exact E|]. cbn [App.images App.selectedImageId].
  rewrite length_app, L. split; reflexivity.
Defined.

(** X24.  The Generate button of the character page and the branch agree
    on what an empty selection is: the branch ends with its "select at
    least one" error, leaving the state as it was, exactly when the button
    of an idle deck is disabled for these parameters.  Through an enabled
    button that error is never reached. *)
Theorem generate_button_guards_empty_selection
    (params : DirectorDeck.CharacterParams) (prompt : string) (t : Z)
    (forViews forShots forExpressions : Generate.Answer) (st : App.State) :
  Generate.isGenerateDisabled false (Some params) = true <->
  exists message : string,
    Generate.characterMode params prompt t forViews forShots forExpressions st
    = (st, Generate.ErrorSet message).
Proof.
  unfold Generate.isGenerateDisabled, Generate.characterMode. cbv zeta.
  cbn [orb].
  destruct (DirectorDeck.views params) as [|v vs].
  - destruct (DirectorDeck.shots params) as [|s ss].
    + destruct (DirectorDeck.expressions params) as [|x xs].
      * cbn. split; [intros _; eexists; reflexivity|reflexivity].
      * cbn [List.length Nat.ltb Nat.leb Nat.eqb orb negb].
        split; [discriminate|]. intros (message & E).
        destruct (Generate.task _ _ _ _ _ _ _ _); discriminate E.
    + cbn [List.length Nat.ltb Nat.leb Nat.eqb orb negb].
      split; [discriminate|]. intros (message & E).
      destruct (DirectorDeck.expressions params);
        cbn [List.length Nat.ltb Nat.leb Nat.eqb] in E;
        repeat match type of E with
        | context [match ?x with inl _ => _ | inr _ => _ end] => destruct x
        end; discriminate E.
  - cbn [List.length Nat.ltb Nat.leb Nat.eqb orb negb].
    split; [discriminate|]. intros (message & E).
    destruct (DirectorDeck.shots params), (DirectorDeck.expressions params);
      cbn [List.length Nat.ltb Nat.leb Nat.eqb] in E;
      repeat match type of E with
      | context [match ?x with inl _ => _ | inr _ => _ end] => destruct x
      end; discriminate E.
Qed.

(** ** The shot list *)

Lemma reorder_nth (l : list ShotList.Shot) (i : nat) :
  nth_error (ShotList.reorder l) i
  = option_map (fun s => ShotList.withOrder s i) (nth_error l i).
Proof. unfold ShotList.reorder. now rewrite mapWithIndex_nth. Qed.

Lemma reorder_length (l : list ShotList.Shot) :
  List.length (ShotList.reorder l) = List.length l.
Proof. apply mapWithIndex_length. Qed.

Lemma reorder_ordered (l : list ShotList.Shot) :
  ShotList.ordered (ShotList.reorder l).
Proof.
  intros i s N. rewrite reorder_nth in N.
  destruct (nth_error l i); [|discriminate N].
  cbn [option_map] in N. injection N as <-. reflexivity.
Qed.

Lemma withOrder_own (s : ShotList.Shot) : ShotList.withOrder s (ShotList.order s) = s.
Proof. destruct s; reflexivity. Qed.

Lemma reorder_fixes_ordered (l : list ShotList.Shot) :
  ShotList.ordered l -> ShotList.reorder l = l.
Proof.
  intros H. apply nth_error_ext. intros i. rewrite reorder_nth.
  destruct (nth_error l i) as [s|] eqn:N; [|reflexivity].
  cbn [option_map]. rewrite <- (H i s N). now rewrite withOrder_own.
Qed.

Lemma mapWithIndex_forget_order (k : nat) (l l' : list ShotList.Shot) :
  map (fun s => ShotList.withOrder s 0) l
    = map (fun s => ShotList.withOrder s 0) l' ->
  App.mapWithIndex ShotList.withOrder k l
  = App.mapWithIndex ShotList.withOrder k l'.
Proof.
  revert k l'. induction l as [|a l IH]; intros k [|b l'] H;
    try discriminate H; [reflexivity|].
  cbn [map] in H. injection H as Hab Hl.
  cbn [App.mapWithIndex]. f_equal; [|now apply IH].
  unfold ShotList.withOrder in *. congruence.
Qed.

Lemma filter_reorder_forget (id0 : string) (k : nat) (l : list ShotList.Shot) :
  map (fun s => ShotList.withOrder s 0)
    (filter (fun s => negb (String.eqb (ShotList.id s) id0))
       (App.mapWithIndex ShotList.withOrder k l))
  = map (fun s => ShotList.withOrder s 0)
      (filter (fun s => negb (String.eqb (ShotList.id s) id0)) l).
Proof.
  revert k. induction l as [|a l IH]; intros k; [reflexivity|].
  cbn [App.mapWithIndex filter ShotList.withOrder ShotList.id].
  destruct (negb (String.eqb (ShotList.id a) id0)); cbn [map];
    rewrite IH; reflexivity.
Qed.

Lemma filter_keeps_other_ids (id0 : string) (l : list ShotList.Shot) :
  ~ In id0 (map ShotList.id l) ->
  filter (fun s => negb (String.eqb (ShotList.id s) id0)) l = l.
Proof.
  induction l as [|a l IH]; [reflexivity|]. intros H. cbn [filter].
  destruct (String.eqb (ShotList.id a) id0) eqn:E.
  - apply String.eqb_eq in E. exfalso. apply H. now left.
  - cbn [negb]. f_equal. apply IH. intros Hin. apply H. now right.
Qed.

(** X25.  The shot list keeps its numbering of positions: from a list in
    which every shot has its position as [order], any sequence of adding
    at the end, inserting after a row and deleting by id leads to a list
    with the same property.  Inserting and deleting renumber the whole
    list; adding gives the new shot the old length. *)
Theorem shot_orders_are_positions (evs : list ShotList.ShotEvent)
    (st : ShotList.State) :
  ShotList.ordered (ShotList.shots st) ->
  ShotList.ordered (ShotList.shots (fold_left ShotList.shotStep evs st)).
Proof.
  revert st. induction evs as [|ev evs IH]; intros st H; [exact H|].
  cbn [fold_left]. apply IH. destruct ev; cbn [ShotList.shotStep].
  - unfold ShotList.handleAddShot.
    destruct (ShotList.activeProjectId st) as [p|]; [|exact H].
    cbn [ShotList.shots]. intros i sh N.
    destruct (Nat.lt_ge_cases i (List.length (ShotList.shots st))) as [L|L].
    + rewrite nth_error_app1 in N by exact L. now apply H.
    + rewrite nth_error_app2 in N by exact L.
      destruct (i - List.length (ShotList.shots st)) as [|j] eqn:E.
      * cbn in N. injection N as <-. cbn [ShotList.newShot ShotList.order]. lia.
      * destruct j; discriminate N.
  - unfold ShotList.handleInsertShot.
    destruct (ShotList.activeProjectId st); [|exact H].
    apply reorder_ordered.
  - apply reorder_ordered.
Qed.

Lemma shot_orders_are_positions_witness :
  ShotList.ordered (ShotList.shots ShotList.sampleShots) /\
  ShotList.ordered
    (ShotList.shots
       (fold_left ShotList.shotStep
          [ShotList.InsertShot "n" 0; ShotList.DeleteShot "s0";
           ShotList.AddShot "m"] ShotList.sampleShots)).
Proof.
  assert (H : ShotList.ordered (ShotList.shots ShotList.sampleShots)).
  { intros [|[|i]] sh N; cbn in N.
    - injection N as <-. reflexivity.
    - injection N as <-. reflexivity.
    - destruct i; discriminate N. }
  split; [exact H|].
  exact (@shot_orders_are_positions
           [ShotList.InsertShot "n" 0; ShotList.DeleteShot "s0";
            ShotList.AddShot "m"] ShotList.sampleShots H).
Defined.

(** X26.  Inserting after row [index] of a list that has such a row, with
    a project open: the rows up to [index] stay where they are, the new
    empty shot stands at [index + 1], and every later row moves down by one
    place; the list grows by one and all rows are numbered by their new
    positions. *)
Theorem insert_places_shot_after_row (uuid p : string) (index : nat)
    (st : ShotList.State) :
  ShotList.activeProjectId st = Some p ->
  index < List.length (ShotList.shots st) ->
  let shots' := ShotList.shots (ShotList.handleInsertShot uuid index st) in
  List.length shots' = S (List.length (ShotList.shots st)) /\
  nth_error shots' (index + 1)
    = Some (ShotList.newShot uuid p "" (index + 1)) /\
  (forall i, i <= index ->
     nth_error shots' i
     = option_map (fun s => ShotList.withOrder s i)
         (nth_error (ShotList.shots st) i)) /\
  (forall i, index < i ->
     nth_error shots' (S i)
     = option_map (fun s => ShotList.withOrder s (S i))
         (nth_error (ShotList.shots st) i)).
Proof.
  intros Hp Hi shots'. subst shots'.
  unfold ShotList.handleInsertShot. rewrite Hp. cbn [ShotList.shots].
  unfold ShotList.splice.
  assert (Lf : List.length (firstn (index + 1) (ShotList.shots st)) = index + 1)
    by (rewrite length_firstn; lia).
  split; [|split; [|split]].
  - rewrite reorder_length, length_app. cbn [List.length].
    rewrite Lf, length_skipn. lia.
  - rewrite reorder_nth, nth_error_app2 by lia.
    rewrite Lf, Nat.sub_diag. reflexivity.
  - intros i Hle. rewrite reorder_nth, nth_error_app1 by lia.
    rewrite nth_error_firstn.
    destruct (i <? index + 1) eqn:E; [reflexivity|].
    apply Nat.ltb_ge in E. lia.
  - intros i Hlt. rewrite reorder_nth, nth_error_app2 by lia.
    rewrite Lf. replace (S i - (index + 1)) with (S (i - (index + 1))) by lia.
    cbn [nth_error]. rewrite nth_error_skipn.
    replace (index + 1 + (i - (index + 1))) with i by lia. reflexivity.
Qed.

Lemma insert_places_shot_after_row_witness :
  (ShotList.activeProjectId ShotList.sampleShots = Some "p"%string /\
   0 < List.length (ShotList.shots ShotList.sampleShots)) /\
  nth_error
    (ShotList.shots (ShotList.handleInsertShot "n" 0 ShotList.sampleShots)) 1
  = Some (ShotList.newShot "n" "p" "" 1).
Proof.
  assert (H : ShotList.activeProjectId ShotList.sampleShots = Some "p"%string /\
              0 < List.length (ShotList.shots ShotList.sampleShots))
    by (split; [reflexivity|cbn; lia]).
  split; [exact H|]. destruct H as (Hp & Hi).
  exact (proj1 (proj2 (@insert_places_shot_after_row "n" "p" 0
                         ShotList.sampleShots Hp Hi))).
Defined.

(** X27.  Inserting a shot with a fresh id and deleting it again gives back
    the shot list, when the list was numbered by positions. *)
Theorem insert_then_delete_restores_shots (uuid : string) (index : nat)
    (st : ShotList.State) :
  ShotList.ordered (ShotList.shots st) ->
  ~ In uuid (map ShotList.id (ShotList.shots st)) ->
  ShotList.handleDeleteShot uuid (ShotList.handleInsertShot uuid index st) = st.
Proof.
  intros Ho Hf. unfold ShotList.handleInsertShot.
  destruct (ShotList.activeProjectId st) as [p|] eqn:Hp.
  - unfold ShotList.handleDeleteShot. cbn [ShotList.shots ShotList.activeProjectId].
    destruct st as [l a]. cbn [ShotList.shots ShotList.activeProjectId] in *.
    subst a. f_equal.
    rewrite <- (reorder_fixes_ordered Ho) at 2.
    unfold ShotList.reorder at 1 3. apply mapWithIndex_forget_order.
    unfold ShotList.reorder. rewrite filter_reorder_forget.
    unfold ShotList.splice. rewrite filter_app. cbn [filter ShotList.newShot ShotList.id].
    rewrite String.eqb_refl. cbn [negb]. rewrite <- filter_app, firstn_skipn.
    now rewrite filter_keeps_other_ids.
  - unfold ShotList.handleDeleteShot. destruct st as [l a].
    cbn [ShotList.shots ShotList.activeProjectId] in *. f_equal.
    rewrite filter_keeps_other_ids by exact Hf.
    now apply reorder_fixes_ordered.
Qed.

Lemma insert_then_delete_restores_shots_witness :
  (ShotList.ordered (ShotList.shots ShotList.sampleShots) /\
   ~ In "n"%string (map ShotList.id (ShotList.shots ShotList.sampleShots))) /\
  ShotList.handleDeleteShot "n" (ShotList.handleInsertShot "n" 0 ShotList.sampleShots)
  = ShotList.sampleShots.
Proof.
  assert (H : ShotList.ordered (ShotList.shots ShotList.sampleShots) /\
              ~ In "n"%string
                  (map ShotList.id (ShotList.shots ShotList.sampleShots))).
  { split.
    - intros [|[|i]] sh N; cbn in N.
      + injection N as <-. reflexivity.
      + injection N as <-. reflexivity.
      + destruct i; discriminate N.
    - cbn. intros [E|[E|[]]]; discriminate E. }
  split; [exact H|]. destruct H as (Ho & Hf).
  exact (@insert_then_delete_restores_shots "n" 0 ShotList.sampleShots Ho Hf).
Defined.
